(** * mapview.js: the notebook map widget view

    A shallow embedding of [mycity/temp/arcgis/widgets/mapview.js], the
    browser-side view that binds the kernel-hosted widget model to an
    ArcGIS map, and the properties of its event wiring and of the JSON
    records it keeps in the model.

    Conventions of the embedding.
    - A JavaScript string is a [string] whose characters are UTF-16 code
      units below 256. JSON text that writes another code unit with an
      escape is outside the embedding; [narrow] tells the text that is
      inside.
    - A JavaScript number is carried as a decimal numeral ([VNum]); the
      view never computes with the numbers it passes around. Where the
      view tests a number ([truthy], [loose_eq_minus_one]), the test is on
      the binary64 value of the numeral. The numeral and the order of the
      members of an object are kept as [parse] reads them, where JavaScript
      writes the shortest numeral of the binary64 value and enumerates
      members whose keys are array indices first: the statements below say
      what text the view writes for the values it appends or sets, and of
      what it has read and writes again that it is [alike] to what was
      read.
    - [console.log] calls and the stylesheet/CSS-class lines of [render]
      have no effect on the model, the map or the kernel and are left out.
    - The mapping toolkit, the identity manager, the notebook keyboard
      manager and the widget framework are outside the file: their objects
      are records whose fields the calls of the view update, and what they
      decide on their own (promise outcomes, events, the state of a loaded
      layer) arrives as input. *)

From Stdlib Require Import String Ascii List ZArith Lia Bool.
From stdpp Require Import base option list strings gmap.
Import ListNotations.
Open Scope string_scope.

Set Warnings "-register-all".

(** ** JavaScript values and the JSON built-ins *)

Module JSON.

(** *** Characters *)

Definition code (c : ascii) : nat := nat_of_ascii c.

Definition is_digit (c : ascii) : bool :=
  (48 <=? code c)%nat && (code c <=? 57)%nat.

Definition is_json_ws (c : ascii) : bool :=
  match code c with
  | 32 | 9 | 10 | 13 => true
  | _ => false
  end.

Definition dquote : ascii := Eval cbv in ascii_of_nat 34.

Definition hex_digit (n : nat) : ascii :=
  ascii_of_nat (if (n <? 10)%nat then 48 + n else 87 + n).

Definition hex_val (c : ascii) : option nat :=
  let n := code c in
  if (48 <=? n)%nat && (n <=? 57)%nat then Some (n - 48)
  else if (97 <=? n)%nat && (n <=? 102)%nat then Some (n - 87)
  else if (65 <=? n)%nat && (n <=? 70)%nat then Some (n - 55)
  else None.

(** *** Numbers *)

Fixpoint scan_digits (s : string) : string * string :=
  match s with
  | String c r =>
      if is_digit c then let '(d, t) := scan_digits r in (String c d, t)
      else ("", s)
  | EmptyString => ("", s)
  end.

(** A run of at least one digit. *)
Definition scan_digits1 (s : string) : option (string * string) :=
  match scan_digits s with
  | (EmptyString, _) => None
  | (d, t) => Some (d, t)
  end.

(** int: [0], or a digit from 1 to 9 and then any digits. *)
Definition scan_int (s : string) : option (string * string) :=
  match s with
  | String c r =>
      if Ascii.eqb c "0" then Some ("0", r)
      else if is_digit c then let '(d, t) := scan_digits r in Some (String c d, t)
      else None
  | EmptyString => None
  end.

Definition scan_frac (s : string) : option (string * string) :=
  match s with
  | String "." r =>
      match scan_digits1 r with
      | Some (d, t) => Some (String "." d, t)
      | None => None
      end
  | _ => Some ("", s)
  end.

Definition scan_sign (s : string) : string * string :=
  match s with
  | String "+" r => ("+", r)
  | String "-" r => ("-", r)
  | _ => ("", s)
  end.

Definition scan_exp (s : string) : option (string * string) :=
  match s with
  | String c r =>
      if Ascii.eqb c "e" || Ascii.eqb c "E" then
        let '(sg, r1) := scan_sign r in
        match scan_digits1 r1 with
        | Some (d, t) => Some (String c (sg ++ d), t)
        | None => None
        end
      else Some ("", s)
  | EmptyString => Some ("", s)
  end.

(** A number in full: [-]? int frac? exp?. *)
Definition scan_number (s : string) : option (string * string) :=
  let '(m, s0) := match s with String "-" r => ("-", r) | _ => ("", s) end in
  '(i, s1) ← scan_int s0;
  '(f, s2) ← scan_frac s1;
  '(e, s3) ← scan_exp s2;
  Some (m ++ i ++ f ++ e, s3).

Definition valid_number (tok : string) : bool :=
  match scan_number tok with
  | Some (_, EmptyString) => true
  | _ => false
  end.

Definition is_number_char (c : ascii) : bool :=
  is_digit c || Ascii.eqb c "-" || Ascii.eqb c "+" || Ascii.eqb c "."
  || Ascii.eqb c "e" || Ascii.eqb c "E".

Fixpoint span_number (s : string) : string * string :=
  match s with
  | String c r =>
      if is_number_char c then let '(t, u) := span_number r in (String c t, u)
      else ("", s)
  | EmptyString => ("", s)
  end.

(** A numeral: written with the characters of numbers only, and a
    number in full. *)
Definition number_ok (lit : string) : bool :=
  match span_number lit with
  | (_, EmptyString) => valid_number lit
  | _ => false
  end.


(** A number, as the decimal numeral that JSON writes it with. *)
Record numeral : Type := Numeral {
  digits : string;
  digits_ok : number_ok digits = true
}.

(** The values that JSON text denotes, with [undefined] added: reading a
    property that an object does not have gives [VUndefined]. An object is
    its list of own properties in enumeration order. *)
Inductive value : Type :=
| VUndefined
| VNull
| VBool (b : bool)
| VNum (n : numeral)
| VStr (s : string)
| VArr (elems : list value)
| VObj (fields : list (string * value)).

(** The number that [lit] writes, if it writes one. *)
Definition make_numeral (lit : string) : option numeral :=
  match number_ok lit as b return number_ok lit = b -> option numeral with
  | true => fun H => Some (Numeral lit H)
  | false => fun _ => None
  end eq_refl.

(** A number literal of the source or of test data as a value. *)
Definition number (lit : string) : value :=
  match make_numeral lit with
  | Some n => VNum n
  | None => VNull
  end.

(** *** JSON.stringify *)

(** One character of a string literal, as [JSON.stringify] quotes it. *)
Definition escape_char (c : ascii) : string :=
  match code c with
  | 34 => String "\" (String dquote "")
  | 92 => "\\"
  | 8 => "\b"
  | 12 => "\f"
  | 10 => "\n"
  | 13 => "\r"
  | 9 => "\t"
  | n =>
      if (n <? 32)%nat
      then "\u00" ++ String (hex_digit (n / 16)) (String (hex_digit (n mod 16)) "")
      else String c ""
  end.

Fixpoint escape (s : string) : string :=
  match s with
  | EmptyString => ""
  | String c r => escape_char c ++ escape r
  end.

Definition quote (s : string) : string :=
  String dquote (escape s ++ String dquote "").

Fixpoint join_comma (l : list string) : string :=
  match l with
  | [] => ""
  | [x] => x
  | x :: r => x ++ "," ++ join_comma r
  end.

(** The members of an object, each written with [f]; a property whose
    value [f] has no text for is left out. *)
Definition members_with (f : value -> option string)
  : list (string * value) -> list string :=
  fix go fs :=
    match fs with
    | [] => []
    | (k, x) :: r =>
        match f x with
        | Some t => (quote k ++ ":" ++ t) :: go r
        | None => go r
        end
    end.

(** [JSON.stringify(v)] without indentation. [None] is the [undefined]
    that the built-in returns for [undefined]; inside an array [undefined]
    is written [null], and a property whose value is [undefined] is left
    out. A number is written with its numeral and the members of an object
    in the order of the list: this is the text of the built-in for a value
    whose numerals are the ones JavaScript writes and whose members stand
    in the order of enumeration, which a value that [parse] has read from
    other text need not be. *)
Fixpoint stringify (v : value) : option string :=
  match v with
  | VUndefined => None
  | VNull => Some "null"
  | VBool true => Some "true"
  | VBool false => Some "false"
  | VNum n => Some (digits n)
  | VStr s => Some (quote s)
  | VArr l =>
      Some ("[" ++ join_comma (map (fun x => default "null" (stringify x)) l) ++ "]")
  | VObj fs =>
      Some ("{" ++ join_comma (members_with stringify fs) ++ "}")
  end.

Definition stringify_item (x : value) : string := default "null" (stringify x).

(** [JSON.stringify] of an array and of an object always is a string. *)
Definition stringify_array (l : list value) : string :=
  "[" ++ join_comma (map stringify_item l) ++ "]".

Definition stringify_object (fs : list (string * value)) : string :=
  "{" ++ join_comma (members_with stringify fs) ++ "}".

(** *** Property access on parsed data *)

Fixpoint assoc (k : string) (fs : list (string * value)) : option value :=
  match fs with
  | [] => None
  | (k', x) :: r => if String.eqb k k' then Some x else assoc k r
  end.

(** [o[k] = x] on an object: an own property keeps its place, a new one is
    added at the end. *)
Fixpoint obj_set (k : string) (x : value) (fs : list (string * value))
  : list (string * value) :=
  match fs with
  | [] => [(k, x)]
  | (k', y) :: r =>
      if String.eqb k k' then (k', x) :: r else (k', y) :: obj_set k x r
  end.

Definition keys (fs : list (string * value)) : list string := map fst fs.

(** *** JSON.parse *)

Fixpoint skip_ws (s : string) : string :=
  match s with
  | String c r => if is_json_ws c then skip_ws r else s
  | EmptyString => s
  end.

(** The number token at the head of [s] and what follows it: the run of
    characters that numbers are written with, which has to be a number.
    (What may follow a value in JSON text is none of these characters.) *)
Definition number_token (s : string) : option (numeral * string) :=
  let '(tok, r) := span_number s in
  n ← make_numeral tok; Some (n, r).

Definition unescape (e : ascii) : option ascii :=
  match code e with
  | 34 => Some dquote
  | 92 => Some "\"%char
  | 47 => Some "/"%char
  | 98 => Some (ascii_of_nat 8)
  | 102 => Some (ascii_of_nat 12)
  | 110 => Some (ascii_of_nat 10)
  | 114 => Some (ascii_of_nat 13)
  | 116 => Some (ascii_of_nat 9)
  | _ => None
  end.

(** The code unit that [\uabcd] writes, if it is below 256. *)
Definition hex4 (a b c d : ascii) : option ascii :=
  ha ← hex_val a; hb ← hex_val b; hc ← hex_val c; hd ← hex_val d;
  if (ha =? 0)%nat && (hb =? 0)%nat
  then Some (ascii_of_nat (16 * hc + hd)) else None.

Fixpoint scan_string (s : string) : option (string * string) :=
  match s with
  | EmptyString => None
  | String c r =>
      match code c with
      | 34 => Some ("", r)
      | 92 =>
          match r with
          | String "u" (String a (String b (String c (String d r4)))) =>
              ch ← hex4 a b c d;
              '(t, r') ← scan_string r4;
              Some (String ch t, r')
          | String e r1 =>
              ch ← unescape e;
              '(t, r') ← scan_string r1;
              Some (String ch t, r')
          | EmptyString => None
          end
      | n =>
          if (n <? 32)%nat then None
          else '(t, r') ← scan_string r; Some (String c t, r')
      end
  end.

Fixpoint drop_chars (n : nat) (s : string) : string :=
  match n, s with
  | S n', String _ r => drop_chars n' r
  | _, _ => s
  end.

(** Whether [s] begins with [word]. *)
Fixpoint starts_with (word s : string) : bool :=
  match word, s with
  | EmptyString, _ => true
  | String a w, String b r => Ascii.eqb a b && starts_with w r
  | String _ _, EmptyString => false
  end.

Definition literal (word : string) (v : value) (s : string)
  : option (value * string) :=
  if starts_with word s
  then Some (v, drop_chars (String.length word) s)
  else None.

Section Composite.
(** The parser of one value, at the nesting depth below. *)
Variable parse_inner : string -> option (value * string).

(** The elements after the first one: [, value] repeated, then []]. *)
Fixpoint parse_more_elements (n : nat) (acc : list value) (s : string)
  : option (value * string) :=
  match n with
  | O => None
  | S n' =>
      match skip_ws s with
      | String "]" r => Some (VArr (rev acc), r)
      | String "," r =>
          '(v, r') ← parse_inner (skip_ws r);
          parse_more_elements n' (v :: acc) r'
      | _ => None
      end
  end.

Definition parse_array (n : nat) (s : string) : option (value * string) :=
  match skip_ws s with
  | String "]" r => Some (VArr [], r)
  | s' =>
      '(v, r') ← parse_inner s';
      parse_more_elements n [v] r'
  end.

Definition parse_member (s : string) : option (string * value * string) :=
  match skip_ws s with
  | String c r =>
      if Ascii.eqb c dquote then
        '(k, r1) ← scan_string r;
        match skip_ws r1 with
        | String ":" r2 =>
            '(v, r3) ← parse_inner (skip_ws r2);
            Some (k, v, r3)
        | _ => None
        end
      else None
  | EmptyString => None
  end.

(** The members after the first one, in the order of the text. *)
Fixpoint parse_more_members (n : nat) (acc : list (string * value)) (s : string)
  : option (value * string) :=
  match n with
  | O => None
  | S n' =>
      match skip_ws s with
      | String "}" r => Some (VObj acc, r)
      | String "," r =>
          '(k, v, r') ← parse_member r;
          parse_more_members n' (obj_set k v acc) r'
      | _ => None
      end
  end.

Definition parse_object (n : nat) (s : string) : option (value * string) :=
  match skip_ws s with
  | String "}" r => Some (VObj [], r)
  | s' =>
      '(k, v, r') ← parse_member s';
      parse_more_members n [(k, v)] r'
  end.
End Composite.

(** One value at the head of [s] (no leading white space), nested at most
    [depth] deep; [n] bounds the number of elements of one array or
    object. *)
Fixpoint parse_value (n depth : nat) (s : string) : option (value * string) :=
  match depth with
  | O => None
  | S d =>
      match s with
      | String c r =>
          if Ascii.eqb c "n" then literal "null" VNull s
          else if Ascii.eqb c "t" then literal "true" (VBool true) s
          else if Ascii.eqb c "f" then literal "false" (VBool false) s
          else if Ascii.eqb c dquote then '(t, r') ← scan_string r; Some (VStr t, r')
          else if Ascii.eqb c "[" then parse_array (parse_value n d) n r
          else if Ascii.eqb c "{" then parse_object (parse_value n d) n r
          else '(lit, r') ← number_token s; Some (VNum lit, r')
      | EmptyString => None
      end
  end.

(** [JSON.parse(s)]. On text whose escapes are [narrow], [None] is the
    [SyntaxError] that the built-in throws. *)
Definition parse (s : string) : option value :=
  let n := S (String.length s) in
  match parse_value n n (skip_ws s) with
  | Some (v, r) => match skip_ws r with EmptyString => Some v | _ => None end
  | None => None
  end.

(** Text in which [\u] is followed by [00] wherever it stands: every
    escape of four hexadecimal digits in it writes a code unit below 256,
    one that a string of this development holds. Text with an escape above
    that is not text that [parse] speaks of. *)
Fixpoint narrow (s : string) : bool :=
  match s with
  | EmptyString => true
  | String c r =>
      match code c, r with
      | 92, String "u" (String a (String b _)) =>
          Ascii.eqb a "0" && Ascii.eqb b "0" && narrow r
      | _, _ => narrow r
      end
  end.

End JSON.
Export JSON.


(** ** JavaScript operations the view applies to strings and parsed data *)

Module JS.

Inductive exn : Type := TypeError | SyntaxError | ReferenceError.

(** The result of evaluating an expression that may throw. *)
Definition res (A : Type) : Type := exn + A.

#[export] Instance res_ret : MRet res := fun A a => inr a.
#[export] Instance res_bind : MBind res := fun A B k r =>
  match r with
  | inr a => k a
  | inl x => inl x
  end.

Definition js_is_ws (c : ascii) : bool :=
  match code c with
  | 9 | 10 | 11 | 12 | 13 | 32 | 160 => true
  | _ => false
  end.

Fixpoint trim_start (s : string) : string :=
  match s with
  | String c r => if js_is_ws c then trim_start r else s
  | EmptyString => s
  end.

(** [s.trim()] *)
Definition trim (s : string) : string :=
  String.rev (trim_start (String.rev (trim_start s))).

(** The guard [(s) && (s.trim() != '')] of [render], [load_map] and the
    time handlers. *)
Definition nonblank (s : string) : bool :=
  negb (String.eqb s "") && negb (String.eqb (trim s) "").

Fixpoint index_from (i : nat) (pat s : string) : Z :=
  if starts_with pat s then Z.of_nat i
  else match s with
       | String _ r => index_from (S i) pat r
       | EmptyString => (-1)%Z
       end.

(** [s.indexOf(pat)] *)
Definition indexOf (s pat : string) : Z := index_from 0 pat s.

(** The guard [s.indexOf('{') > -1]. *)
Definition has_brace (s : string) : bool := (-1 <? indexOf s "{")%Z.

(** [s.replace(pat, rep)] with a string pattern: the first occurrence. *)
Fixpoint replace (pat rep s : string) : string :=
  if starts_with pat s then rep ++ drop_chars (String.length pat) s
  else match s with
       | String c r => String c (replace pat rep r)
       | EmptyString => ""
       end.

(** [v == null]: true of [null] and [undefined] only. *)
Definition nullish (v : value) : bool :=
  match v with
  | VUndefined | VNull => true
  | _ => false
  end.

(** ToString of a value; an array joins its elements with commas, [null]
    and [undefined] elements as the empty string. *)
Fixpoint to_string (v : value) : string :=
  match v with
  | VUndefined => "undefined"
  | VNull => "null"
  | VBool true => "true"
  | VBool false => "false"
  | VNum n => digits n
  | VStr s => s
  | VArr l =>
      join_comma (map (fun x => if nullish x then "" else to_string x) l)
  | VObj _ => "[object Object]"
  end.

(** [v == name] for a string literal [name] that is no numeral (the layer
    type and renderer names of [layer_changed], the mode names): a string
    equal to it, or an array whose ToString is. *)
Definition loose_eq_name (v : value) (name : string) : bool :=
  match v with
  | VStr s => String.eqb s name
  | VArr _ => String.eqb (to_string v) name
  | _ => false
  end.

(** The decimal numeral [lit] as significand and power of ten. *)
Fixpoint digits_value (acc : Z) (s : string) : option Z :=
  match s with
  | EmptyString => Some acc
  | String c r =>
      if is_digit c
      then digits_value (10 * acc + Z.of_nat (code c - 48)) r
      else None
  end.

Fixpoint split_at (p : ascii -> bool) (s : string) : string * option string :=
  match s with
  | EmptyString => ("", None)
  | String c r =>
      if p c then ("", Some r)
      else let '(a, b) := split_at p r in (String c a, b)
  end.

Definition signed_digits (s : string) : option Z :=
  match s with
  | String "-" r => n ← digits_value 0 r; Some (- n)%Z
  | String "+" r => digits_value 0 r
  | _ => digits_value 0 s
  end.

Definition numeral_parts (lit : string) : option (Z * Z) :=
  let '(mant, ex) := split_at (fun c => Ascii.eqb c "e" || Ascii.eqb c "E") lit in
  let '(ip, fp) := split_at (fun c => Ascii.eqb c ".") mant in
  let fr := default "" fp in
  m ← signed_digits (ip ++ fr);
  e ← match ex with Some x => signed_digits x | None => Some 0%Z end;
  Some (m, (e - Z.of_nat (String.length fr))%Z).

(** The decimal [m * 10^e] rounds to the binary64 zero: it is at most
    [2^-1075] in size, half of the least positive binary64 value (at the
    half the tie goes to the even neighbour, which is zero). A decimal
    other than zero with [e] from [-300] on is larger than that. *)
Definition rounds_to_zero (m e : Z) : bool :=
  (m =? 0)%Z
  || ((e <? -300)%Z && (Z.abs m * 2 ^ 1075 <=? 10 ^ (- e))%Z).

(** The decimal [m * 10^e] rounds to the binary64 one: it lies between
    [1 - 2^-54] and [1 + 2^-53], the halves towards the neighbours of one
    (at both the tie goes to one, whose significand is even). *)
Definition rounds_to_one (m e : Z) : bool :=
  if (0 <=? e)%Z then (m * 10 ^ e =? 1)%Z
  else ((2 ^ 54 - 1) * 10 ^ (- e) <=? m * 2 ^ 54)%Z
       && (m * 2 ^ 54 <=? (2 ^ 54 + 2) * 10 ^ (- e))%Z.

(** Whether the number that the numeral [lit] is read as, its binary64
    value, is [0], [1] or [-1]. *)
Definition numeral_is_zero (lit : string) : bool :=
  match numeral_parts lit with
  | Some (m, e) => rounds_to_zero m e
  | None => false
  end.

Definition numeral_is_one (lit : string) : bool :=
  match numeral_parts lit with
  | Some (m, e) => rounds_to_one m e
  | None => false
  end.

Definition numeral_is_minus_one (lit : string) : bool :=
  match numeral_parts lit with
  | Some (m, e) => rounds_to_one (- m) e
  | None => false
  end.

(** ToBoolean *)
Definition truthy (v : value) : bool :=
  match v with
  | VUndefined | VNull => false
  | VBool b => b
  | VNum n => negb (numeral_is_zero (digits n))
  | VStr s => negb (String.eqb s "")
  | VArr _ | VObj _ => true
  end.

(** A string that ToNumber reads as a decimal: digits with an optional
    fraction and exponent, or a fraction alone. *)
Definition str_decimal (s : string) : bool :=
  let '(ip, r) := scan_digits s in
  let '(fp, r1) :=
    match r with
    | String "." r' => let '(d, r'') := scan_digits r' in (Some d, r'')
    | _ => (None, r)
    end in
  let mantissa_ok :=
    match ip, fp with
    | EmptyString, None | EmptyString, Some EmptyString => false
    | _, _ => true
    end in
  match scan_exp r1 with
  | Some (_, EmptyString) => mantissa_ok
  | _ => false
  end.

(** [v == -1] *)
Definition str_is_minus_one (s : string) : bool :=
  match trim s with
  | String "-" r => str_decimal r && numeral_is_one r
  | _ => false
  end.

Definition loose_eq_minus_one (v : value) : bool :=
  match v with
  | VNum n => numeral_is_minus_one (digits n)
  | VStr s => str_is_minus_one s
  | VArr _ => str_is_minus_one (to_string v)
  | _ => false
  end.

(** [v === s] *)
Definition strict_eq_str (v : value) (s : string) : bool :=
  match v with
  | VStr t => String.eqb t s
  | _ => false
  end.

Fixpoint last_index_from (i : nat) (found : Z) (pat s : string) : Z :=
  let found' := if starts_with pat s then Z.of_nat i else found in
  match s with
  | String _ r => last_index_from (S i) found' pat r
  | EmptyString => found'
  end.

(** [s.lastIndexOf(pat)] *)
Definition lastIndexOf (s pat : string) : Z := last_index_from 0 (-1) pat s.

(** [o.k] for a data property name [k] (none of the names the view reads
    is a member of a built-in prototype). *)
Definition get_prop (o : value) (k : string) : res value :=
  match o with
  | VUndefined | VNull => inl TypeError
  | VObj fs => inr (default VUndefined (assoc k fs))
  | _ => inr VUndefined
  end.

(** The value of [o.k] where reading it does not throw. *)
Definition prop (o : value) (k : string) : value :=
  match get_prop o k with
  | inr x => x
  | inl _ => VUndefined
  end.

(** [o[0]] *)
Definition get_first (o : value) : res value :=
  match o with
  | VUndefined | VNull => inl TypeError
  | VArr l => inr (default VUndefined (head l))
  | VStr (String c _) => inr (VStr (String c ""))
  | VObj fs => inr (default VUndefined (assoc "0" fs))
  | _ => inr VUndefined
  end.

(** [k in o] for such a name. *)
Definition has_prop (k : string) (o : value) : res bool :=
  match o with
  | VObj fs => inr (bool_decide (is_Some (assoc k fs)))
  | VArr _ => inr false
  | _ => inl TypeError
  end.

(** [JSON.parse(x)]: the argument is converted to a string first. The
    [SyntaxError] is that of the built-in where the text is [narrow]. *)
Definition JSON_parse (x : value) : res value :=
  match parse (to_string x) with
  | Some v => inr v
  | None => inl SyntaxError
  end.

End JS.
Export JS.

(** ** The widget model, the toolkit objects and the view *)

(** The attributes of the widget model that the view reads or writes, at
    the types the kernel side declares them with (strings, lists, and a
    number for [zoom]). *)
Record Model : Type := {
  _token_info : string;
  _gallerybasemaps : list string;
  _gbasemaps_def : list value;
  id : string;
  _arcgis_url : string;
  _extent : string;
  _basemap : string;
  center : list value;
  zoom : value;
  mode : string;
  _addlayer : string;
  _js_layer_list : string;
  _js_interactive_drawn_graphic : string;
  _js_basemap : string;
  (** [None] is [undefined], what [JSON.stringify(undefined)] returns *)
  _jsextent : option string;
  start_time : string;
  end_time : string;
  _layerId_to_remove : string;
  _swipe_div : string
}.

Definition set_mode (x : string) (m : Model) : Model :=
  {| _token_info := _token_info m; _gallerybasemaps := _gallerybasemaps m;
     _gbasemaps_def := _gbasemaps_def m; id := id m; _arcgis_url := _arcgis_url m;
     _extent := _extent m; _basemap := _basemap m; center := center m;
     zoom := zoom m; mode := x; _addlayer := _addlayer m;
     _js_layer_list := _js_layer_list m;
     _js_interactive_drawn_graphic := _js_interactive_drawn_graphic m;
     _js_basemap := _js_basemap m; _jsextent := _jsextent m;
     start_time := start_time m; end_time := end_time m;
     _layerId_to_remove := _layerId_to_remove m; _swipe_div := _swipe_div m |}.

Definition set_center (x : list value) (m : Model) : Model :=
  {| _token_info := _token_info m; _gallerybasemaps := _gallerybasemaps m;
     _gbasemaps_def := _gbasemaps_def m; id := id m; _arcgis_url := _arcgis_url m;
     _extent := _extent m; _basemap := _basemap m; center := x;
     zoom := zoom m; mode := mode m; _addlayer := _addlayer m;
     _js_layer_list := _js_layer_list m;
     _js_interactive_drawn_graphic := _js_interactive_drawn_graphic m;
     _js_basemap := _js_basemap m; _jsextent := _jsextent m;
     start_time := start_time m; end_time := end_time m;
     _layerId_to_remove := _layerId_to_remove m; _swipe_div := _swipe_div m |}.

Definition set_js_layer_list (x : string) (m : Model) : Model :=
  {| _token_info := _token_info m; _gallerybasemaps := _gallerybasemaps m;
     _gbasemaps_def := _gbasemaps_def m; id := id m; _arcgis_url := _arcgis_url m;
     _extent := _extent m; _basemap := _basemap m; center := center m;
     zoom := zoom m; mode := mode m; _addlayer := _addlayer m;
     _js_layer_list := x;
     _js_interactive_drawn_graphic := _js_interactive_drawn_graphic m;
     _js_basemap := _js_basemap m; _jsextent := _jsextent m;
     start_time := start_time m; end_time := end_time m;
     _layerId_to_remove := _layerId_to_remove m; _swipe_div := _swipe_div m |}.

Definition set_js_interactive_drawn_graphic (x : string) (m : Model) : Model :=
  {| _token_info := _token_info m; _gallerybasemaps := _gallerybasemaps m;
     _gbasemaps_def := _gbasemaps_def m; id := id m; _arcgis_url := _arcgis_url m;
     _extent := _extent m; _basemap := _basemap m; center := center m;
     zoom := zoom m; mode := mode m; _addlayer := _addlayer m;
     _js_layer_list := _js_layer_list m;
     _js_interactive_drawn_graphic := x;
     _js_basemap := _js_basemap m; _jsextent := _jsextent m;
     start_time := start_time m; end_time := end_time m;
     _layerId_to_remove := _layerId_to_remove m; _swipe_div := _swipe_div m |}.

Definition set_js_basemap (x : string) (m : Model) : Model :=
  {| _token_info := _token_info m; _gallerybasemaps := _gallerybasemaps m;
     _gbasemaps_def := _gbasemaps_def m; id := id m; _arcgis_url := _arcgis_url m;
     _extent := _extent m; _basemap := _basemap m; center := center m;
     zoom := zoom m; mode := mode m; _addlayer := _addlayer m;
     _js_layer_list := _js_layer_list m;
     _js_interactive_drawn_graphic := _js_interactive_drawn_graphic m;
     _js_basemap := x; _jsextent := _jsextent m;
     start_time := start_time m; end_time := end_time m;
     _layerId_to_remove := _layerId_to_remove m; _swipe_div := _swipe_div m |}.

Definition set_jsextent (x : option string) (m : Model) : Model :=
  {| _token_info := _token_info m; _gallerybasemaps := _gallerybasemaps m;
     _gbasemaps_def := _gbasemaps_def m; id := id m; _arcgis_url := _arcgis_url m;
     _extent := _extent m; _basemap := _basemap m; center := center m;
     zoom := zoom m; mode := mode m; _addlayer := _addlayer m;
     _js_layer_list := _js_layer_list m;
     _js_interactive_drawn_graphic := _js_interactive_drawn_graphic m;
     _js_basemap := _js_basemap m; _jsextent := x;
     start_time := start_time m; end_time := end_time m;
     _layerId_to_remove := _layerId_to_remove m; _swipe_div := _swipe_div m |}.

(** *** Toolkit objects *)

(** A renderer object of the toolkit: what [toJson()] returns, its
    [declaredClass], and the own properties [JSON.stringify] sees when the
    object itself is serialized. *)
Record Renderer : Type := {
  toJson : value;
  declaredClass : value;
  renderer_props : list (string * value)
}.

(** The properties of a layer object that the view reads, as the toolkit
    has them when the reading callback runs. *)
Record Layer : Type := {
  layer_id : value;
  layer_url : value;
  normalization : value;
  refreshInterval : value;
  renderer : option Renderer;
  bandIds : value;
  mosaicRule : value;
  renderingRule : value;
  resourceInfo : value;
  layer_name : value;
  fields : list value
}.

(** The symbols the view constructs. Colours and sizes are the numerals of
    the source. *)
Inductive Symbol : Type :=
| SimpleFillSymbol_new
| SimpleLineSymbol_solid (rgba : list string) (width : string)
| SimpleFillSymbol_with (outline : Symbol) (rgba : list string)
| PictureMarkerSymbol_new (url : string) (width height : string).

Inductive Graphic : Type :=
| Graphic_new (geometry : value) (symbol : Symbol)
| Graphic_json (json : value) (symbol : option Symbol).

(** [new Extent()] with the four bounds assigned and the spatial reference
    [new SpatialReference({wkid: 4326})]. *)
Record Extent : Type := {
  xmin : value; xmax : value; ymin : value; ymax : value; wkid : Z
}.

(** [new Date(s)] for a string [s]. *)
Inductive Date : Type := Date_new (s : string).

Record TimeExtent : Type := { startTime : Date; endTime : Date }.

(** The options object of [new Map(el, options)]. *)
Inductive MapOptions : Type :=
| Options_extent (basemap : string) (extent : Extent)
| Options_center (basemap : string) (center : list value) (zoom : value).

(** How [layer.setRenderer] gets its argument. *)
Inductive RendererArg : Type :=
| HeatmapRenderer_new (options : option (list (string * value)))
| Renderer_fromJson (json : value)
| Renderer_given (r : Renderer).

Inductive LayerClass : Type :=
| KMLLayer | ArcGISTiledMapServiceLayer | ArcGISDynamicMapServiceLayer
| VectorTileLayer | FeatureLayer | ArcGISImageServiceLayer.

(** [new ImageServiceParameters()] with the properties assigned to it. *)
Record ImageServiceParameters : Type := {
  isp_renderingRule : option value;
  isp_mosaicRule : option value;
  isp_bandIds : option value
}.

(** The second argument of a layer constructor. *)
Inductive LayerOptions : Type :=
| No_options
| Out_fields_all
| Imagery_options (params : option ImageServiceParameters)
| Collection_options (assigned : option value).

(** [{fieldName, label, visible: true}] for each field, and the title. *)
Record PopupTemplate : Type := {
  template_title : value;
  fieldInfos : list (value * value)
}.

(** The argument of the smart-mapping calls: the defaults the view builds,
    and the layer options that [Object.assign] lays over them, if any. *)
Record SmartProps : Type := {
  sp_layer : nat;
  sp_field : value;
  sp_basemap : value;
  sp_assigned : option value
}.

Inductive Message : Type := Msg (event : string) (message : value).

(** Every call the view makes on something outside it, in the order made.
    Layers are numbered as the view creates them. *)
Inductive Effect : Type :=
(* widget framework *)
| Send (m : Message)
| Touch (synced : Model)
(* notebook *)
| Keyboard_disable
| Keyboard_enable
(* esri/config, esri/IdentityManager, esri/arcgis/utils *)
| Cors_push (server : value)
| RegisterServers (server tokenServiceUrl : value)
| GenerateToken (server tokenServiceUrl username password : value)
| RegisterToken (server userId token expires ssl : value)
| Set_arcgisUrl (url : string)
| CreateMap (id : string)
(* map *)
| New_Map (options : MapOptions)
| New_Draw
| DisableKeyboardNavigation
| DisableMapNavigation
| EnableMapNavigation
| SetZoom (zoom : value)
| CenterAt (center : list value)
| SetExtent (extent : Extent)
| SetTimeExtent (t : TimeExtent)
| SetBasemap (basemap : string)
| AddLayer (layer : nat)
| RemoveLayer (layer : option nat)
| RemoveAllLayers
| Graphics_add (g : Graphic)
| Graphics_clear
(* draw toolbar *)
| Toolbar_deactivate
| Toolbar_activate (shape : string)
(* layers *)
| New_Layer (layer : nat) (class : LayerClass) (source : value) (options : LayerOptions)
| SetOpacity (layer : nat) (opacity : value)
| SetDefinitionExpression (layer : nat) (expression : value)
| SetRenderer (layer : nat) (r : RendererArg)
| SetInfoTemplate (layer : nat) (t : PopupTemplate)
| Redraw (layer : nat)
| ClassedColorRenderer (props : SmartProps)
| ClassedSizeRenderer (props : SmartProps)
| New_LayerSwipe.

(** *** Callbacks *)

(** The functions the view hands to the toolkit, to promises and to
    timers, each with the variables it closes over. *)
Inductive Callback : Type :=
(* render *)
| On_token_generated (server userId : value)
| On_token_registered
| On_webmap_created
| On_load
| On_mouse_drag_start
| On_mouse_out
| OnDrawEnd
| OnExtentChange
| OnMouseClick
(* basemap_changed *)
| On_basemap_change (handle : nat)
(* layer_changed *)
| On_kml_load
| On_feature_load_sync (layer : nat)
| On_renderer_change (layer : nat) (lyr_options : value)
| On_feature_load_template (layer : nat) (curbasemap newlayer : value)
| On_imagery_load_sync (layer : nat)
| After_classed_size (layer : nat) (curbasemap lyr_options : value)
| After_classed_color (layer : nat) (curbasemap lyr_options : value)
| After_classed_size_field (layer : nat) (curbasemap lyr_options : value)
| After_classed_color_field (layer : nat) (curbasemap lyr_options : value)
| On_smart_renderer (layer : nat).

Inductive Target : Type := The_map | The_toolbar | A_layer (layer : nat).

Record Listener : Type := {
  handle : nat;
  target : Target;
  event_name : string;
  callback : Callback
}.

(** *** The view *)

Record View : Type := {
  model : Model;
  (** [this.map] and [this.toolbar] are set *)
  has_map : bool;
  has_toolbar : bool;
  (** the [esri/basemaps] object: [baseMapLayers] and [title] by name *)
  esriBasemaps : gmap string (value * string);
  (** the globals [bRend] and [bSRend] *)
  bRend : bool;
  bSRend : bool;
  (** the next number for a layer, listener, promise or timer *)
  fresh : nat;
  listeners : list Listener;
  (** pending promises, each with the chain of [then] callbacks *)
  promises : list (nat * list Callback);
  timers : list (nat * Callback);
  (** how many times [render] subscribed the ten model-change handlers *)
  model_on : nat;
  trace : list Effect
}.

(** What the view reads from its surroundings while a callback runs. *)
Record Env : Type := {
  (** [window.location.protocol] and [location.href] *)
  protocol : string;
  href : string;
  (** the own properties of [new SimpleFillSymbol()] *)
  SimpleFillSymbol_props : list (string * value);
  (** [map.getBasemap()], [map.basemapLayerIds], [map.getLayer(id)] *)
  getBasemap : value;
  basemapLayerIds : list string;
  getLayer : string -> option nat;
  (** the state of a layer object *)
  layer_state : nat -> Layer;
  (** of [new Graphic(json)]: whether [symbol == null], and
      [geometry.type] if there is a geometry *)
  graphic_symbol_null : value -> bool;
  graphic_geometry_type : value -> option value;
  (** [map.graphics] is there (it is null until the map has loaded) *)
  map_graphics : bool;
  (** the property key that [x - 1] denotes, for [o[o.length - 1]] on an
      object [o] that is no array and has [x] for its [length] *)
  index_key : value -> string
}.

(** Field updates of the view. *)
Definition with_model (x : Model) (v : View) : View :=
  {| model := x; has_map := has_map v;
     has_toolbar := has_toolbar v; esriBasemaps := esriBasemaps v; bRend := bRend v; bSRend := bSRend v;
     fresh := fresh v; listeners := listeners v; promises := promises v;
     timers := timers v; model_on := model_on v; trace := trace v |}.

Definition with_has_map (x : bool) (v : View) : View :=
  {| model := model v; has_map := x;
     has_toolbar := has_toolbar v; esriBasemaps := esriBasemaps v; bRend := bRend v; bSRend := bSRend v;
     fresh := fresh v; listeners := listeners v; promises := promises v;
     timers := timers v; model_on := model_on v; trace := trace v |}.

Definition with_has_toolbar (x : bool) (v : View) : View :=
  {| model := model v; has_map := has_map v;
     has_toolbar := x; esriBasemaps := esriBasemaps v; bRend := bRend v; bSRend := bSRend v;
     fresh := fresh v; listeners := listeners v; promises := promises v;
     timers := timers v; model_on := model_on v; trace := trace v |}.

Definition with_esriBasemaps (x : gmap string (value * string)) (v : View) : View :=
  {| model := model v; has_map := has_map v;
     has_toolbar := has_toolbar v; esriBasemaps := x; bRend := bRend v; bSRend := bSRend v;
     fresh := fresh v; listeners := listeners v; promises := promises v;
     timers := timers v; model_on := model_on v; trace := trace v |}.

Definition with_bRend (x : bool) (v : View) : View :=
  {| model := model v; has_map := has_map v;
     has_toolbar := has_toolbar v; esriBasemaps := esriBasemaps v; bRend := x; bSRend := bSRend v;
     fresh := fresh v; listeners := listeners v; promises := promises v;
     timers := timers v; model_on := model_on v; trace := trace v |}.

Definition with_bSRend (x : bool) (v : View) : View :=
  {| model := model v; has_map := has_map v;
     has_toolbar := has_toolbar v; esriBasemaps := esriBasemaps v; bRend := bRend v; bSRend := x;
     fresh := fresh v; listeners := listeners v; promises := promises v;
     timers := timers v; model_on := model_on v; trace := trace v |}.

Definition with_fresh (x : nat) (v : View) : View :=
  {| model := model v; has_map := has_map v;
     has_toolbar := has_toolbar v; esriBasemaps := esriBasemaps v; bRend := bRend v; bSRend := bSRend v;
     fresh := x; listeners := listeners v; promises := promises v;
     timers := timers v; model_on := model_on v; trace := trace v |}.

Definition with_listeners (x : list Listener) (v : View) : View :=
  {| model := model v; has_map := has_map v;
     has_toolbar := has_toolbar v; esriBasemaps := esriBasemaps v; bRend := bRend v; bSRend := bSRend v;
     fresh := fresh v; listeners := x; promises := promises v;
     timers := timers v; model_on := model_on v; trace := trace v |}.

Definition with_promises (x : list (nat * list Callback)) (v : View) : View :=
  {| model := model v; has_map := has_map v;
     has_toolbar := has_toolbar v; esriBasemaps := esriBasemaps v; bRend := bRend v; bSRend := bSRend v;
     fresh := fresh v; listeners := listeners v; promises := x;
     timers := timers v; model_on := model_on v; trace := trace v |}.

Definition with_timers (x : list (nat * Callback)) (v : View) : View :=
  {| model := model v; has_map := has_map v;
     has_toolbar := has_toolbar v; esriBasemaps := esriBasemaps v; bRend := bRend v; bSRend := bSRend v;
     fresh := fresh v; listeners := listeners v; promises := promises v;
     timers := x; model_on := model_on v; trace := trace v |}.

Definition with_model_on (x : nat) (v : View) : View :=
  {| model := model v; has_map := has_map v;
     has_toolbar := has_toolbar v; esriBasemaps := esriBasemaps v; bRend := bRend v; bSRend := bSRend v;
     fresh := fresh v; listeners := listeners v; promises := promises v;
     timers := timers v; model_on := x; trace := trace v |}.

Definition with_trace (x : list Effect) (v : View) : View :=
  {| model := model v; has_map := has_map v;
     has_toolbar := has_toolbar v; esriBasemaps := esriBasemaps v; bRend := bRend v; bSRend := bSRend v;
     fresh := fresh v; listeners := listeners v; promises := promises v;
     timers := timers v; model_on := model_on v; trace := x |}.

(** *** Running a callback: view state, readings, exceptions *)

Definition M (A : Type) : Type := Env -> View -> res A * View.

Definition ret {A} (a : A) : M A := fun _ v => (inr a, v).

Definition bind {A B} (m : M A) (k : A -> M B) : M B :=
  fun e v =>
    match m e v with
    | (inr a, v') => k a e v'
    | (inl x, v') => (inl x, v')
    end.

Definition throw {A} (x : exn) : M A := fun _ v => (inl x, v).

#[export] Instance M_ret : MRet M := @ret.
#[export] Instance M_bind : MBind M := fun A B k m => bind m k.

(** An expression that may throw. *)
Definition eval {A} (r : res A) : M A := fun _ v => (r, v).

(** [try { body } catch (err) { handler }] *)
Definition try_catch {A} (body handler : M A) : M A :=
  fun e v =>
    match body e v with
    | (inr a, v') => (inr a, v')
    | (inl _, v') => handler e v'
    end.

Definition when (b : bool) (m : M unit) : M unit := if b then m else ret tt.

Definition ask : M Env := fun e v => (inr e, v).
Definition get : M View := fun _ v => (inr v, v).
Definition modify (f : View -> View) : M unit := fun _ v => (inr tt, f v).
Definition attr {A} (f : Model -> A) : M A := fun _ v => (inr (f (model v)), v).

(** A call on an outside object. *)
Definition call (x : Effect) : M unit :=
  modify (fun v => with_trace (trace v ++ [x]) v).

(** [this.model.set(...)] of an attribute that has no change handler. *)
Definition model_set (f : Model -> Model) : M unit :=
  modify (fun v => with_model (f (model v)) v).

(** [this.touch()] *)
Definition touch : M unit := v ← get; call (Touch (model v)).

(** [this.send(content)] *)
Definition send (event : string) (message : value) : M unit :=
  call (Send (Msg event message)).

(** [this.map.], [this.toolbar.], [this.map.graphics.]: a [TypeError] while
    the object is not there. *)
Definition the_map : M unit :=
  v ← get; if has_map v then ret tt else throw TypeError.

Definition the_toolbar : M unit :=
  v ← get; if has_toolbar v then ret tt else throw TypeError.

Definition new_number : M nat :=
  v ← get; modify (with_fresh (S (fresh v)));; ret (fresh v).

(** [target.on(name, callback)]; the result is the handle. *)
Definition on (t : Target) (name : string) (c : nat -> Callback) : M nat :=
  h ← new_number;
  modify (fun v => with_listeners
    (listeners v ++ [{| handle := h; target := t; event_name := name; callback := c h |}]) v);;
  ret h.

(** [handle.remove()] *)
Definition remove_listener (h : nat) : M unit :=
  modify (fun v => with_listeners
    (filter (fun l => handle l ≠ h) (listeners v)) v).

(** [promise.then(c1).then(c2)...] on a promise of the toolkit. *)
Definition then_ (chain : list Callback) : M unit :=
  p ← new_number;
  modify (fun v => with_promises (promises v ++ [(p, chain)]) v).

(** [setTimeout(c, 500)] *)
Definition setTimeout (c : Callback) : M unit :=
  k ← new_number;
  modify (fun v => with_timers (timers v ++ [(k, c)]) v).

Fixpoint for_each {A} (l : list A) (body : A -> M unit) : M unit :=
  match l with
  | [] => ret tt
  | x :: r => body x;; for_each r body
  end.

Fixpoint repeat_M (n : nat) (m : M unit) : M unit :=
  match n with
  | O => ret tt
  | S n' => m;; repeat_M n' m
  end.

Definition the_graphics : M unit :=
  the_map;; e ← ask; if map_graphics e then ret tt else throw TypeError.

(** ** Module bootstrap *)

(** [nbextensionPath], from the last occurrence of [/notebooks] in the
    address of the page. *)
Definition nbextensionPath (href : string) : string :=
  let strnb := lastIndexOf href "/notebooks" in
  if (strnb <? 0)%Z then "/nbextensions/arcgis"
  else String.substring 0 (Z.to_nat strnb) href ++ "/nbextensions/arcgis".

(** ** The methods of [MapView] *)

(** Outgoing events to the model *)

Definition mouse_clicked (geometry : value) : M unit :=
  send "mouseclick" geometry.

Definition _handle_click : M unit :=
  send "click" (VStr "xyz").

Definition extent_change (extent zoomed : value) : M unit :=
  model_set (set_jsextent (stringify extent));;
  touch.

(** Incoming events from the model *)

Definition zoom_changed : M unit :=
  the_map;;
  z ← attr zoom;
  call (SetZoom z).

Definition polyline_symbol : Symbol :=
  SimpleLineSymbol_solid ["255"; "0"; "0"; "0.5"] "3".

Definition polygon_symbol : Symbol :=
  SimpleFillSymbol_with
    (SimpleLineSymbol_solid ["0"; "0"; "0"; "0.5"] "1")
    ["255"; "127"; "0"; "0.7"].

Definition point_symbol (href : string) : Symbol :=
  PictureMarkerSymbol_new (nbextensionPath href ++ "/icons/pink.png") "32" "32".

(** The symbol given to a graphic that came without one, by the type of
    its geometry. *)
Definition symbol_for (href : string) (type : value) : option Symbol :=
  if strict_eq_str type "polyline" then Some polyline_symbol
  else if strict_eq_str type "polygon" then Some polygon_symbol
  else if strict_eq_str type "point" then Some (point_symbol href)
  else if strict_eq_str type "multipoint" then Some (point_symbol href)
  else None.

Definition mode_changed : M unit :=
  m ← attr mode;
  if String.eqb m "navigate" then
    the_toolbar;;
    call Toolbar_deactivate
  else if String.eqb m "###clear_graphics" then
    the_graphics;;
    call Graphics_clear;;
    model_set (set_js_interactive_drawn_graphic "")
  else if String.eqb m "###remove_layers" then
    the_map;;
    call RemoveAllLayers
  else if has_brace m then
    drawgraphic ← eval (JSON_parse (VStr m));
    e ← ask;
    symbol ←
      (if graphic_symbol_null e drawgraphic then
         match graphic_geometry_type e drawgraphic with
         | Some type => ret (symbol_for (href e) type)
         | None => throw TypeError
         end
       else ret None);
    the_graphics;;
    call (Graphics_add (Graphic_json drawgraphic symbol))
  else
    the_toolbar;;
    call (Toolbar_activate m).

(** [draw_end]. Setting [mode] fires [change:mode] when the value changes,
    and [render] has subscribed [mode_changed] to it. *)
Definition draw_end (geometry : value) : M unit :=
  old ← attr mode;
  model_set (set_mode "navigate");;
  v ← get;
  when (negb (String.eqb old "navigate")) (repeat_M (model_on v) mode_changed);;
  touch;;
  send "draw-end" geometry.

Definition center_changed : M unit :=
  the_map;;
  c ← attr center;
  model_set (set_center (rev c));;
  call (CenterAt (rev c)).

(** The extent that [load_map] and [extent_changed] build from the text of
    [_extent]. *)
Definition extent_of (text : string) : M Extent :=
  ext ← eval (JSON_parse (VStr text));
  x0 ← eval (get_prop ext "xmin");
  x1 ← eval (get_prop ext "xmax");
  y0 ← eval (get_prop ext "ymin");
  y1 ← eval (get_prop ext "ymax");
  ret {| xmin := x0; xmax := x1; ymin := y0; ymax := y1; wkid := 4326 |}.

Definition extent_changed : M unit :=
  text ← attr _extent;
  newExtent ← extent_of text;
  the_map;;
  call (SetExtent newExtent).

Definition set_time_extent : M unit :=
  s ← attr start_time;
  t ← attr end_time;
  the_map;;
  call (SetTimeExtent {| startTime := Date_new s; endTime := Date_new t |}).

Definition start_time_changed : M unit :=
  start_time ← attr start_time;
  when (nonblank start_time) set_time_extent.

Definition end_time_changed : M unit :=
  end_time ← attr end_time;
  when (nonblank end_time) set_time_extent.

Definition remove_layer : M unit :=
  layerIdToRemove ← attr _layerId_to_remove;
  the_map;;
  e ← ask;
  call (RemoveLayer (getLayer e layerIdToRemove)).

(** [esriBasemaps[bms[i]] = {baseMapLayers: bmdefs[i], title: bms[i]}] for
    every [i]. *)
Fixpoint gallery_entries (bms : list string) (bmdefs : list value)
    (b : gmap string (value * string)) : gmap string (value * string) :=
  match bms with
  | [] => b
  | name :: r =>
      gallery_entries r (tail bmdefs)
        (<[name := (default VUndefined (head bmdefs), name)]> b)
  end.

(** The loop over [_gallerybasemaps] that [load_map] and
    [gallerybasemaps_changed] both have. *)
Definition push_gallery_basemaps : M unit :=
  bms ← attr _gallerybasemaps;
  bmdefs ← attr _gbasemaps_def;
  modify (fun v => with_esriBasemaps (gallery_entries bms bmdefs (esriBasemaps v)) v).

Definition gallerybasemaps_changed : M unit := push_gallery_basemaps.

(** The title of one basemap layer: from its metadata, or the name of the
    basemap if reading the metadata throws. *)
Definition basemap_title (layer : option nat) : M value :=
  try_catch
    (e ← ask;
     match layer with
     | Some h =>
         resource_info ← eval (JSON_parse (resourceInfo (layer_state e h)));
         documentInfo ← eval (get_prop resource_info "documentInfo");
         eval (get_prop documentInfo "Title")
     | None => throw TypeError
     end)
    (b ← attr _basemap; ret (VStr b)).

Definition basemap_record (layer_id : string) : M value :=
  e ← ask;
  let current_basemap_layer := getLayer e layer_id in
  _title ← basemap_title current_basemap_layer;
  match current_basemap_layer with
  | Some h => ret (VObj [("url", layer_url (layer_state e h)); ("title", _title)])
  | None => throw TypeError
  end.

Fixpoint basemap_records (ids : list string) : M (list value) :=
  match ids with
  | [] => ret []
  | i :: r =>
      d ← basemap_record i;
      l ← basemap_records r;
      ret (d :: l)
  end.

Definition on_basemap_change (basemapChangeHandle : nat) : M unit :=
  remove_listener basemapChangeHandle;;
  e ← ask;
  returnList ← basemap_records (basemapLayerIds e);
  model_set (set_js_basemap (stringify_array returnList));;
  touch.

Definition basemap_changed : M unit :=
  the_map;;
  b ← attr _basemap;
  call (SetBasemap b);;
  _ ← on The_map "basemap-change" On_basemap_change;
  ret tt.

(** The list kept in [_js_layer_list] and [_js_interactive_drawn_graphic]:
    the empty string reads as the empty list, any other text is parsed,
    and [push] needs the result to be an array. *)
Definition decode_list (text : string) : res (list value) :=
  if String.eqb text "" then inr []
  else
    parsed ← JSON_parse (VStr text);
    match parsed with
    | VArr l => inr l
    | _ => inl TypeError
    end.

Definition read_list (text : string) : M (list value) := eval (decode_list text).

(** [createTemplate(layer)] *)
Definition field_info (field : value) : M (value * value) :=
  name ← eval (get_prop field "name");
  alias ← eval (get_prop field "alias");
  ret (name, alias).

Fixpoint field_infos (fs : list value) : M (list (value * value)) :=
  match fs with
  | [] => ret []
  | f :: r =>
      i ← field_info f;
      l ← field_infos r;
      ret (i :: l)
  end.

Definition createTemplate (layer : nat) : M PopupTemplate :=
  e ← ask;
  infos ← field_infos (fields (layer_state e layer));
  ret {| template_title := layer_name (layer_state e layer); fieldInfos := infos |}.

(** The layer descriptor of a feature layer; [with_json] tells whether the
    renderer goes in as [renderer.toJson()] or as the object itself. *)
Definition feature_layer_dict (with_json : bool) (layer : Layer) : list (string * value) :=
  [("id", layer_id layer);
   ("normalization", normalization layer);
   ("refreshInterval", refreshInterval layer);
   ("url", layer_url layer)]
  ++ match renderer layer with
     | Some r =>
         [("renderer", if with_json then toJson r else VObj (renderer_props r));
          ("rendererType", declaredClass r)]
     | None => []
     end.

Definition imagery_layer_dict (layer : Layer) : list (string * value) :=
  [("id", layer_id layer);
   ("bandIds", bandIds layer);
   ("mosaicRule", mosaicRule layer);
   ("url", layer_url layer);
   ("renderingRule", renderingRule layer)]
  ++ match renderer layer with
     | Some r =>
         [("renderer", VObj (renderer_props r));
          ("rendererType", declaredClass r)]
     | None => []
     end.

(** Add a descriptor to the list in [_js_layer_list] and sync. *)
Definition sync_layer (_layerDict : list (string * value)) : M unit :=
  _current_list ← attr _js_layer_list;
  _current_list2 ← read_list _current_list;
  model_set (set_js_layer_list (stringify_array (_current_list2 ++ [VObj _layerDict])));;
  touch.

(** The [load] callback of a feature layer that syncs the layer list. *)
Definition on_feature_load_sync (layer : nat) : M unit :=
  e ← ask;
  sync_layer (feature_layer_dict true (layer_state e layer)).

Definition on_imagery_load_sync (layer : nat) : M unit :=
  e ← ask;
  sync_layer (imagery_layer_dict (layer_state e layer)).

(** [x['renderer'] = j; x['rendererType'] = c] on an element [x] of the
    parsed list: a property of an object, nothing that shows on another
    value, a [TypeError] on [null] and [undefined]. *)
Definition put_renderer (j c : value) (x : value) : res value :=
  match x with
  | VUndefined | VNull => inl TypeError
  | VObj fs => inr (VObj (obj_set "rendererType" c (obj_set "renderer" j fs)))
  | _ => inr x
  end.

(** The text that follows from giving the renderer to the element at
    [length - 1] of the parsed [_js_layer_list]. *)
Definition update_last_renderer (e : Env) (j c : value) (parsed : value) : res string :=
  match parsed with
  | VArr l =>
      match last l with
      | Some x =>
          x' ← put_renderer j c x;
          inr (stringify_array (removelast l ++ [x']))
      | None => inl TypeError
      end
  | VStr s =>
      if String.eqb s "" then inl TypeError else inr (quote s)
  | VObj fs =>
      let k := index_key e (default VUndefined (assoc "length" fs)) in
      match assoc k fs with
      | Some x =>
          x' ← put_renderer j c x;
          inr (stringify_object (obj_set k x' fs))
      | None => inl TypeError
      end
  | _ => inl TypeError
  end.

Definition is_classed (r : value) : bool :=
  loose_eq_name r "ClassedColorRenderer" || loose_eq_name r "ClassedSizeRenderer".

(** The [renderer-change] callback of a feature layer. *)
Definition on_renderer_change (layer : nat) (lyr_options : value) : M unit :=
  match lyr_options with
  | VUndefined => ret tt
  | _ =>
      has ← eval (has_prop "renderer" lyr_options);
      when has
        (r ← eval (get_prop lyr_options "renderer");
         when (is_classed r)
           (_current_list ← attr _js_layer_list;
            when (negb (String.eqb _current_list ""))
              (_current_list2 ← eval (JSON_parse (VStr _current_list));
               e ← ask;
               match renderer (layer_state e layer) with
               | Some rr =>
                   text ← eval (update_last_renderer e (toJson rr) (declaredClass rr) _current_list2);
                   model_set (set_js_layer_list text);;
                   touch
               | None => throw TypeError
               end)))
  end.

Definition smart_props (layer : nat) (field curbasemap : value) (assigned : option value)
  : SmartProps :=
  {| sp_layer := layer; sp_field := field; sp_basemap := curbasemap;
     sp_assigned := assigned |}.

(** [createClassedColorRenderer] and [createClassedSizeRenderer] of the
    feature-layer branch, which lay the layer options over the defaults. *)
Definition after_classed (size : bool) (layer : nat) (curbasemap lyr_options : value)
  : M unit :=
  field ← eval (get_prop lyr_options "field_name");
  let props := smart_props layer field curbasemap (Some lyr_options) in
  call (if size then ClassedSizeRenderer props else ClassedColorRenderer props);;
  then_ [On_smart_renderer layer].

(** The same two of the feature-collection branch, called with
    [lyr_options.field_name], and [createRenderer] and [createSizeRenderer],
    called with [newlayer.field_name]. *)
Definition after_classed_field (size : bool) (layer : nat) (curbasemap options : value)
  : M unit :=
  field ← eval (get_prop options "field_name");
  let props := smart_props layer field curbasemap None in
  call (if size then ClassedSizeRenderer props else ClassedColorRenderer props);;
  then_ [On_smart_renderer layer].

Definition on_smart_renderer (layer : nat) (response : option Renderer) : M unit :=
  match response with
  | Some r => call (SetRenderer layer (Renderer_given r));; call (Redraw layer)
  | None => throw TypeError
  end.

(** The second [load] callback of a feature layer. *)
Definition on_feature_load_template (layer : nat) (curbasemap newlayer : value) : M unit :=
  t ← createTemplate layer;
  call (SetInfoTemplate layer t);;
  v ← get;
  when (bRend v) (after_classed_field false layer curbasemap newlayer);;
  v' ← get;
  when (bSRend v') (after_classed_field true layer curbasemap newlayer).

(** [domStyle] is not among the modules the view is defined with. *)
Definition on_kml_load : M unit := throw ReferenceError.

(** [new HeatmapRenderer(hmoptions)] *)
Definition heatmap_with_field (lyr_options : value) : M RendererArg :=
  field ← eval (get_prop lyr_options "field_name");
  ret (HeatmapRenderer_new (Some (if nullish field then [] else [("field", field)]))).

(** The options block of the feature-layer branch; the result is
    [lyr_options]. *)
Definition feature_layer_options (layer : nat) (curbasemap options : value) : M value :=
  lyr_options ← eval (JSON_parse options);
  opacity ← eval (get_prop lyr_options "opacity");
  when (negb (nullish opacity)) (call (SetOpacity layer opacity));;
  expr ← eval (get_prop lyr_options "definition_expression");
  when (negb (nullish expr)) (call (SetDefinitionExpression layer expr));;
  r ← eval (get_prop lyr_options "renderer");
  when (loose_eq_name r "HeatmapRenderer")
    (call (SetRenderer layer (HeatmapRenderer_new None)));;
  (if loose_eq_name r "HeatmapRenderer" then
     heatmapRenderer ← heatmap_with_field lyr_options;
     call (SetRenderer layer heatmapRenderer)
   else if loose_eq_name r "ClassedSizeRenderer" then
     setTimeout (After_classed_size layer curbasemap lyr_options)
   else if loose_eq_name r "ClassedColorRenderer" then
     setTimeout (After_classed_color layer curbasemap lyr_options)
   else
     call (SetRenderer layer (Renderer_fromJson r)));;
  ret lyr_options.

Definition add_feature_layer (curbasemap newlayer : value) : M unit :=
  url ← eval (get_prop newlayer "url");
  layer ← new_number;
  call (New_Layer layer FeatureLayer url Out_fields_all);;
  options ← eval (get_prop newlayer "options");
  lyr_options ←
    (if nullish options then ret VUndefined
     else feature_layer_options layer curbasemap options);
  opacity ← eval (get_prop newlayer "opacity");
  when (negb (nullish opacity)) (call (SetOpacity layer opacity));;
  expr ← eval (get_prop newlayer "definition_expression");
  when (negb (nullish expr)) (call (SetDefinitionExpression layer expr));;
  r ← eval (get_prop newlayer "renderer");
  when (loose_eq_name r "HeatmapRenderer")
    (call (SetRenderer layer (HeatmapRenderer_new None)));;
  modify (fun v => with_bRend false (with_bSRend false v));;
  call (AddLayer layer);;
  when (loose_eq_name r "ClassedColorRenderer") (modify (with_bRend true));;
  when (loose_eq_name r "ClassedSizeRenderer") (modify (with_bSRend true));;
  _ ← on (A_layer layer) "load" (fun _ => On_feature_load_sync layer);
  _ ← on (A_layer layer) "renderer-change" (fun _ => On_renderer_change layer lyr_options);
  _ ← on (A_layer layer) "load" (fun _ => On_feature_load_template layer curbasemap newlayer);
  ret tt.

(** The value of an option if it is truthy. *)
Definition if_truthy (x : value) : option value :=
  if truthy x then Some x else None.

Definition image_service_parameters (x : value) : M ImageServiceParameters :=
  rule ← eval (get_prop x "renderingRule");
  mosaic ← eval (get_prop x "mosaicRule");
  bands ← eval (get_prop x "bandIds");
  ret {| isp_renderingRule := if_truthy rule;
         isp_mosaicRule := if_truthy mosaic;
         isp_bandIds := if_truthy bands |}.

(** The options block of the imagery branch: [opacity], [swipelayer] and
    the parameters. *)
Definition minus_one : numeral := Numeral "-1" eq_refl.

Definition imagery_options (options : value)
  : M (value * value * option ImageServiceParameters) :=
  imgsvc_options ← eval (JSON_parse options);
  o ← eval (get_prop imgsvc_options "opacity");
  s ← eval (get_prop imgsvc_options "swipelayer");
  p ← eval (get_prop imgsvc_options "imageServiceParameters");
  params ←
    (if truthy p then q ← image_service_parameters p; ret (Some q)
     else ret None);
  ret (if truthy o then o else VNum minus_one,
       if truthy s then s else VBool false,
       params).

Definition add_imagery_layer (newlayer : value) : M unit :=
  options ← eval (get_prop newlayer "options");
  '(opacity, swipelayer, params) ←
    (if nullish options then ret (VNum minus_one, VBool false, None)
     else imagery_options options);
  url ← eval (get_prop newlayer "url");
  layer ← new_number;
  call (New_Layer layer ArcGISImageServiceLayer url (Imagery_options params));;
  when (negb (loose_eq_minus_one opacity)) (call (SetOpacity layer opacity));;
  call (AddLayer layer);;
  (* [map: map] names a variable that the view does not declare *)
  when (truthy swipelayer) (throw ReferenceError);;
  _ ← on (A_layer layer) "load" (fun _ => On_imagery_load_sync layer);
  ret tt.

(** The options block of the feature-collection branch. *)
Definition collection_layer_options (layer : nat) (curbasemap options : value) : M unit :=
  lyr_options ← eval (JSON_parse options);
  r ← eval (get_prop lyr_options "renderer");
  when (loose_eq_name r "HeatmapRenderer")
    (heatmapRenderer ← heatmap_with_field lyr_options;
     call (SetRenderer layer heatmapRenderer));;
  when (loose_eq_name r "ClassedSizeRenderer")
    (setTimeout (After_classed_size_field layer curbasemap lyr_options));;
  when (loose_eq_name r "ClassedColorRenderer")
    (setTimeout (After_classed_color_field layer curbasemap lyr_options)).

Definition add_feature_collection (curbasemap newlayer0 : value) : M unit :=
  options0 ← eval (get_prop newlayer0 "options");
  newlyr_options ←
    (if nullish options0 then ret None
     else o ← eval (JSON_parse options0); ret (Some o));
  has_layers ← eval (has_prop "layers" newlayer0);
  newlayer ←
    (if has_layers : bool then
       ls ← eval (get_prop newlayer0 "layers");
       eval (get_first ls)
     else ret newlayer0);
  layer ← new_number;
  call (New_Layer layer FeatureLayer newlayer (Collection_options newlyr_options));;
  t ← createTemplate layer;
  call (SetInfoTemplate layer t);;
  options ← eval (get_prop newlayer "options");
  when (negb (nullish options)) (collection_layer_options layer curbasemap options);;
  call (AddLayer layer);;
  e ← ask;
  sync_layer (feature_layer_dict false (layer_state e layer)).

(** A layer of a class that takes the address alone. *)
Definition add_plain_layer (class : LayerClass) (newlayer : value) : M nat :=
  url ← eval (get_prop newlayer "url");
  layer ← new_number;
  call (New_Layer layer class url No_options);;
  call (AddLayer layer);;
  ret layer.

(** [newlayer.url] turned to https when the page is served over https. *)
Definition upgrade_url (newlayer : value) : M value :=
  e ← ask;
  if String.eqb (protocol e) "https:" then
    url ← eval (get_prop newlayer "url");
    match url, newlayer with
    | VStr u, VObj fs =>
        if starts_with "http:" u
        then ret (VObj (obj_set "url" (VStr (replace "http://" "https://" u)) fs))
        else ret newlayer
    | _, _ => throw TypeError
    end
  else ret newlayer.

Definition in_gallery (bmgallery : list string) (curbasemap : value) : bool :=
  match curbasemap with
  | VStr s => bool_decide (s ∈ bmgallery)
  | _ => false
  end.

Definition layer_changed : M unit :=
  the_map;;
  e ← ask;
  bmgallery ← attr _gallerybasemaps;
  let curbasemap :=
    if in_gallery bmgallery (getBasemap e) then VStr "topo" else getBasemap e in
  text ← attr _addlayer;
  when (has_brace text)
    (parsed ← eval (JSON_parse (VStr text));
     newlayer ← upgrade_url parsed;
     type ← eval (get_prop newlayer "type");
     if loose_eq_name type "KMLLayer" then
       kml ← add_plain_layer KMLLayer newlayer;
       _ ← on (A_layer kml) "load" (fun _ => On_kml_load);
       ret tt
     else if loose_eq_name type "ArcGISTiledMapServiceLayer" then
       _ ← add_plain_layer ArcGISTiledMapServiceLayer newlayer; ret tt
     else if loose_eq_name type "ArcGISDynamicMapServiceLayer" then
       _ ← add_plain_layer ArcGISDynamicMapServiceLayer newlayer; ret tt
     else if loose_eq_name type "VectorTileLayer" then
       _ ← add_plain_layer VectorTileLayer newlayer; ret tt
     else if loose_eq_name type "FeatureLayer" || loose_eq_name type "Feature Layer" then
       add_feature_layer curbasemap newlayer
     else if loose_eq_name type "ImageryLayer" then
       add_imagery_layer newlayer
     else
       add_feature_collection curbasemap newlayer).

(** ** [render] and the functions it defines *)

(** What the toolkit passes to a callback. *)
Inductive Arg : Type :=
| Arg_value (v : value)
| Arg_renderer (r : Renderer)
| Arg_map.

(** The event object or response as a value. *)
Definition arg_value (a : Arg) : value :=
  match a with
  | Arg_value v => v
  | Arg_renderer r => VObj [("renderer", VObj (renderer_props r))]
  | Arg_map => VObj []
  end.

(** [response.renderer] of a smart-mapping response. *)
Definition arg_renderer (a : Arg) : option Renderer :=
  match a with
  | Arg_renderer r => Some r
  | _ => None
  end.

(** The calls that end [on_load] and the web-map callback. *)
Definition refresh_all : M unit :=
  mode_changed;;
  basemap_changed;;
  layer_changed;;
  start_time_changed;;
  end_time_changed.

Definition onExtentChange (evt : value) : M unit :=
  extent ← eval (get_prop evt "extent");
  zoomed ← eval (get_prop evt "levelChange");
  extent_change extent zoomed.

Definition onDrawEnd (evtObj : value) : M unit :=
  geometry ← eval (get_prop evtObj "geometry");
  the_graphics;;
  call (Graphics_add (Graphic_new geometry SimpleFillSymbol_new));;
  the_toolbar;;
  call Toolbar_deactivate;;
  draw_end geometry;;
  e ← ask;
  let syncGraphic :=
    VObj [("geometry", geometry); ("symbol", VObj (SimpleFillSymbol_props e))] in
  _current_js_dg_list ← attr _js_interactive_drawn_graphic;
  _current_js_dg_list2 ← read_list _current_js_dg_list;
  model_set (set_js_interactive_drawn_graphic
               (stringify_array (_current_js_dg_list2 ++ [syncGraphic])));;
  touch.

Definition onMouseClick (event : value) : M unit :=
  the_map;;
  call EnableMapNavigation;;
  mapPoint ← eval (get_prop event "mapPoint");
  mouse_clicked mapPoint.

Definition on_load : M unit :=
  call Keyboard_enable;;
  call DisableKeyboardNavigation;;
  call DisableMapNavigation;;
  _ ← on The_map "mouse-drag-start" (fun _ => On_mouse_drag_start);
  _ ← on The_map "mouse-out" (fun _ => On_mouse_out);
  call New_Draw;;
  modify (with_has_toolbar true);;
  _ ← on The_toolbar "draw-end" (fun _ => OnDrawEnd);
  _ ← on The_map "extent-change" (fun _ => OnExtentChange);
  _ ← on The_map "click" (fun _ => OnMouseClick);
  refresh_all.

Definition on_webmap_created : M unit :=
  call Keyboard_enable;;
  modify (with_has_map true);;
  call DisableKeyboardNavigation;;
  call New_Draw;;
  modify (with_has_toolbar true);;
  _ ← on The_toolbar "draw-end" (fun _ => OnDrawEnd);
  _ ← on The_map "click" (fun _ => OnMouseClick);
  refresh_all.

Definition load_map : M unit :=
  call Keyboard_disable;;
  push_gallery_basemaps;;
  id ← attr id;
  if nonblank id then
    arcgis_url ← attr _arcgis_url;
    when (nonblank arcgis_url) (call (Set_arcgisUrl arcgis_url));;
    call (CreateMap id);;
    then_ [On_webmap_created]
  else
    text ← attr _extent;
    b ← attr _basemap;
    (if has_brace text then
       newExtent ← extent_of text;
       call (New_Map (Options_extent b newExtent))
     else
       c ← attr center;
       model_set (set_center (rev c));;
       z ← attr zoom;
       call (New_Map (Options_center b (rev c) z)));;
    modify (with_has_map true);;
    _ ← on The_map "load" (fun _ => On_load);
    ret tt.

Definition on_token_generated (server userId response : value) : M unit :=
  token ← eval (get_prop response "token");
  expires ← eval (get_prop response "expires");
  ssl ← eval (get_prop response "ssl");
  call (RegisterToken server userId token expires ssl).

(** The ten [this.model.on('change:...')] lines. *)
Definition subscribe_model : M unit :=
  modify (fun v => with_model_on (S (model_on v)) v).

Definition render : M unit :=
  token_info ← attr _token_info;
  (if nonblank token_info then
     token ← eval (JSON_parse (VStr token_info));
     server ← eval (get_prop token "server");
     call (Cors_push server);;
     tokenurl ← eval (get_prop token "tokenurl");
     call (RegisterServers server tokenurl);;
     userId ← eval (get_prop token "username");
     password ← eval (get_prop token "password");
     call (GenerateToken server tokenurl userId password);;
     then_ [On_token_generated server userId; On_token_registered]
   else
     load_map);;
  subscribe_model.

(** ** Dispatch *)

(** One callback, run with what the toolkit passes it. *)
Definition run_callback (c : Callback) (a : Arg) : M unit :=
  match c with
  | On_token_generated server userId => on_token_generated server userId (arg_value a)
  | On_token_registered => load_map
  | On_webmap_created => on_webmap_created
  | On_load => on_load
  | On_mouse_drag_start => call EnableMapNavigation
  | On_mouse_out => call DisableMapNavigation
  | OnDrawEnd => onDrawEnd (arg_value a)
  | OnExtentChange => onExtentChange (arg_value a)
  | OnMouseClick => onMouseClick (arg_value a)
  | On_basemap_change h => on_basemap_change h
  | On_kml_load => on_kml_load
  | On_feature_load_sync l => on_feature_load_sync l
  | On_renderer_change l o => on_renderer_change l o
  | On_feature_load_template l b n => on_feature_load_template l b n
  | On_imagery_load_sync l => on_imagery_load_sync l
  | After_classed_size l b o => after_classed true l b o
  | After_classed_color l b o => after_classed false l b o
  | After_classed_size_field l b o => after_classed_field true l b o
  | After_classed_color_field l b o => after_classed_field false l b o
  | On_smart_renderer l => on_smart_renderer l (arg_renderer a)
  end.

(** The methods that [render] subscribes to the changes of the model. *)
Inductive Change : Type :=
| Change_zoom | Change_mode | Change_extent | Change_center | Change_basemap
| Change_gallerybasemaps | Change_addlayer | Change_start_time
| Change_end_time | Change_layerId_to_remove.

Definition change_handler (c : Change) : M unit :=
  match c with
  | Change_zoom => zoom_changed
  | Change_mode => mode_changed
  | Change_extent => extent_changed
  | Change_center => center_changed
  | Change_basemap => basemap_changed
  | Change_gallerybasemaps => gallerybasemaps_changed
  | Change_addlayer => layer_changed
  | Change_start_time => start_time_changed
  | Change_end_time => end_time_changed
  | Change_layerId_to_remove => remove_layer
  end.

Instance Target_eq_dec : EqDecision Target.
Proof. solve_decision. Defined.

(** The callbacks listening for [name] on [t], in the order they were
    registered. *)
Definition listening (t : Target) (name : string) (v : View) : list Callback :=
  map callback
    (filter (fun l => target l = t ∧ event_name l = name) (listeners v)).

(** A promise settles. *)
Inductive Settled : Type :=
| Fulfilled (response : Arg)
| Rejected.

(** The callbacks of a [then] chain on a fulfilled promise: each gets what
    the one before returned, and none of the view's callbacks returns a
    value. *)
Fixpoint run_chain (chain : list Callback) (a : Arg) : M unit :=
  match chain with
  | [] => ret tt
  | c :: r => run_callback c a;; run_chain r (Arg_value VUndefined)
  end.

Definition lookup_pending {A} (k : nat) (l : list (nat * A)) : option A :=
  snd <$> find (fun p => bool_decide (fst p = k)) l.

Definition remove_pending {A} (k : nat) (l : list (nat * A)) : list (nat * A) :=
  filter (fun p => fst p ≠ k) l.

(** What happens to the view from outside. *)
Inductive Input : Type :=
(** the widget framework renders the view *)
| In_render
(** a state update of the kernel arrives in the model *)
| In_kernel (new_state : Model)
(** the change event of an attribute fires, after such an update *)
| In_change (c : Change)
(** the toolkit emits an event on the map, the toolbar or a layer *)
| In_event (t : Target) (name : string) (a : Arg)
(** a promise of the toolkit settles *)
| In_settled (p : nat) (s : Settled)
(** a timer runs out *)
| In_timeout (k : nat)
(** a click on the element of the view *)
| In_click.

Definition react (i : Input) : M unit :=
  match i with
  | In_render => render
  | In_kernel m => modify (with_model m)
  | In_change c =>
      v ← get;
      repeat_M (model_on v) (change_handler c)
  | In_event t name a =>
      v ← get;
      for_each (listening t name v) (fun c => run_callback c a)
  | In_settled p s =>
      v ← get;
      match lookup_pending p (promises v) with
      | Some chain =>
          modify (fun v => with_promises (remove_pending p (promises v)) v);;
          match s with
          | Fulfilled a => run_chain chain a
          | Rejected => ret tt
          end
      | None => ret tt
      end
  | In_timeout k =>
      v ← get;
      match lookup_pending k (timers v) with
      | Some c =>
          modify (fun v => with_timers (remove_pending k (timers v)) v);;
          run_callback c (Arg_value VUndefined)
      | None => ret tt
      end
  | In_click => _handle_click
  end.

(** The view after an input; an exception ends the reaction and leaves
    what was done before it. *)
Definition step (e : Env) (i : Input) (v : View) : View := snd (react i e v).

Fixpoint run (inputs : list (Env * Input)) (v : View) : View :=
  match inputs with
  | [] => v
  | (e, i) :: r => run r (step e i v)
  end.

(** The view as the framework creates it, around a model. *)
Definition new_view (m : Model) : View :=
  {| model := m; has_map := false; has_toolbar := false; esriBasemaps := ∅;
     bRend := false; bSRend := false; fresh := 0; listeners := [];
     promises := []; timers := []; model_on := 0; trace := [] |}.

(** ** Notions that the statements below use *)

(** *** Parsing what was written *)

Definition is_undefined (v : value) : bool :=
  match v with
  | VUndefined => true
  | _ => false
  end.

(** The members of an object that have a value. *)
Definition defined (fs : list (string * value)) : list (string * value) :=
  List.filter (fun kv => negb (is_undefined (snd kv))) fs.

(** What [JSON.parse] reads in the text that [JSON.stringify] writes for a
    value: [undefined] has become [null], members without a value are gone,
    and of members with the same key the last value stands at the place of
    the first. *)
Definition norm_members (f : value -> value)
  : list (string * value) -> list (string * value) -> list (string * value) :=
  fix go fs acc :=
    match fs with
    | [] => acc
    | (k, VUndefined) :: r => go r acc
    | (k, x) :: r => go r (obj_set k (f x) acc)
    end.

Fixpoint norm (v : value) : value :=
  match v with
  | VUndefined => VNull
  | VArr l => VArr (map norm l)
  | VObj fs => VObj (norm_members norm fs [])
  | _ => v
  end.

(** Two values that are the same but for the numerals of their numbers
    and the order of the members of their objects, as a value and what
    JavaScript has when it has read it from text; a number too large for
    binary64 is written [null]. *)
Inductive alike : value -> value -> Prop :=
| alike_undefined : alike VUndefined VUndefined
| alike_null : alike VNull VNull
| alike_bool b : alike (VBool b) (VBool b)
| alike_num n n' : alike (VNum n) (VNum n')
| alike_num_null n : alike (VNum n) VNull
| alike_str s : alike (VStr s) (VStr s)
| alike_arr l l' : Forall2 alike l l' -> alike (VArr l) (VArr l')
| alike_obj fs fs' :
    (forall k, option_Forall2 alike (assoc k fs) (assoc k fs')) ->
    alike (VObj fs) (VObj fs').

Definition set_member (acc : list (string * value)) (kv : string * value)
  : list (string * value) :=
  obj_set (fst kv) (norm (snd kv)) acc.

Definition member_text (kv : string * value) : string :=
  quote (fst kv) ++ ":" ++ stringify_item (snd kv).

(** The elements after the first, as text. *)
Fixpoint tail_text (l : list string) : string :=
  match l with
  | [] => ""
  | x :: r => "," ++ x ++ tail_text r
  end.

(** The number of values in a value, which bounds its depth, the length of
    its arrays and objects, and the length of its text from below. *)
Fixpoint weight (v : value) : nat :=
  match v with
  | VArr l => S (list_sum (map weight l))
  | VObj fs =>
      S (list_sum (map (fun kv => if is_undefined (snd kv) then 0 else weight (snd kv)) fs))
  | _ => 1
  end.

Definition member_weight (kv : string * value) : nat :=
  if is_undefined (snd kv) then 0 else weight (snd kv).

(** Text that may follow a number. *)
Definition follow (rest : string) : Prop :=
  match rest with
  | String c _ => is_number_char c = false
  | EmptyString => True
  end.

(** A number starts with a digit or with the minus sign. *)
Definition starts_number (c : ascii) : Prop := is_digit c = true \/ c = "-"%char.

(** A character that the text of a value starts with: no white space, and
    it closes no array, object or string. *)
Definition opens (c : ascii) : Prop :=
  is_json_ws c = false /\ c <> "]"%char /\ c <> "}"%char.

(** [pi] reads the text of [x] as [x] in normal form. *)
Definition parses (pi : string -> option (value * string)) (x : value) : Prop :=
  forall rest, follow rest -> pi (stringify_item x ++ rest) = Some (norm x, rest).

(** *** Results and effects of a callback *)

Definition result {A} (m : M A) (e : Env) (v : View) : res A := fst (m e v).
Definition after {A} (m : M A) (e : Env) (v : View) : View := snd (m e v).

(** A callback keeps a relation between the view before and after it,
    however it ends. *)
Definition keeps (R : View -> View -> Prop) {A} (m : M A) : Prop :=
  forall e v, R v (after m e v).

(** The messages sent to the kernel-side model so far. *)
Definition sent (v : View) : list Message :=
  omap (fun x => match x with Send m => Some m | _ => None end) (trace v).

Definition event_of (m : Message) : string :=
  match m with Msg event _ => event end.

Definition event_names : list string := ["mouseclick"; "draw-end"; "click"].

(** The view has gone on sending, and only messages that [P] holds of. *)
Definition sends_more (P : Message -> Prop) (v v' : View) : Prop :=
  exists l : list Message, sent v' = (sent v ++ l)%list /\ Forall P l.

Definition known_event (m : Message) : Prop := event_of m ∈ event_names.


(** The view has gone on calling, and only calls that [P] holds of. *)
Definition calls_more (P : Effect -> Prop) (v v' : View) : Prop :=
  exists l : list Effect, trace v' = (trace v ++ l)%list /\ Forall P l.

(** A call on the identity manager. *)
Definition identity_call (x : Effect) : bool :=
  match x with
  | RegisterServers _ _ | GenerateToken _ _ _ _ | RegisterToken _ _ _ _ _ => true
  | _ => false
  end.

(** The numbers of the pending promises are below the next number. *)
Definition promises_numbered (v : View) : Prop :=
  Forall (fun p => fst p < fresh v) (promises v).

(** *** Sample data *)

(** JSON text written with apostrophes for its quotes. *)
Definition js_text (s : string) : string :=
  string_of_list_ascii
    (map (fun c => if Ascii.eqb c "'" then dquote else c) (list_ascii_of_string s)).

(** A model with a centre and a zoom and nothing else set. *)
Definition sample_model : Model :=
  {| _token_info := ""; _gallerybasemaps := []; _gbasemaps_def := []; id := "";
     _arcgis_url := ""; _extent := ""; _basemap := "topo";
     center := [number "34.05"; number "-118.24"]; zoom := number "4";
     mode := "navigate"; _addlayer := ""; _js_layer_list := "";
     _js_interactive_drawn_graphic := ""; _js_basemap := "";
     _jsextent := Some ""; start_time := ""; end_time := "";
     _layerId_to_remove := ""; _swipe_div := "" |}.

Definition sample_renderer : Renderer :=
  {| toJson := VObj [("type", VStr "simple")];
     declaredClass := VStr "esri.renderer.SimpleRenderer";
     renderer_props := [("symbol", VNull)] |}.

Definition sample_layer : Layer :=
  {| layer_id := VStr "graphicsLayer1";
     layer_url := VStr "https://services.example/FeatureServer/0";
     normalization := VUndefined; refreshInterval := number "0";
     renderer := Some sample_renderer; bandIds := VUndefined;
     mosaicRule := VUndefined; renderingRule := VUndefined;
     resourceInfo := VStr (js_text "{'documentInfo':{'Title':'World Topographic Map'}}");
     layer_name := VStr "Cities"; fields := [] |}.

(** Surroundings in which the map has loaded and has one basemap layer. *)
Definition sample_env : Env :=
  {| protocol := "http:"; href := "http://localhost:8888/notebooks/map.ipynb";
     SimpleFillSymbol_props := [("type", VStr "esriSFS"); ("style", VStr "esriSFSSolid")];
     getBasemap := VStr "topo"; basemapLayerIds := ["layer0"];
     getLayer := fun i => if String.eqb i "layer0" then Some 0 else None;
     layer_state := fun _ => sample_layer;
     graphic_symbol_null := fun _ => true;
     graphic_geometry_type := fun _ => Some (VStr "point");
     map_graphics := true;
     index_key := fun _ => "NaN" |}.

Definition sample_point : value :=
  VObj [("type", VStr "point"); ("x", number "-118.24"); ("y", number "34.05")].

(** The view of [sample_model] after [render] and the [load] event of the
    map. *)
Definition sample_view : View :=
  run [(sample_env, In_render); (sample_env, In_event The_map "load" Arg_map)]
      (new_view sample_model).

(** A model with a time range. *)
Definition timed_model : Model :=
  {| _token_info := ""; _gallerybasemaps := []; _gbasemaps_def := []; id := "";
     _arcgis_url := ""; _extent := ""; _basemap := "topo";
     center := [number "34.05"; number "-118.24"]; zoom := number "4";
     mode := "navigate"; _addlayer := ""; _js_layer_list := "";
     _js_interactive_drawn_graphic := ""; _js_basemap := "";
     _jsextent := Some ""; start_time := "2015-01-01"; end_time := "2016-01-01";
     _layerId_to_remove := ""; _swipe_div := "" |}.

(** A model with an extent in place of centre and zoom. *)
Definition extent_model : Model :=
  {| _token_info := ""; _gallerybasemaps := []; _gbasemaps_def := []; id := "";
     _arcgis_url := "";
     _extent := js_text "{'xmin': -118.5, 'ymin': 33.7, 'xmax': -117.6, 'ymax': 34.3}";
     _basemap := "streets";
     center := [number "34.05"; number "-118.24"]; zoom := number "4";
     mode := "navigate"; _addlayer := ""; _js_layer_list := "";
     _js_interactive_drawn_graphic := ""; _js_basemap := "";
     _jsextent := Some ""; start_time := ""; end_time := "";
     _layerId_to_remove := ""; _swipe_div := "" |}.

(** A model that names a web map. *)
Definition webmap_model : Model :=
  {| _token_info := ""; _gallerybasemaps := []; _gbasemaps_def := [];
     id := "4778fee6371d4e83a22786029f30c7e1";
     _arcgis_url := ""; _extent := ""; _basemap := "topo";
     center := [number "34.05"; number "-118.24"]; zoom := number "4";
     mode := "navigate"; _addlayer := ""; _js_layer_list := "";
     _js_interactive_drawn_graphic := ""; _js_basemap := "";
     _jsextent := Some ""; start_time := ""; end_time := "";
     _layerId_to_remove := ""; _swipe_div := "" |}.

(** A model with token information, as text. *)
Definition token_model (token_info : string) : Model :=
  {| _token_info := token_info; _gallerybasemaps := []; _gbasemaps_def := [];
     id := ""; _arcgis_url := ""; _extent := ""; _basemap := "topo";
     center := [number "34.05"; number "-118.24"]; zoom := number "4";
     mode := "navigate"; _addlayer := ""; _js_layer_list := "";
     _js_interactive_drawn_graphic := ""; _js_basemap := "";
     _jsextent := Some ""; start_time := ""; end_time := "";
     _layerId_to_remove := ""; _swipe_div := "" |}.

Definition sample_token : string :=
  js_text "{'server':'https://gis.example/arcgis','tokenurl':'https://gis.example/arcgis/tokens','username':'amani','password':'secret'}".

(** The view of [webmap_model] after [render] and the arrival of the web
    map. *)
Definition webmap_view : View :=
  run [(sample_env, In_render); (sample_env, In_settled 0 (Fulfilled Arg_map))]
      (new_view webmap_model).

Definition sample_extent : value :=
  VObj [("xmin", number "-13244092"); ("ymin", number "3955606");
        ("xmax", number "-13046274"); ("ymax", number "4117961");
        ("spatialReference", VObj [("wkid", number "102100")])].

(** The listeners for [name] on [t] are the same in both views. *)
Definition same_listening (t : Target) (name : string) (v v' : View) : Prop :=
  listening t name v' = listening t name v.

(** The view after the lines of [on_load] that come before the five calls
    at its end. *)
Definition on_load_wired (v : View) : View :=
  with_listeners
    (listeners v ++
     [{| handle := fresh v; target := The_map; event_name := "mouse-drag-start";
         callback := On_mouse_drag_start |};
      {| handle := S (fresh v); target := The_map; event_name := "mouse-out";
         callback := On_mouse_out |};
      {| handle := S (S (fresh v)); target := The_toolbar; event_name := "draw-end";
         callback := OnDrawEnd |};
      {| handle := S (S (S (fresh v))); target := The_map;
         event_name := "extent-change"; callback := OnExtentChange |};
      {| handle := S (S (S (S (fresh v)))); target := The_map; event_name := "click";
         callback := OnMouseClick |}])
    (with_fresh (S (S (S (S (S (fresh v))))))
       (with_has_toolbar true
          (with_trace
             (trace v ++
              [Keyboard_enable; DisableKeyboardNavigation; DisableMapNavigation; New_Draw])
             v))).

(** The title that [on_basemap_change] records for a layer with the
    metadata [resourceInfo]: what the [try] block reads, or the name [b] of
    the basemap if the block throws. *)
Definition recorded_title (b : string) (resourceInfo : value) : value :=
  match (info ← JSON_parse resourceInfo;
         d ← get_prop info "documentInfo";
         get_prop d "Title") with
  | inr t => t
  | inl _ => VStr b
  end.

(** The record of one basemap layer. *)
Definition recorded_basemap (e : Env) (b : string) (i : string) : value :=
  match getLayer e i with
  | Some l =>
      VObj [("url", layer_url (layer_state e l));
            ("title", recorded_title b (resourceInfo (layer_state e l)))]
  | None => VUndefined
  end.

(** The basemap layer [i] is a layer of the map, and the text of its
    metadata is [narrow]. *)
Definition metadata_within (e : Env) (i : string) : Prop :=
  exists l,
    getLayer e i = Some l
    /\ narrow (to_string (resourceInfo (layer_state e l))) = true.

(** [r] is a record of the basemap layer [i] while the basemap is [b]: the
    url of the layer and a title [alike] to the recorded title, which is
    that title if it is a string or [undefined]. *)
Definition basemap_record_of (e : Env) (b : string) (i : string) (r : value) : Prop :=
  exists l t,
    getLayer e i = Some l
    /\ r = VObj [("url", layer_url (layer_state e l)); ("title", t)]
    /\ alike (recorded_title b (resourceInfo (layer_state e l))) t.

(** A basemap layer whose metadata has document information without a
    title, and surroundings with it. *)
Definition untitled_layer : Layer :=
  {| layer_id := VStr "layer0";
     layer_url := VStr "https://services.example/World_Topo_Map/MapServer";
     normalization := VUndefined; refreshInterval := number "0";
     renderer := None; bandIds := VUndefined;
     mosaicRule := VUndefined; renderingRule := VUndefined;
     resourceInfo := VStr (js_text "{'documentInfo':{'Author':'Esri'}}");
     layer_name := VStr "World_Topo_Map"; fields := [] |}.

Definition untitled_env : Env :=
  {| protocol := "http:"; href := "http://localhost:8888/notebooks/map.ipynb";
     SimpleFillSymbol_props := [("type", VStr "esriSFS"); ("style", VStr "esriSFSSolid")];
     getBasemap := VStr "topo"; basemapLayerIds := ["layer0"];
     getLayer := fun i => if String.eqb i "layer0" then Some 0 else None;
     layer_state := fun _ => untitled_layer;
     graphic_symbol_null := fun _ => true;
     graphic_geometry_type := fun _ => Some (VStr "point");
     map_graphics := true;
     index_key := fun _ => "NaN" |}.

(** *** The lists kept as text *)

(** The text is the empty string or what [JSON.stringify] writes for an
    array. *)
Definition list_text (s : string) : Prop :=
  s = "" \/ exists l, s = stringify_array l.

(** Both list attributes of the model hold such a text. *)
Definition lists_written (m : Model) : Prop :=
  list_text (_js_layer_list m) /\ list_text (_js_interactive_drawn_graphic m).

(** The models that the view has synced to the kernel so far. *)
Definition synced (v : View) : list Model :=
  omap (fun x => match x with Touch m => Some m | _ => None end) (trace v).

(** From a view whose list attributes hold list texts the callback leads
    to such a view, and so are the models it syncs. *)
Definition writes_lists (v v' : View) : Prop :=
  lists_written (model v) ->
  lists_written (model v')
  /\ exists l, synced v' = (synced v ++ l)%list /\ Forall lists_written l.

(** What the kernel sets keeps the list attributes as list texts. *)
Definition kernel_keeps_lists (i : Input) : Prop :=
  match i with
  | In_kernel m => lists_written m
  | _ => True
  end.

(** A model whose layer list holds the empty array. *)
Definition with_empty_layer_list (v : View) : View :=
  with_model (set_js_layer_list "[]" (model v)) v.

(** The callback leaves the attribute [g] as it is or with a list text in
    it, whatever it held. *)
Definition writes_list_text (g : Model -> string) (v v' : View) : Prop :=
  g (model v') = g (model v) \/ list_text (g (model v')).

(** A polygon is drawn on the map of [sample_model]; then the kernel asks
    for the graphics to be cleared. *)
Definition drawing_inputs : list (Env * Input) :=
  [(sample_env, In_render);
   (sample_env, In_event The_map "load" Arg_map);
   (sample_env, In_event The_toolbar "draw-end"
                  (Arg_value (VObj [("geometry", sample_point)])))].

Definition drawn_view : View := run drawing_inputs (new_view sample_model).

Definition clearing_view : View :=
  step sample_env (In_kernel (set_mode "###clear_graphics" (model drawn_view)))
    drawn_view.

(** Both views have the same listeners. *)
Definition same_listeners (v v' : View) : Prop := listeners v' = listeners v.

(** *** Who writes what *)

(** The attributes of the model that the view reads and the kernel
    writes. *)
Definition kernel_owned (m : Model) :=
  (_token_info m, _gallerybasemaps m, _gbasemaps_def m, id m, _arcgis_url m,
   _extent m, _basemap m, zoom m, _addlayer m, start_time m, end_time m,
   _layerId_to_remove m, _swipe_div m).

Definition same_kernel_owned (v v' : View) : Prop :=
  kernel_owned (model v') = kernel_owned (model v).

(** The input is a state update of the kernel. *)
Definition from_kernel (i : Input) : bool :=
  match i with
  | In_kernel _ => true
  | _ => false
  end.

(** The view has the same map and toolbar. *)
Definition same_objects (v v' : View) : Prop :=
  has_map v' = has_map v /\ has_toolbar v' = has_toolbar v.

(** The numbers of the listeners are below the next number. *)
Definition listeners_numbered (v : View) : Prop :=
  Forall (fun l => handle l < fresh v) (listeners v).

(** The view after the lines of the web-map callback that come before the
    five calls at its end. *)
Definition on_webmap_wired (v : View) : View :=
  with_listeners
    (listeners v ++
     [{| handle := fresh v; target := The_toolbar; event_name := "draw-end";
         callback := OnDrawEnd |};
      {| handle := S (fresh v); target := The_map; event_name := "click";
         callback := OnMouseClick |}])
    (with_fresh (S (S (fresh v)))
       (with_has_toolbar true
          (with_has_map true
             (with_trace
                (trace v ++ [Keyboard_enable; DisableKeyboardNavigation; New_Draw])
                v)))).

(** The view after [load_map] for the web map [id (model v)]. *)
Definition web_map_requested (v : View) : View :=
  with_promises (promises v ++ [(fresh v, [On_webmap_created])])
    (with_fresh (S (fresh v))
       (with_trace
          (trace v ++
           Keyboard_disable
           :: (if nonblank (_arcgis_url (model v))
               then [Set_arcgisUrl (_arcgis_url (model v))] else [])
           ++ [CreateMap (id (model v))])
          (with_esriBasemaps
             (gallery_entries (_gallerybasemaps (model v)) (_gbasemaps_def (model v))
                (esriBasemaps v))
             v))).

(** The next number has not gone down, and listeners and promises that
    were numbered below it are still. *)
Definition numbered_more (v v' : View) : Prop :=
  fresh v <= fresh v'
  /\ (listeners_numbered v -> listeners_numbered v')
  /\ (promises_numbered v -> promises_numbered v').

(** The table of basemaps is the same in both views. *)
Definition same_basemaps (v v' : View) : Prop := esriBasemaps v' = esriBasemaps v.

(** A model with two basemaps of a gallery, and the definition of the
    first alone. *)
Definition gallery_model : Model :=
  {| _token_info := ""; _gallerybasemaps := ["custom"; "dark"];
     _gbasemaps_def := [VArr [VObj [("url", VStr "https://tiles.example/custom")]]];
     id := ""; _arcgis_url := ""; _extent := ""; _basemap := "custom";
     center := [number "34.05"; number "-118.24"]; zoom := number "4";
     mode := "navigate"; _addlayer := ""; _js_layer_list := "";
     _js_interactive_drawn_graphic := ""; _js_basemap := "";
     _jsextent := Some ""; start_time := ""; end_time := "";
     _layerId_to_remove := ""; _swipe_div := "" |}.

(** The view after [draw_end] and what went before it in [onDrawEnd]. *)
Definition drawn (e : Env) (geometry : value) (v : View) : View :=
  let again := if String.eqb (mode (model v)) "navigate" then 0 else model_on v in
  with_trace
    (trace v
     ++ [Graphics_add (Graphic_new geometry SimpleFillSymbol_new); Toolbar_deactivate]
     ++ repeat Toolbar_deactivate again
     ++ [Touch (set_mode "navigate" (model v)); Send (Msg "draw-end" geometry)])
    (with_model (set_mode "navigate" (model v)) v).

(** The view after a [draw-end] event for every one of [events]. *)
Definition draws (e : Env) (events : list value) (v : View) : View :=
  fold_left (fun v evtObj => after (onDrawEnd evtObj) e v) events v.

(** A layer with two fields, the second without an alias, and
    surroundings with it. *)
Definition fields_layer : Layer :=
  {| layer_id := VStr "cities_0";
     layer_url := VStr "https://services.example/FeatureServer/0";
     normalization := VUndefined; refreshInterval := number "0";
     renderer := None; bandIds := VUndefined;
     mosaicRule := VUndefined; renderingRule := VUndefined;
     resourceInfo := VUndefined;
     layer_name := VStr "Cities";
     fields := [VObj [("name", VStr "POP2000"); ("alias", VStr "Population")];
                VObj [("name", VStr "FID")]] |}.

Definition fields_env : Env :=
  {| protocol := "http:"; href := "http://localhost:8888/notebooks/map.ipynb";
     SimpleFillSymbol_props := [("type", VStr "esriSFS"); ("style", VStr "esriSFSSolid")];
     getBasemap := VStr "topo"; basemapLayerIds := ["layer0"];
     getLayer := fun i => if String.eqb i "layer0" then Some 0 else None;
     layer_state := fun _ => fields_layer;
     graphic_symbol_null := fun _ => true;
     graphic_geometry_type := fun _ => Some (VStr "point");
     map_graphics := true;
     index_key := fun _ => "NaN" |}.

(** A view whose layer list holds one record. *)
Definition listed_view : View :=
  with_model
    (set_js_layer_list (stringify_array [VObj [("id", VStr "layerA")]]) sample_model)
    sample_view.

(** A view whose list of drawn graphics is no JSON. *)
Definition unreadable_view : View :=
  with_model (set_js_interactive_drawn_graphic "oops" sample_model) sample_view.

(** The layer classes whose constructor takes the address alone, by the
    name of the type. *)
Definition plain_class (name : string) : option LayerClass :=
  if String.eqb name "KMLLayer" then Some KMLLayer
  else if String.eqb name "ArcGISTiledMapServiceLayer" then Some ArcGISTiledMapServiceLayer
  else if String.eqb name "ArcGISDynamicMapServiceLayer"
       then Some ArcGISDynamicMapServiceLayer
  else if String.eqb name "VectorTileLayer" then Some VectorTileLayer
  else None.

(** The model and the listeners are the same in both views. *)
Definition quiet (v v' : View) : Prop :=
  model v' = model v /\ listeners v' = listeners v.

(** Surroundings of a page served over https. *)
Definition https_env : Env :=
  {| protocol := "https:"; href := "https://hub.example/notebooks/map.ipynb";
     SimpleFillSymbol_props := [("type", VStr "esriSFS"); ("style", VStr "esriSFSSolid")];
     getBasemap := VStr "topo"; basemapLayerIds := ["layer0"];
     getLayer := fun i => if String.eqb i "layer0" then Some 0 else None;
     layer_state := fun _ => sample_layer;
     graphic_symbol_null := fun _ => true;
     graphic_geometry_type := fun _ => Some (VStr "point");
     map_graphics := true;
     index_key := fun _ => "NaN" |}.

(** A model that asks for the layer described by [text]. *)
Definition layer_model (text : string) : Model :=
  {| _token_info := ""; _gallerybasemaps := []; _gbasemaps_def := []; id := "";
     _arcgis_url := ""; _extent := ""; _basemap := "topo";
     center := [number "34.05"; number "-118.24"]; zoom := number "4";
     mode := "navigate"; _addlayer := text; _js_layer_list := "";
     _js_interactive_drawn_graphic := ""; _js_basemap := "";
     _jsextent := Some ""; start_time := ""; end_time := "";
     _layerId_to_remove := ""; _swipe_div := "" |}.

Definition tiles_view : View :=
  with_model
    (layer_model (js_text "{'type':'VectorTileLayer','url':'https://tiles.example/vt'}"))
    sample_view.

(** A view whose mode is the JSON of a graphic. *)
Definition graphic_view : View :=
  with_model
    (set_mode (js_text "{'geometry':{'x':-118.24,'y':34.05}}") sample_model)
    sample_view.

(** Descriptors of a feature layer with a classed colour renderer and of a
    feature collection. *)
Definition classed_layer : value :=
  VObj [("type", VStr "FeatureLayer");
        ("url", VStr "https://services.example/FeatureServer/0");
        ("renderer", VStr "ClassedColorRenderer"); ("field_name", VStr "POP2000")].

Definition collection : value :=
  VObj [("featureSet", VObj [("features", VArr [])]);
        ("layerDefinition", VObj [("geometryType", VStr "esriGeometryPoint")])].

(** The views agree on [f] of the model. *)
Definition same_on {A} (f : Model -> A) (v v' : View) : Prop :=
  f (model v') = f (model v).

(** Everything of the model but the list of drawn graphics, the centre,
    the layer list. *)
Definition but_drawn_graphics (m : Model) :=
  (kernel_owned m, mode m, center m, _js_layer_list m, _js_basemap m, _jsextent m).

Definition but_center (m : Model) :=
  (kernel_owned m, mode m, _js_layer_list m, _js_interactive_drawn_graphic m,
   _js_basemap m, _jsextent m).

Definition but_layer_list (m : Model) :=
  (kernel_owned m, mode m, center m, _js_interactive_drawn_graphic m,
   _js_basemap m, _jsextent m).

(** The descriptor of an imagery layer that asks for an opacity of 0. *)
Definition clear_imagery : value :=
  VObj [("type", VStr "ImageryLayer");
        ("url", VStr "https://img.example/ImageServer");
        ("options", VStr (js_text "{'opacity':0}"))].

(** The opacity that the calls in [tr] leave on [layer]: that of the last
    [setOpacity] on it. *)
Fixpoint opacity_left (layer : nat) (tr : list Effect) : option value :=
  match tr with
  | [] => None
  | x :: r =>
      match opacity_left layer r with
      | Some o => Some o
      | None =>
          match x with
          | SetOpacity l o => if Nat.eqb l layer then Some o else None
          | _ => None
          end
      end
  end.

(** The call sets no opacity. *)
Definition no_opacity (x : Effect) : Prop :=
  match x with
  | SetOpacity _ _ => False
  | _ => True
  end.

(** The descriptor of a feature layer that asks for an opacity of 0. *)
Definition clear_features : value :=
  VObj [("type", VStr "FeatureLayer");
        ("url", VStr "https://services.example/FeatureServer/0");
        ("options", VStr (js_text "{'opacity':0}"))].

(** * Properties *)

#[local] Arguments String.append : simpl nomatch.

(** ** [JSON.parse] reads what [JSON.stringify] writes *)

Section value_induction.
Variable P : value -> Prop.
Hypothesis Pu : P VUndefined.
Hypothesis Pn : P VNull.
Hypothesis Pb : forall b, P (VBool b).
Hypothesis Pnum : forall n, P (VNum n).
Hypothesis Ps : forall s, P (VStr s).
Hypothesis Pa : forall l, Forall P l -> P (VArr l).
Hypothesis Po : forall fs, Forall (fun kv => P (snd kv)) fs -> P (VObj fs).

Fixpoint value_induction (v : value) : P v :=
  match v with
  | VUndefined => Pu
  | VNull => Pn
  | VBool b => Pb b
  | VNum n => Pnum n
  | VStr s => Ps s
  | VArr l =>
      Pa l ((fix go (l : list value) : Forall P l :=
               match l with
               | [] => List.Forall_nil P
               | x :: r => List.Forall_cons P x r (value_induction x) (go r)
               end) l)
  | VObj fs =>
      Po fs ((fix go (fs : list (string * value)) : Forall (fun kv => P (snd kv)) fs :=
                match fs with
                | [] => List.Forall_nil _
                | kv :: r => List.Forall_cons _ kv r (value_induction (snd kv)) (go r)
                end) fs)
  end.
End value_induction.

(** A value is [alike] to itself. *)
Lemma alike_refl v : alike v v.
Proof.
  induction v as [| |b|m|s|l IH|fs IH] using value_induction; try constructor.
  - induction IH; constructor; assumption.
  - intros k. induction IH as [|[k0 x] fs H _ IH]; simpl; [constructor|].
    destruct (String.eqb k k0); [constructor; exact H | exact IH].
Qed.

Lemma alike_all l : Forall2 alike l l.
Proof. induction l; constructor; [apply alike_refl | assumption]. Qed.

Lemma append_assoc (a b c : string) : (a ++ b) ++ c = a ++ (b ++ c).
Proof. induction a as [|x a IH]; simpl; [reflexivity | rewrite IH; reflexivity]. Qed.

Lemma append_empty (s : string) : s ++ "" = s.
Proof. induction s; simpl; congruence. Qed.

Lemma length_append (a b : string) :
  String.length (a ++ b) = String.length a + String.length b.
Proof. induction a; simpl; congruence. Qed.

(** *** Strings *)

Lemma scan_string_escape_char c tl :
  scan_string (escape_char c ++ tl) =
  '(t, r) ← scan_string tl; Some (String c t, r).
Proof. destruct c as [[] [] [] [] [] [] [] []]; reflexivity. Qed.

Lemma scan_string_escape s rest :
  scan_string (escape s ++ String dquote rest) = Some (s, rest).
Proof.
  induction s as [|c s IH]; simpl.
  - reflexivity.
  - rewrite append_assoc, scan_string_escape_char, IH. reflexivity.
Qed.

(** *** Numbers *)

Lemma numeral_eq (a b : numeral) : digits a = digits b -> a = b.
Proof.
  destruct a as [s H], b as [s' H']. simpl. intros ->.
  f_equal. apply Eqdep_dec.UIP_dec, Bool.bool_dec.
Qed.

Lemma make_numeral_digits n : make_numeral (digits n) = Some n.
Proof.
  unfold make_numeral.
  generalize (eq_refl (number_ok (digits n))).
  generalize (number_ok (digits n)) at 2 3.
  intros [] H.
  - f_equal. now apply numeral_eq.
  - rewrite (digits_ok n) in H. discriminate.
Qed.

Lemma span_number_append lit rest :
  snd (span_number lit) = "" -> follow rest ->
  span_number (lit ++ rest) = (lit, rest).
Proof.
  induction lit as [|c lit IH]; simpl; intros H F.
  - destruct rest as [|c r]; simpl in *; [reflexivity | now rewrite F].
  - destruct (is_number_char c); [|discriminate].
    destruct (span_number lit) as [t u] eqn:E. simpl in H.
    rewrite IH by assumption. reflexivity.
Qed.

Lemma number_ok_span lit : number_ok lit = true ->
  snd (span_number lit) = "" /\ valid_number lit = true.
Proof.
  unfold number_ok. destruct (span_number lit) as [t [|]]; simpl; [auto | discriminate].
Qed.

Lemma number_token_text n rest : follow rest ->
  number_token (digits n ++ rest) = Some (n, rest).
Proof.
  intros F. destruct (number_ok_span _ (digits_ok n)) as [H _].
  unfold number_token. rewrite span_number_append by assumption.
  now rewrite make_numeral_digits.
Qed.

Lemma valid_number_head lit : valid_number lit = true ->
  exists c r, lit = String c r /\ starts_number c.
Proof.
  unfold valid_number, scan_number, starts_number. destruct lit as [|c r]; [discriminate|].
  intros H. exists c, r. split; [reflexivity|].
  destruct (Ascii.eqb_spec c "-") as [->|N]; [now right|left].
  assert (E : match String c r with String "-" r0 => ("-", r0) | _ => ("", String c r) end
              = ("", String c r)).
  { destruct c as [[] [] [] [] [] [] [] []]; try reflexivity. now elim N. }
  rewrite E in H. cbn [scan_int] in H.
  unfold mbind, option_bind in H.
  destruct (Ascii.eqb c "0") eqn:E0.
  - apply Ascii.eqb_eq in E0. now subst.
  - destruct (is_digit c); [reflexivity | discriminate].
Qed.

Lemma numeral_head n : exists c r, digits n = String c r /\ starts_number c.
Proof.
  apply valid_number_head. now destruct (number_ok_span _ (digits_ok n)).
Qed.

Lemma parse_value_number n d c r : starts_number c ->
  parse_value n (S d) (String c r) =
  '(lit, r') ← number_token (String c r); Some (VNum lit, r').
Proof.
  intros H. destruct c as [[] [] [] [] [] [] [] []];
    try reflexivity; destruct H as [H|H]; discriminate.
Qed.

Lemma starts_number_opens c : starts_number c -> opens c.
Proof.
  intros H. unfold opens.
  destruct c as [[] [] [] [] [] [] [] []];
    try (destruct H as [H|H]; discriminate); repeat split; discriminate.
Qed.

(** *** The text of a value *)

Lemma stringify_defined v :
  is_undefined v = false -> stringify v = Some (stringify_item v).
Proof. destruct v as [| |[]| | | |]; try reflexivity; discriminate. Qed.

Lemma text_array l rest :
  stringify_item (VArr l) ++ rest
  = String "[" (join_comma (map stringify_item l) ++ String "]" rest).
Proof. unfold stringify_item. simpl. now rewrite append_assoc. Qed.

Lemma members_with_defined fs :
  members_with stringify fs = map member_text (defined fs).
Proof.
  induction fs as [|[k x] fs IH]; [reflexivity|].
  cbn [members_with defined List.filter snd].
  destruct x as [| |[]| | | |]; cbn [is_undefined negb stringify]; try exact IH;
    cbn [map]; f_equal; solve [exact IH | reflexivity].
Qed.

Lemma text_object fs rest :
  stringify_item (VObj fs) ++ rest
  = String "{" (join_comma (map member_text (defined fs)) ++ String "}" rest).
Proof.
  unfold stringify_item. simpl. now rewrite append_assoc, members_with_defined.
Qed.

Lemma text_string s rest :
  stringify_item (VStr s) ++ rest = String dquote (escape s ++ String dquote rest).
Proof. unfold stringify_item, quote. simpl. now rewrite append_assoc. Qed.

Lemma text_head v : exists c r, stringify_item v = String c r /\ opens c.
Proof.
  unfold opens.
  destruct v as [| |[]|n|s|l|fs];
    try (eexists _, _; split; [reflexivity | repeat split; discriminate]).
  destruct (numeral_head n) as (c & r & E & H).
  exists c, r. split; [exact E | now apply starts_number_opens].
Qed.

Lemma skip_ws_text v rest :
  skip_ws (stringify_item v ++ rest) = stringify_item v ++ rest.
Proof.
  destruct (text_head v) as (c & r & -> & H & _). simpl. now rewrite H.
Qed.

Lemma join_comma_cons x l : join_comma (x :: l) = x ++ tail_text l.
Proof.
  revert x. induction l as [|y l IH]; intros x.
  - simpl. now rewrite append_empty.
  - change (join_comma (x :: y :: l)) with (x ++ "," ++ join_comma (y :: l)).
    rewrite IH. reflexivity.
Qed.

Lemma follow_tail l c r : is_number_char c = false ->
  follow (tail_text l ++ String c r).
Proof. destruct l; simpl; [auto | reflexivity]. Qed.

(** *** Arrays *)

Lemma parse_more_elements_text pi l : Forall (parses pi) l ->
  forall n acc rest, length l < n ->
  parse_more_elements pi n acc (tail_text (map stringify_item l) ++ String "]" rest)
  = Some (VArr (rev acc ++ map norm l), rest).
Proof.
  induction 1 as [|x l Hx Hl IH]; intros n acc rest Hn;
    (destruct n as [|n]; [simpl in Hn; lia|]); simpl.
  - now rewrite app_nil_r.
  - rewrite !append_assoc. rewrite (skip_ws_text x).
    rewrite Hx by (now apply follow_tail). simpl.
    rewrite (IH n (norm x :: acc) rest) by (simpl in Hn; lia). simpl.
    now rewrite <- app_assoc.
Qed.

Lemma parse_array_text pi l : Forall (parses pi) l ->
  forall n rest, length l < n ->
  parse_array pi n (join_comma (map stringify_item l) ++ String "]" rest)
  = Some (VArr (map norm l), rest).
Proof.
  intros H n rest Hn. destruct H as [|x l Hx Hl].
  - reflexivity.
  - cbn [map]. rewrite join_comma_cons, append_assoc.
    unfold parse_array. rewrite (skip_ws_text x).
    assert (E : match stringify_item x ++ tail_text (map stringify_item l) ++ String "]" rest with
                | String "]" r => Some (VArr [], r)
                | s' => '(v, r') ← pi s'; parse_more_elements pi n [v] r'
                end
                = '(v, r') ← pi (stringify_item x ++ tail_text (map stringify_item l) ++ String "]" rest);
                  parse_more_elements pi n [v] r').
    { destruct (text_head x) as (c & r & -> & _ & N & _).
      simpl. destruct c as [[] [] [] [] [] [] [] []]; try reflexivity. now elim N. }
    rewrite E, Hx by (now apply follow_tail). simpl.
    apply (parse_more_elements_text pi l Hl n [norm x] rest). simpl in Hn; lia.
Qed.

(** *** Objects *)

Lemma norm_members_defined fs acc :
  norm_members norm fs acc = fold_left set_member (defined fs) acc.
Proof.
  revert acc. induction fs as [|[k x] fs IH]; intros acc; [reflexivity|].
  destruct x; cbn [norm_members defined List.filter snd is_undefined negb fold_left];
    rewrite IH; reflexivity.
Qed.

Lemma member_text_eq k x rest :
  member_text (k, x) ++ rest
  = String dquote (escape k ++ String dquote (String ":" (stringify_item x ++ rest))).
Proof.
  unfold member_text, quote. simpl. now rewrite !append_assoc.
Qed.

Lemma parse_member_text pi k x rest : parses pi x -> follow rest ->
  parse_member pi (member_text (k, x) ++ rest) = Some (k, norm x, rest).
Proof.
  intros Hx F. rewrite member_text_eq. unfold parse_member.
  cbn [skip_ws]. change (is_json_ws dquote) with false. cbv iota.
  change (Ascii.eqb dquote dquote) with true. cbv iota.
  rewrite scan_string_escape. simpl.
  rewrite (skip_ws_text x), Hx by assumption. reflexivity.
Qed.

Lemma parse_more_members_text pi fs : Forall (fun kv => parses pi (snd kv)) fs ->
  forall n acc rest, length fs < n ->
  parse_more_members pi n acc (tail_text (map member_text fs) ++ String "}" rest)
  = Some (VObj (fold_left set_member fs acc), rest).
Proof.
  induction 1 as [|[k x] fs Hx Hl IH]; intros n acc rest Hn;
    (destruct n as [|n]; [simpl in Hn; lia|]).
  - reflexivity.
  - cbn [map tail_text]. rewrite !append_assoc.
    cbn [parse_more_members].
    change ("," ++ member_text (k, x) ++ tail_text (map member_text fs) ++ String "}" rest)
      with (String "," (member_text (k, x) ++ tail_text (map member_text fs) ++ String "}" rest)).
    cbn [skip_ws]. change (is_json_ws ",") with false. cbv iota.
    rewrite parse_member_text by (auto; now apply follow_tail).
    cbn [mbind option_bind fold_left]. apply IH. simpl in Hn; lia.
Qed.

Lemma parse_object_member pi n kv R :
  parse_object pi n (member_text kv ++ R)
  = '(k, v, r') ← parse_member pi (member_text kv ++ R);
    parse_more_members pi n [(k, v)] r'.
Proof. destruct kv as [k x]. rewrite member_text_eq. reflexivity. Qed.

Lemma parse_object_text pi fs : Forall (fun kv => parses pi (snd kv)) fs ->
  forall n rest, length fs < n ->
  parse_object pi n (join_comma (map member_text fs) ++ String "}" rest)
  = Some (VObj (fold_left set_member fs []), rest).
Proof.
  intros H n rest Hn. destruct H as [|[k x] fs Hx Hl].
  - reflexivity.
  - cbn [map]. rewrite join_comma_cons, append_assoc, parse_object_member.
    rewrite parse_member_text by (auto; now apply follow_tail).
    cbn [mbind option_bind].
    apply (parse_more_members_text pi fs Hl n [(k, norm x)] rest). simpl in Hn; lia.
Qed.

(** *** Fuel *)

Lemma weight_pos v : 1 <= weight v.
Proof. destruct v; simpl; lia. Qed.

Lemma list_sum_cons a l : list_sum (a :: l) = a + list_sum l.
Proof. reflexivity. Qed.

Lemma weight_elements l :
  length l <= list_sum (map weight l) /\
  Forall (fun x => weight x <= list_sum (map weight l)) l.
Proof.
  induction l as [|x l [IH1 IH2]]; simpl; [split; [lia | constructor]|].
  pose proof (weight_pos x). split; [lia|].
  constructor; [lia|]. eapply Forall_impl; [exact IH2|]. simpl. intros; lia.
Qed.

Lemma weight_members fs :
  length (defined fs) <= list_sum (map member_weight fs) /\
  Forall (fun kv => weight (snd kv) <= list_sum (map member_weight fs)) (defined fs).
Proof.
  induction fs as [|[k x] fs [IH1 IH2]]; simpl; [split; [lia | constructor]|].
  unfold member_weight at 1 3. simpl.
  pose proof (weight_pos x).
  destruct (is_undefined x); simpl; [split; [lia | exact IH2]|].
  split; [lia|]. constructor; [simpl; lia|].
  eapply Forall_impl; [exact IH2|]. simpl. intros; lia.
Qed.

(** Parsing the text of a value gives its normal form. *)
Lemma parse_value_text v :
  forall n d, weight v <= d -> weight v <= n -> parses (parse_value n d) v.
Proof.
  induction v as [| |b|m|s|l IH|fs IH] using value_induction;
    intros n d Hd Hn rest F;
    pose proof (weight_pos VNull);
    (destruct d as [|d]; [simpl in Hd; lia|]).
  - unfold stringify_item; simpl; reflexivity.
  - unfold stringify_item; simpl; reflexivity.
  - destruct b; unfold stringify_item; simpl; reflexivity.
  - destruct (numeral_head m) as (c & r & E & H1).
    change (stringify_item (VNum m)) with (digits m).
    rewrite E at 1. change (String c r ++ rest) with (String c (r ++ rest)).
    rewrite parse_value_number by assumption.
    change (String c (r ++ rest)) with (String c r ++ rest). rewrite <- E.
    now rewrite number_token_text.
  - rewrite text_string. cbn. now rewrite scan_string_escape.
  - rewrite text_array. cbn [parse_value].
    cbn [weight] in Hd, Hn. destruct (weight_elements l) as [L1 L2].
    change (Ascii.eqb "[" "n") with false. change (Ascii.eqb "[" "t") with false.
    change (Ascii.eqb "[" "f") with false. change (Ascii.eqb "[" dquote) with false.
    change (Ascii.eqb "[" "[") with true. cbv iota.
    apply parse_array_text; [|lia].
    rewrite List.Forall_forall in IH, L2. apply List.Forall_forall. intros x Hx.
    apply IH; [assumption | |]; specialize (L2 x Hx); simpl in L2; lia.
  - rewrite text_object. cbn [parse_value norm]. rewrite norm_members_defined.
    cbn [weight] in Hd, Hn. fold member_weight in Hd, Hn.
    destruct (weight_members fs) as [L1 L2].
    change (Ascii.eqb "{" "n") with false. change (Ascii.eqb "{" "t") with false.
    change (Ascii.eqb "{" "f") with false. change (Ascii.eqb "{" dquote) with false.
    change (Ascii.eqb "{" "[") with false. change (Ascii.eqb "{" "{") with true. cbv iota.
    apply parse_object_text; [|lia].
    rewrite List.Forall_forall in IH, L2. apply List.Forall_forall. intros kv Hkv.
    assert (Hin : In kv fs) by (now apply filter_In in Hkv).
    apply IH; [assumption | |]; specialize (L2 kv Hkv); simpl in L2; lia.
Qed.

Lemma length_tail l :
  list_sum (map String.length l) <= String.length (tail_text l).
Proof.
  induction l as [|x l IH]; simpl; [lia|]. rewrite length_append. lia.
Qed.

Lemma length_join l :
  list_sum (map String.length l) <= String.length (join_comma l).
Proof.
  destruct l as [|x l]; [simpl; lia|].
  rewrite join_comma_cons, length_append. pose proof (length_tail l). simpl. lia.
Qed.

Lemma weight_le_length v : weight v <= String.length (stringify_item v).
Proof.
  induction v as [| |b|m|s|l IH|fs IH] using value_induction.
  - simpl. lia.
  - simpl. lia.
  - destruct b; simpl; lia.
  - destruct (numeral_head m) as (c & r & E & _).
    change (stringify_item (VNum m)) with (digits m). rewrite E. simpl. lia.
  - simpl. lia.
  - change (stringify_item (VArr l)) with (stringify_array l).
    unfold stringify_array. cbn [weight]. rewrite !length_append. simpl String.length.
    pose proof (length_join (map stringify_item l)) as J.
    enough (list_sum (map weight l) <= list_sum (map String.length (map stringify_item l))) by lia.
    clear J. induction l as [|x l IHl]; [simpl; lia|].
    inversion IH as [|? ? Hx Hl]; subst. cbn [map]. rewrite !list_sum_cons.
    specialize (IHl Hl). lia.
  - change (stringify_item (VObj fs)) with (stringify_object fs).
    unfold stringify_object. rewrite members_with_defined.
    cbn [weight]. fold member_weight. rewrite !length_append. simpl String.length.
    pose proof (length_join (map member_text (defined fs))) as J.
    enough (list_sum (map member_weight fs)
            <= list_sum (map String.length (map member_text (defined fs)))) by lia.
    clear J. induction fs as [|[k x] fs IHl]; [simpl; lia|].
    inversion IH as [|? ? Hx Hl]; subst. cbn [map defined List.filter]. rewrite !list_sum_cons.
    specialize (IHl Hl). fold (defined fs). unfold member_weight at 1.
    cbn [snd] in *. destruct (is_undefined x) eqn:U; cbn [negb map]; rewrite ?list_sum_cons; [lia|].
    unfold member_text at 1. cbn [fst snd].
    rewrite !length_append. lia.
Qed.

(** [JSON.parse(JSON.stringify(v))] *)
Lemma parse_stringify_item v : parse (stringify_item v) = Some (norm v).
Proof.
  unfold parse.
  pose proof (weight_le_length v) as L.
  pose proof (parse_value_text v (S (String.length (stringify_item v)))
                (S (String.length (stringify_item v))) ltac:(lia) ltac:(lia) "" I) as H.
  rewrite append_empty in H. rewrite <- (append_empty (stringify_item v)) at 3.
  rewrite skip_ws_text, append_empty. now rewrite H.
Qed.

Lemma parse_stringify_array l :
  parse (stringify_array l) = Some (VArr (map norm l)).
Proof. exact (parse_stringify_item (VArr l)). Qed.

Lemma parse_stringify v s : stringify v = Some s -> parse s = Some (norm v).
Proof.
  destruct v; try discriminate; intros H;
    rewrite <- parse_stringify_item; unfold stringify_item; now rewrite H.
Qed.

(** ** Reasoning about callbacks *)

#[local] Arguments has_brace : simpl never.
#[local] Arguments nonblank : simpl never.
#[local] Arguments parse : simpl never.
#[local] Arguments JSON_parse : simpl never.
#[local] Arguments stringify : simpl never.
#[local] Arguments stringify_array : simpl never.
#[local] Arguments stringify_object : simpl never.
#[local] Arguments gallery_entries : simpl never.

(** Unfolds the plumbing of callbacks. *)
Ltac unfold_M :=
  cbv beta iota delta
    [result after mbind M_bind bind mret M_ret ret throw eval try_catch when
     ask get modify attr call model_set touch send the_map the_toolbar
     the_graphics new_number on then_ setTimeout remove_listener] in *.

Section Keeps.
Context (R : View -> View -> Prop) {R_refl : Reflexive R} {R_trans : Transitive R}.

Lemma keeps_same {A} (m : M A) : (forall e v, after m e v = v) -> keeps R m.
Proof. intros H e v. rewrite H. reflexivity. Qed.

Lemma keeps_ret {A} (a : A) : keeps R (mret a).
Proof. now apply keeps_same. Qed.

Lemma keeps_throw {A} (x : exn) : keeps R (@throw A x).
Proof. now apply keeps_same. Qed.

Lemma keeps_eval {A} (r : res A) : keeps R (eval r).
Proof. now apply keeps_same. Qed.

Lemma keeps_ask : keeps R ask.
Proof. now apply keeps_same. Qed.

Lemma keeps_get : keeps R get.
Proof. now apply keeps_same. Qed.

Lemma keeps_attr {A} (f : Model -> A) : keeps R (attr f).
Proof. now apply keeps_same. Qed.

Lemma keeps_bind {A B} (m : M A) (k : A -> M B) :
  keeps R m -> (forall a, keeps R (k a)) -> keeps R (m ≫= k).
Proof.
  intros Hm Hk e v. unfold after, mbind, M_bind, bind.
  specialize (Hm e v). unfold after in Hm.
  destruct (m e v) as [[x|a] v']; simpl in *; [assumption|].
  etransitivity; [exact Hm | apply Hk].
Qed.

Lemma keeps_try_catch {A} (body handler : M A) :
  keeps R body -> keeps R handler -> keeps R (try_catch body handler).
Proof.
  intros Hb Hh e v. unfold after, try_catch.
  specialize (Hb e v). unfold after in Hb.
  destruct (body e v) as [[x|a] v']; simpl in *; [|assumption].
  etransitivity; [exact Hb | apply Hh].
Qed.

Lemma keeps_when b (m : M unit) : keeps R m -> keeps R (when b m).
Proof. destruct b; [auto | intros _; apply keeps_ret]. Qed.

Lemma keeps_for_each {A} (l : list A) (body : A -> M unit) :
  (forall x, keeps R (body x)) -> keeps R (for_each l body).
Proof.
  intros H. induction l as [|x l IH]; simpl; [apply keeps_ret|].
  apply keeps_bind; auto.
Qed.

Lemma keeps_repeat n (m : M unit) : keeps R m -> keeps R (repeat_M n m).
Proof.
  intros H. induction n as [|n IH]; simpl; [apply keeps_ret|].
  apply keeps_bind; auto.
Qed.

Lemma keeps_modify (f : View -> View) : (forall v, R v (f v)) -> keeps R (modify f).
Proof. intros H e v. apply H. Qed.

Lemma field_infos_same fs e v : after (field_infos fs) e v = v.
Proof.
  unfold after. induction fs as [|f fs IH]; [reflexivity|].
  cbn [field_infos]. unfold field_info. unfold_M.
  destruct (get_prop f "name"); [reflexivity|].
  destruct (get_prop f "alias"); [reflexivity|]. simpl in *.
  destruct (field_infos fs e v) as [[x|a] v']; simpl in *; assumption.
Qed.

Lemma keeps_field_infos fs : keeps R (field_infos fs).
Proof. apply keeps_same. apply field_infos_same. Qed.

End Keeps.

(** Takes a callback apart along its binds and case distinctions; [side]
    proves what is left of a change to the view. *)
Ltac keeps_step side :=
  lazymatch goal with
  | |- keeps _ (mbind _ _) => apply keeps_bind; try tc_solve; [|intros ?]
  | |- keeps _ (mret _) => apply keeps_ret; tc_solve
  | |- keeps _ (ret _) => apply keeps_ret; tc_solve
  | |- keeps _ (throw _) => apply keeps_throw; tc_solve
  | |- keeps _ (eval _) => apply keeps_eval; tc_solve
  | |- keeps _ ask => apply keeps_ask; tc_solve
  | |- keeps _ get => apply keeps_get; tc_solve
  | |- keeps _ (attr _) => apply keeps_attr; tc_solve
  | |- keeps _ (when _ _) => apply keeps_when; try tc_solve
  | |- keeps _ (try_catch _ _) => apply keeps_try_catch; try tc_solve
  | |- keeps _ (for_each _ _) => apply keeps_for_each; try tc_solve; intros ?
  | |- keeps _ (repeat_M _ _) => apply keeps_repeat; try tc_solve
  | |- keeps _ (modify _) => apply keeps_modify; intros ?; cbv beta; side
  | |- keeps _ (field_infos _) => apply keeps_field_infos; tc_solve
  | |- keeps _ (if ?b then _ else _) => destruct b
  | |- keeps _ (match ?x with _ => _ end) => destruct x
  | |- keeps _ (?h _ _ _ _ _) => first [solve [auto with keeps] | unfold h]
  | |- keeps _ (?h _ _ _ _) => first [solve [auto with keeps] | unfold h]
  | |- keeps _ (?h _ _ _) => first [solve [auto with keeps] | unfold h]
  | |- keeps _ (?h _ _) => first [solve [auto with keeps] | unfold h]
  | |- keeps _ (?h _) => first [solve [auto with keeps] | unfold h]
  | |- keeps _ ?h => first [solve [auto with keeps] | unfold h]
  end.

Ltac keeps_all side := repeat (keeps_step side).

Create HintDb keeps.

(** ** The messages to the kernel *)

#[local] Instance sends_more_refl P : Reflexive (sends_more P).
Proof. intros v. exists []. now rewrite app_nil_r. Qed.

#[local] Instance sends_more_trans P : Transitive (sends_more P).
Proof.
  intros a b c (l1 & E1 & F1) (l2 & E2 & F2). exists (l1 ++ l2)%list.
  rewrite E2, E1, <- app_assoc. split; [reflexivity | now apply Forall_app].
Qed.

Lemma sent_app v l :
  sent (with_trace (trace v ++ l) v)
  = (sent v ++ omap (fun x => match x with Send m => Some m | _ => None end) l)%list.
Proof. unfold sent. simpl. apply omap_app. Qed.

Ltac sends_side :=
  idtac;
  lazymatch goal with
  | |- sends_more _ ?v (with_trace (trace ?v ++ [Send _]) ?v) =>
      eexists; split; [apply sent_app|]; simpl;
      repeat constructor; unfold known_event, event_names; simpl; set_solver
  | |- sends_more _ ?v (with_trace (trace ?v ++ [_]) ?v) =>
      exists []; split; [rewrite sent_app; reflexivity | constructor]
  | |- _ => exists []; split; [rewrite app_nil_r; reflexivity | constructor]
  end.

Lemma call_sends x : (forall m, x <> Send m) -> keeps (sends_more known_event) (call x).
Proof.
  intros H. apply keeps_modify. intros v. exists []. split; [|constructor].
  rewrite sent_app. destruct x; try reflexivity. now elim (H m).
Qed.

Lemma mode_changed_sends : keeps (sends_more known_event) mode_changed.
Proof. unfold mode_changed. keeps_all sends_side. Qed.

#[local] Hint Resolve mode_changed_sends : keeps.

Lemma draw_end_sends g : keeps (sends_more known_event) (draw_end g).
Proof. unfold draw_end. keeps_all sends_side. Qed.

Lemma basemap_changed_sends : keeps (sends_more known_event) basemap_changed.
Proof. unfold basemap_changed, on, new_number. keeps_all sends_side. Qed.

Lemma read_list_sends s : keeps (sends_more known_event) (read_list s).
Proof. unfold read_list. keeps_all sends_side. Qed.

#[local] Hint Resolve draw_end_sends basemap_changed_sends read_list_sends : keeps.

Lemma sync_layer_sends d : keeps (sends_more known_event) (sync_layer d).
Proof. unfold sync_layer. keeps_all sends_side. Qed.

Lemma field_infos_sends fs : keeps (sends_more known_event) (field_infos fs).
Proof. induction fs; simpl; keeps_all sends_side. Qed.

#[local] Hint Resolve sync_layer_sends field_infos_sends : keeps.

Lemma createTemplate_sends l : keeps (sends_more known_event) (createTemplate l).
Proof. unfold createTemplate. keeps_all sends_side. Qed.

Lemma basemap_records_sends ids : keeps (sends_more known_event) (basemap_records ids).
Proof. induction ids; simpl; keeps_all sends_side. Qed.

#[local] Hint Resolve createTemplate_sends basemap_records_sends : keeps.

Lemma layer_changed_sends : keeps (sends_more known_event) layer_changed.
Proof. unfold layer_changed. keeps_all sends_side. Qed.

#[local] Hint Resolve layer_changed_sends : keeps.

Lemma refresh_all_sends : keeps (sends_more known_event) refresh_all.
Proof. unfold refresh_all. keeps_all sends_side. Qed.

#[local] Hint Resolve refresh_all_sends : keeps.

Lemma load_map_sends : keeps (sends_more known_event) load_map.
Proof. unfold load_map. keeps_all sends_side. Qed.

#[local] Hint Resolve load_map_sends : keeps.

Lemma run_callback_sends c a : keeps (sends_more known_event) (run_callback c a).
Proof. destruct c; simpl; keeps_all sends_side. Qed.

#[local] Hint Resolve run_callback_sends : keeps.

Lemma run_chain_sends chain a : keeps (sends_more known_event) (run_chain chain a).
Proof. revert a. induction chain; intros; simpl; keeps_all sends_side. Qed.

#[local] Hint Resolve run_chain_sends : keeps.

Lemma react_sends i : keeps (sends_more known_event) (react i).
Proof. destruct i; simpl; keeps_all sends_side. Qed.

Lemma run_sends inputs : forall v, sends_more known_event v (run inputs v).
Proof.
  induction inputs as [|[e i] r IH]; intros v; simpl; [reflexivity|].
  etransitivity; [apply (react_sends i e v) | apply IH].
Qed.

(** [mode_changed] sends nothing. *)
Lemma mode_changed_silent : keeps (sends_more (fun _ => False)) mode_changed.
Proof. unfold mode_changed. keeps_all sends_side. Qed.

Lemma silent_sent {A} (m : M A) e v :
  keeps (sends_more (fun _ => False)) m -> sent (after m e v) = sent v.
Proof.
  intros H. destruct (H e v) as (l & E & F). rewrite E.
  destruct F as [|x l []]. apply app_nil_r.
Qed.

Lemma draw_end_sent g e v :
  sent (after (draw_end g) e v)
  = (sent v ++ match result (draw_end g) e v with
               | inr _ => [Msg "draw-end" g]
               | inl _ => []
               end)%list.
Proof.
  unfold result, after.
  cbv beta delta [draw_end mbind M_bind bind attr model_set modify get] iota. simpl.
  set (v1 := with_model (set_mode "navigate" (model v)) v).
  set (m := when _ _).
  assert (S : sent (after m e v1) = sent v).
  { rewrite silent_sent; [reflexivity|]. subst m.
    apply keeps_when; [tc_solve|]. apply keeps_repeat; try tc_solve.
    apply mode_changed_silent. }
  unfold after in S. destruct (m e v1) as [[x|[]] v2]; simpl in *.
  - now rewrite S, app_nil_r.
  - unfold sent in *. simpl. rewrite !omap_app, S. simpl. now rewrite app_nil_r.
Qed.

(** [mode_changed] while the mode is [navigate] deactivates the toolbar. *)
Lemma mode_changed_navigate_once e v :
  mode (model v) = "navigate" -> has_toolbar v = true ->
  mode_changed e v = (inr tt, with_trace (trace v ++ [Toolbar_deactivate]) v).
Proof.
  intros Hm Ht. unfold mode_changed. unfold_M. rewrite Hm. simpl.
  rewrite Ht. reflexivity.
Qed.

Lemma mode_changed_navigate n e v :
  mode (model v) = "navigate" -> has_toolbar v = true ->
  repeat_M n mode_changed e v
  = (inr tt, with_trace (trace v ++ repeat Toolbar_deactivate n) v).
Proof.
  revert v. induction n as [|n IH]; intros v Hm Ht.
  - simpl. rewrite app_nil_r. now destruct v.
  - cbn [repeat_M]. cbv beta iota delta [mbind M_bind bind].
    rewrite mode_changed_navigate_once by assumption.
    rewrite IH by assumption. simpl. now rewrite <- app_assoc.
Qed.

(** [draw_end] where it returns: the mode is [navigate] already, or
    nothing is subscribed to the model, or the toolbar is there for the
    [mode_changed] that the change of the mode calls. *)
Lemma draw_end_returns g e v :
  has_toolbar v = true \/ mode (model v) = "navigate" \/ model_on v = 0 ->
  let again := if String.eqb (mode (model v)) "navigate" then 0 else model_on v in
  let m := set_mode "navigate" (model v) in
  draw_end g e v
  = (inr tt,
     with_trace
       (trace v ++ repeat Toolbar_deactivate again
        ++ [Touch m; Send (Msg "draw-end" g)])
       (with_model m v)).
Proof.
  intros H again m. subst again. unfold draw_end. unfold_M. simpl.
  destruct (String.eqb (mode (model v)) "navigate") eqn:E; simpl.
  - rewrite <- !app_assoc. reflexivity.
  - destruct H as [Ht | [Hm | H0]].
    + rewrite mode_changed_navigate by (simpl; auto). simpl.
      rewrite <- !app_assoc. reflexivity.
    + rewrite Hm in E. discriminate.
    + rewrite H0. simpl. rewrite <- !app_assoc. reflexivity.
Qed.

(** C2. Every message the view sends to the kernel-side model has one of
    the event names [mouseclick], [draw-end] and [click], whatever happens
    to the view from when it is created; [mouse_clicked] sends [mouseclick]
    with the map point as message and [_handle_click] sends [click].
    [draw_end] returns when the toolbar is there, as it is when the toolbar
    calls [onDrawEnd], and also when the mode is [navigate] already or
    nothing is subscribed to the model: it has then set the mode to
    [navigate], synced, and sent [draw-end] with the geometry as message,
    which is the last thing it does. However it ends, it has sent this
    message if it returns and nothing if it throws. *)
Theorem sends_three_events :
  (forall inputs m, Forall known_event (sent (run inputs (new_view m))))
  /\ (forall g e v,
        mouse_clicked g e v
        = (inr tt, with_trace (trace v ++ [Send (Msg "mouseclick" g)]) v))
  /\ (forall g e v,
        has_toolbar v = true \/ mode (model v) = "navigate" \/ model_on v = 0 ->
        let again := if String.eqb (mode (model v)) "navigate" then 0 else model_on v in
        let m := set_mode "navigate" (model v) in
        draw_end g e v
        = (inr tt,
           with_trace
             (trace v ++ repeat Toolbar_deactivate again
              ++ [Touch m; Send (Msg "draw-end" g)])
             (with_model m v))
        /\ sent (after (draw_end g) e v) = (sent v ++ [Msg "draw-end" g])%list)
  /\ (forall g e v,
        sent (after (draw_end g) e v)
        = (sent v ++ match result (draw_end g) e v with
                     | inr _ => [Msg "draw-end" g]
                     | inl _ => []
                     end)%list)
  /\ (forall e v,
        _handle_click e v
        = (inr tt, with_trace (trace v ++ [Send (Msg "click" (VStr "xyz"))]) v)).
Proof.
  split; [|split; [|split; [|split]]].
  - intros inputs m. destruct (run_sends inputs (new_view m)) as (l & E & F).
    now rewrite E.
  - reflexivity.
  - intros g e v H again m. split; [now apply draw_end_returns|].
    rewrite draw_end_sent. unfold result.
    rewrite (draw_end_returns g e v H). reflexivity.
  - apply draw_end_sent.
  - reflexivity.
Qed.

Lemma sends_three_events_witness :
  has_toolbar sample_view = true
  /\ sent (after (draw_end sample_point) sample_env sample_view)
     = [Msg "draw-end" sample_point].
Proof.
  split; [reflexivity|].
  destruct sends_three_events as (_ & _ & H & _).
  destruct (H sample_point sample_env sample_view (or_introl eq_refl)) as [_ S].
  exact S.
Defined.

(** ** The centre of the map *)

(** C9. [center_changed] reverses the array that the model holds for
    [center] in place before it recentres the map: after one call the model
    holds the coordinates in reversed order, and a second call with no
    change of the model in between recentres the map at the coordinates in
    their first order. [load_map] reverses the array in the same way when
    it constructs the map from [center], on a view that has no map yet as
    on any other. *)
Theorem center_changed_reverses_in_place e v :
  (has_map v = true ->
   let v1 := after center_changed e v in
   let v2 := after center_changed e v1 in
   center (model v1) = rev (center (model v))
   /\ trace v1 = (trace v ++ [CenterAt (rev (center (model v)))])%list
   /\ center (model v2) = center (model v)
   /\ trace v2 = (trace v1 ++ [CenterAt (center (model v))])%list)
  /\ (nonblank (id (model v)) = false -> has_brace (_extent (model v)) = false ->
      let v' := after load_map e v in
      center (model v') = rev (center (model v))
      /\ New_Map (Options_center (_basemap (model v)) (rev (center (model v)))
                   (zoom (model v))) ∈ trace v').
Proof.
  split.
  - intros H. unfold center_changed. unfold_M. rewrite H. simpl. rewrite H. simpl.
    rewrite rev_involutive. repeat apply conj; reflexivity.
  - intros B X. unfold load_map, push_gallery_basemaps. unfold_M. simpl.
    rewrite B. simpl. rewrite X. simpl. split; [reflexivity|]. set_solver.
Qed.

Lemma center_changed_reverses_in_place_witness :
  has_map sample_view = true
  /\ center (model (after center_changed sample_env sample_view))
     = [number "34.05"; number "-118.24"]
  /\ center (model (after center_changed sample_env
                      (after center_changed sample_env sample_view)))
     = [number "-118.24"; number "34.05"]
  /\ has_map (new_view sample_model) = false
  /\ center (model (after load_map sample_env (new_view sample_model)))
     = [number "-118.24"; number "34.05"].
Proof.
  split; [reflexivity|].
  destruct (center_changed_reverses_in_place sample_env sample_view) as [H _].
  destruct (H eq_refl) as (H1 & _ & H3 & _).
  split; [exact H1 | split; [exact H3|]].
  split; [reflexivity|].
  destruct (center_changed_reverses_in_place sample_env (new_view sample_model))
    as [_ H'].
  destruct H' as [H4 _]; [vm_compute; reflexivity | vm_compute; reflexivity |].
  rewrite H4. reflexivity.
Defined.

(** ** The time extent *)

(** C10. With both [start_time] and [end_time] non-empty after trimming,
    [start_time_changed] and [end_time_changed] do the same: on a map they
    set the time extent whose start is the date of [start_time] and whose
    end is the date of [end_time]. A handler whose own attribute is empty
    or white space leaves the time extent of the map as it is. *)
Theorem time_handlers_agree e v :
  (nonblank (start_time (model v)) = true ->
   nonblank (end_time (model v)) = true ->
   start_time_changed e v = end_time_changed e v
   /\ (has_map v = true ->
       start_time_changed e v
       = (inr tt,
          with_trace
            (trace v ++
             [SetTimeExtent {| startTime := Date_new (start_time (model v));
                               endTime := Date_new (end_time (model v)) |}]) v)))
  /\ (nonblank (start_time (model v)) = false -> start_time_changed e v = (inr tt, v))
  /\ (nonblank (end_time (model v)) = false -> end_time_changed e v = (inr tt, v)).
Proof.
  unfold start_time_changed, end_time_changed, set_time_extent. unfold_M.
  repeat apply conj.
  - intros -> ->. split; [reflexivity|]. intros ->. reflexivity.
  - intros ->. reflexivity.
  - intros ->. reflexivity.
Qed.

Lemma time_handlers_agree_witness :
  start_time_changed sample_env (with_model timed_model sample_view)
  = end_time_changed sample_env (with_model timed_model sample_view).
Proof.
  exact (proj1 (proj1 (time_handlers_agree sample_env (with_model timed_model sample_view))
                  eq_refl eq_refl)).
Defined.

(** ** Constructing the map *)

Lemma extent_of_parsed text ext e v :
  parse text = Some ext -> nullish ext = false ->
  extent_of text e v
  = (inr {| xmin := prop ext "xmin"; xmax := prop ext "xmax";
            ymin := prop ext "ymin"; ymax := prop ext "ymax"; wkid := 4326 |}, v).
Proof.
  intros P N. unfold extent_of, JSON_parse, prop. unfold_M.
  cbn [to_string]. rewrite P.
  destruct ext; try discriminate; reflexivity.
Qed.

(** C7. [load_map] with a blank web-map id. If [_extent] contains a brace,
    the map is created with the basemap [_basemap] and the extent whose
    bounds are those of the parsed [_extent] and whose spatial reference is
    wkid 4326; if not, with the basemap, the reversed [center] and [zoom].
    With blank token information [render] is [load_map] and then the
    subscriptions to the model. *)
Theorem load_map_constructs_map e v :
  nonblank (id (model v)) = false ->
  let v' := after load_map e v in
  (forall ext,
     has_brace (_extent (model v)) = true ->
     parse (_extent (model v)) = Some ext -> nullish ext = false ->
     result load_map e v = inr tt /\ has_map v' = true
     /\ trace v'
        = (trace v ++
           [Keyboard_disable;
            New_Map (Options_extent (_basemap (model v))
                       {| xmin := prop ext "xmin"; xmax := prop ext "xmax";
                          ymin := prop ext "ymin"; ymax := prop ext "ymax";
                          wkid := 4326 |})])%list)
  /\ (has_brace (_extent (model v)) = false ->
      result load_map e v = inr tt /\ has_map v' = true
      /\ trace v'
         = (trace v ++
            [Keyboard_disable;
             New_Map (Options_center (_basemap (model v)) (rev (center (model v)))
                        (zoom (model v)))])%list)
  /\ (nonblank (_token_info (model v)) = false ->
      render e v = (load_map ;; subscribe_model) e v).
Proof.
  intros B v'. subst v'. repeat apply conj.
  - intros ext X P N. unfold load_map, push_gallery_basemaps. unfold_M. simpl.
    rewrite B. simpl. rewrite X. simpl.
    rewrite (extent_of_parsed _ ext) by assumption. simpl.
    rewrite <- app_assoc. repeat split.
  - intros X. unfold load_map, push_gallery_basemaps. unfold_M. simpl.
    rewrite B. simpl. rewrite X. simpl. rewrite <- app_assoc. repeat split.
  - intros T. unfold render. unfold_M. rewrite T. reflexivity.
Qed.

Lemma load_map_constructs_map_witness :
  trace (after load_map sample_env (new_view extent_model))
  = [Keyboard_disable;
     New_Map (Options_extent "streets"
                {| xmin := number "-118.5"; xmax := number "-117.6";
                   ymin := number "33.7"; ymax := number "34.3"; wkid := 4326 |})].
Proof.
  destruct (load_map_constructs_map sample_env (new_view extent_model) eq_refl)
    as [H _].
  destruct (H (VObj [("xmin", number "-118.5"); ("ymin", number "33.7");
                     ("xmax", number "-117.6"); ("ymax", number "34.3")])
              eq_refl eq_refl eq_refl) as (_ & _ & T).
  exact T.
Defined.

(** ** Token information *)

#[local] Instance calls_more_refl P : Reflexive (calls_more P).
Proof. intros v. exists []. now rewrite app_nil_r. Qed.

#[local] Instance calls_more_trans P : Transitive (calls_more P).
Proof.
  intros a b c (l1 & E1 & F1) (l2 & E2 & F2). exists (l1 ++ l2)%list.
  rewrite E2, E1, <- app_assoc. split; [reflexivity | now apply Forall_app].
Qed.

(** Proves that a change of the view makes no call, or one that is seen
    to be as wanted. *)
Ltac calls_side :=
  idtac;
  lazymatch goal with
  | |- calls_more _ ?v (with_trace (trace ?v ++ [_]) ?v) =>
      eexists; split; [reflexivity|]; repeat constructor
  | |- _ => exists []; split; [rewrite app_nil_r; reflexivity | constructor]
  end.

Lemma load_map_no_identity_call :
  keeps (calls_more (fun x => identity_call x = false)) load_map.
Proof. unfold load_map, push_gallery_basemaps, extent_of. keeps_all calls_side. Qed.

Lemma pending_last {A} (l : list (nat * A)) k (x : A) :
  Forall (fun p => fst p < k) l ->
  lookup_pending k (l ++ [(k, x)]) = Some x
  /\ remove_pending k (l ++ [(k, x)]) = l.
Proof.
  unfold lookup_pending, remove_pending.
  induction 1 as [|[j y] l Hj Hl [IH1 IH2]]; simpl in *.
  - rewrite bool_decide_eq_true_2 by reflexivity. split; [reflexivity|].
    rewrite filter_cons_False by (simpl; auto). reflexivity.
  - rewrite bool_decide_eq_false_2 by lia. split; [exact IH1|].
    rewrite filter_cons_True by (simpl; lia). now rewrite IH2.
Qed.

Lemma bind_unit (m : M unit) e v : (m ;; mret tt) e v = m e v.
Proof.
  unfold mbind, M_bind, bind, mret, M_ret, ret.
  destruct (m e v) as [[x|[]] v']; reflexivity.
Qed.

(** C5, as the code has it. With token information that is empty or white
    space, [render] is [load_map] followed by the subscriptions to the
    model, and calls nothing of the identity manager. With token
    information that is not, and that parses as JSON to a value other than
    [null], [render] registers the token server and asks for a token with
    the user name and password given, and does not load the map; when the
    request is fulfilled with a response other than [null], the token is
    registered and then the map is loaded, once, the request being no
    longer pending; when the request fails, nothing is called and no map is
    loaded. Token information that parses to [null], or that has [narrow]
    escapes and is no JSON, ends [render] in an exception before anything
    is called. *)
Theorem render_loads_map_after_token e v :
  (nonblank (_token_info (model v)) = false ->
   render e v = (load_map ;; subscribe_model) e v
   /\ calls_more (fun x => identity_call x = false) v (after render e v))
  /\ (forall token,
        nonblank (_token_info (model v)) = true ->
        parse (_token_info (model v)) = Some token -> nullish token = false ->
        promises_numbered v ->
        let server := prop token "server" in
        let tokenurl := prop token "tokenurl" in
        let username := prop token "username" in
        let password := prop token "password" in
        let v1 := after render e v in
        result render e v = inr tt
        /\ trace v1
           = (trace v ++
              [Cors_push server; RegisterServers server tokenurl;
               GenerateToken server tokenurl username password])%list
        /\ (forall e' response, nullish response = false ->
              react (In_settled (fresh v) (Fulfilled (Arg_value response))) e' v1
              = (call (RegisterToken server username (prop response "token")
                         (prop response "expires") (prop response "ssl"));;
                 load_map) e' (with_promises (promises v) v1))
        /\ (forall e',
              react (In_settled (fresh v) Rejected) e' v1
              = (inr tt, with_promises (promises v) v1)))
  /\ (nonblank (_token_info (model v)) = true ->
      parse (_token_info (model v)) = Some VNull ->
      render e v = (inl TypeError, v))
  /\ (nonblank (_token_info (model v)) = true ->
      narrow (_token_info (model v)) = true ->
      parse (_token_info (model v)) = None ->
      render e v = (inl SyntaxError, v)).
Proof.
  split; [|split; [|split]];
    [| |intros T P; unfold render, JSON_parse; unfold_M; rewrite T;
        cbn [to_string]; rewrite P; reflexivity
       |intros T _ P; unfold render, JSON_parse; unfold_M; rewrite T;
        cbn [to_string]; rewrite P; reflexivity].
  - intros T. assert (E : render e v = (load_map ;; subscribe_model) e v).
    { unfold render. unfold_M. rewrite T. reflexivity. }
    split; [exact E|]. unfold after. rewrite E.
    pose proof (load_map_no_identity_call e v) as (l & H & F).
    exists l. split; [|exact F]. rewrite <- H.
    unfold subscribe_model, after. unfold_M.
    destruct (load_map e v) as [[x|[]] v']; reflexivity.
  - intros token T P N Hp server tokenurl username password v1.
    assert (E : render e v
                = (inr tt,
                   with_model_on (S (model_on v))
                     (with_promises
                        (promises v ++
                         [(fresh v, [On_token_generated server username; On_token_registered])])
                        (with_fresh (S (fresh v))
                           (with_trace
                              (trace v ++
                               [Cors_push server; RegisterServers server tokenurl;
                                GenerateToken server tokenurl username password]) v))))).
    { unfold render, subscribe_model, JSON_parse. unfold_M. rewrite T.
      cbn [to_string]. rewrite P. subst server tokenurl username password.
      unfold prop. destruct token; try discriminate; simpl;
        rewrite <- !app_assoc; reflexivity. }
    subst v1. unfold result, after. rewrite E. cbn [fst snd].
    destruct (pending_last (promises v) (fresh v)
                [On_token_generated server username; On_token_registered] Hp)
      as [L R].
    repeat apply conj; try reflexivity.
    + intros e' response Nr. cbn [react]. unfold_M.
      cbn [promises with_model_on with_promises with_fresh with_trace].
      rewrite L. cbn [promises with_model_on with_promises with_fresh with_trace].
      rewrite R.
      cbn [run_chain run_callback arg_value].
      unfold on_token_generated, prop. unfold_M.
      destruct response; try discriminate; simpl;
        match goal with
        | |- context [load_map ?a ?b] => destruct (load_map a b) as [[x|[]] v']
        end; reflexivity.
    + intros e'. cbn [react]. unfold_M.
      cbn [promises with_model_on with_promises with_fresh with_trace].
      rewrite L. cbn [promises with_model_on with_promises with_fresh with_trace].
      rewrite R. reflexivity.
Qed.

Lemma render_loads_map_after_token_witness :
  trace (after render sample_env (new_view (token_model sample_token)))
  = [Cors_push (VStr "https://gis.example/arcgis");
     RegisterServers (VStr "https://gis.example/arcgis")
       (VStr "https://gis.example/arcgis/tokens");
     GenerateToken (VStr "https://gis.example/arcgis")
       (VStr "https://gis.example/arcgis/tokens") (VStr "amani") (VStr "secret")].
Proof.
  destruct (render_loads_map_after_token sample_env (new_view (token_model sample_token)))
    as (_ & H & _).
  destruct (H (VObj [("server", VStr "https://gis.example/arcgis");
                     ("tokenurl", VStr "https://gis.example/arcgis/tokens");
                     ("username", VStr "amani"); ("password", VStr "secret")])
              eq_refl eq_refl eq_refl (List.Forall_nil _)) as (_ & T & _).
  exact T.
Defined.

(** Token information that is no JSON text: [render] ends in the
    [SyntaxError] of [JSON.parse]. No map is loaded, and nothing is left
    that could load one later, nor a subscription to the model. *)
Lemma render_unparsable_token_loads_no_map :
  nonblank (_token_info (token_model "amani:secret")) = true
  /\ result render sample_env (new_view (token_model "amani:secret")) = inl SyntaxError
  /\ step sample_env In_render (new_view (token_model "amani:secret"))
     = new_view (token_model "amani:secret").
Proof. repeat split. Qed.

(** The request for a token fails: the map is never loaded. *)
Lemma rejected_token_loads_no_map :
  let v := run [(sample_env, In_render); (sample_env, In_settled 0 Rejected)]
               (new_view (token_model sample_token)) in
  Forall (fun x => match x with New_Map _ | CreateMap _ => False | _ => True end) (trace v)
  /\ promises v = [] /\ listeners v = [] /\ timers v = [].
Proof. vm_compute. repeat split; repeat constructor. Qed.

(** ** The extent of the map *)

#[local] Instance same_listening_refl t name : Reflexive (same_listening t name).
Proof. intros v. reflexivity. Qed.

#[local] Instance same_listening_trans t name : Transitive (same_listening t name).
Proof. intros a b c H1 H2. unfold same_listening in *. congruence. Qed.

Lemma listening_app t name v l :
  listening t name (with_listeners (listeners v ++ l) v)
  = (listening t name v
     ++ map callback (filter (fun x => target x = t /\ event_name x = name) l))%list.
Proof. unfold listening. simpl. now rewrite filter_app, map_app. Qed.

(** Proves that a change of the view adds no listener for the extent of
    the map. *)
Ltac listening_side :=
  idtac;
  lazymatch goal with
  | |- same_listening _ _ ?v (with_listeners (listeners ?v ++ [_]) ?v) =>
      unfold same_listening; rewrite listening_app;
      rewrite filter_cons_False by (simpl; intros [? ?]; discriminate);
      apply app_nil_r
  | |- _ => reflexivity
  end.

Lemma refresh_all_same_listening :
  keeps (same_listening The_map "extent-change") refresh_all.
Proof.
  unfold refresh_all, mode_changed, basemap_changed, layer_changed,
    start_time_changed, end_time_changed, set_time_extent, upgrade_url,
    add_plain_layer, add_feature_layer, add_imagery_layer, add_feature_collection,
    feature_layer_options, imagery_options, collection_layer_options,
    image_service_parameters, heatmap_with_field, createTemplate, sync_layer, read_list.
  keeps_all listening_side.
Qed.

Lemma on_webmap_created_same_listening :
  keeps (same_listening The_map "extent-change") on_webmap_created.
Proof.
  unfold on_webmap_created. keeps_all listening_side.
Qed.

Lemma on_load_eq e v : on_load e v = refresh_all e (on_load_wired v).
Proof.
  unfold on_load. unfold_M. simpl. unfold on_load_wired.
  rewrite <- !app_assoc. simpl. reflexivity.
Qed.

(** C8, as the code has it. [onExtentChange] sets [_jsextent] to the JSON
    text of the extent of the event and syncs the model, and that is what
    an [extent-change] event of the map does to a view on which it is the
    listener. [on_load] makes it a listener, so it holds of maps that the
    view has constructed from the properties of the model; the callback for
    a map made from a web-map id adds no listener for [extent-change]. *)
Theorem extent_change_syncs_jsextent e v evt extent :
  get_prop evt "extent" = inr extent ->
  let synced := set_jsextent (stringify extent) (model v) in
  let v' := with_trace (trace v ++ [Touch synced]) (with_model synced v) in
  onExtentChange evt e v = (inr tt, v')
  /\ (listening The_map "extent-change" v = [OnExtentChange] ->
      step e (In_event The_map "extent-change" (Arg_value evt)) v = v')
  /\ listening The_map "extent-change" (after on_load e v)
     = (listening The_map "extent-change" v ++ [OnExtentChange])%list
  /\ listening The_map "extent-change" (after on_webmap_created e v)
     = listening The_map "extent-change" v.
Proof.
  intros G synced v'.
  assert (E : onExtentChange evt e v = (inr tt, v')).
  { unfold onExtentChange, extent_change. unfold_M. rewrite G.
    destruct evt; try discriminate; reflexivity. }
  repeat apply conj.
  - exact E.
  - intros L. unfold step. cbn [react]. unfold_M. rewrite L.
    cbn [for_each run_callback arg_value]. unfold_M. now rewrite E.
  - pose proof (refresh_all_same_listening e (on_load_wired v)) as H.
    unfold same_listening, after in *. rewrite on_load_eq, H.
    unfold on_load_wired, listening. cbn [listeners with_listeners].
    rewrite filter_app, map_app. f_equal.
  - apply on_webmap_created_same_listening.
Qed.

Lemma extent_change_syncs_jsextent_witness :
  _jsextent (model (step sample_env
                      (In_event The_map "extent-change"
                         (Arg_value (VObj [("extent", sample_extent)])))
                      sample_view))
  = stringify sample_extent.
Proof.
  destruct (extent_change_syncs_jsextent sample_env sample_view
              (VObj [("extent", sample_extent)]) sample_extent eq_refl)
    as (_ & H & _).
  now rewrite (H eq_refl).
Defined.

(** A map made from a web-map id: an [extent-change] event of the map
    leaves the view, and [_jsextent] with it, as it was. *)
Lemma extent_change_of_web_map_not_synced :
  has_map webmap_view = true
  /\ step sample_env
       (In_event The_map "extent-change" (Arg_value (VObj [("extent", sample_extent)])))
       webmap_view
     = webmap_view
  /\ _jsextent (model webmap_view) <> stringify sample_extent.
Proof. repeat split. vm_compute. discriminate. Qed.

(** ** The basemap *)

Lemma basemap_title_eval e v l :
  basemap_title (Some l) e v
  = (inr (recorded_title (_basemap (model v)) (resourceInfo (layer_state e l))), v).
Proof.
  unfold basemap_title, recorded_title. unfold_M.
  cbv beta iota delta [mbind res_bind].
  destruct (JSON_parse (resourceInfo (layer_state e l))) as [x|info]; [reflexivity|].
  destruct (get_prop info "documentInfo") as [x|d]; [reflexivity|].
  destruct (get_prop d "Title"); reflexivity.
Qed.

Lemma basemap_record_eval e v i : is_Some (getLayer e i) ->
  basemap_record i e v = (inr (recorded_basemap e (_basemap (model v)) i), v).
Proof.
  intros [l H]. unfold basemap_record, recorded_basemap.
  cbv beta iota delta [mbind M_bind bind ask]. rewrite H.
  rewrite basemap_title_eval. reflexivity.
Qed.

Lemma basemap_records_eval e v ids : Forall (fun i => is_Some (getLayer e i)) ids ->
  basemap_records ids e v
  = (inr (map (recorded_basemap e (_basemap (model v))) ids), v).
Proof.
  induction 1 as [|i ids Hi Hl IH]; [reflexivity|].
  cbn [basemap_records map]. cbv beta iota delta [mbind M_bind bind].
  rewrite basemap_record_eval by assumption. rewrite IH. reflexivity.
Qed.

Lemma basemap_records_of e b ids :
  Forall (metadata_within e) ids ->
  Forall (fun i => is_Some (getLayer e i)) ids
  /\ Forall2 (basemap_record_of e b) ids (map (recorded_basemap e b) ids).
Proof.
  induction 1 as [|i ids (l & Hl & Hn) _ [IH1 IH2]]; [split; constructor|].
  split; constructor; try assumption.
  - now exists l.
  - exists l, (recorded_title b (resourceInfo (layer_state e l))).
    unfold recorded_basemap. rewrite Hl. auto using alike_refl.
Qed.




(** ** Drawn graphics and the layer list *)

Lemma decode_stringify_array l : decode_list (stringify_array l) = inr (map norm l).
Proof.
  unfold decode_list, JSON_parse. cbn [to_string].
  rewrite parse_stringify_array. reflexivity.
Qed.

(** A key that an object does not have is added at its end. *)
Lemma obj_set_fresh k x acc :
  k ∉ keys acc -> obj_set k x acc = (acc ++ [(k, x)])%list.
Proof.
  induction acc as [|[k0 y] acc IH]; simpl; intros H; [reflexivity|].
  apply not_elem_of_cons in H as [H1 H2].
  destruct (String.eqb_spec k k0) as [->|_]; [congruence|].
  now rewrite IH.
Qed.

Lemma fold_set_member_keys ds : forall acc,
  NoDup (keys acc ++ keys ds) ->
  keys (fold_left set_member ds acc) = (keys acc ++ keys ds)%list.
Proof.
  induction ds as [|[k x] ds IH]; intros acc D; simpl.
  - now rewrite app_nil_r.
  - unfold set_member at 2. cbn [fst snd].
    assert (F : k ∉ keys acc).
    { apply NoDup_app in D as (_ & D & _). intros H. apply (D k H). simpl. left. }
    rewrite obj_set_fresh by exact F.
    rewrite IH; unfold keys; rewrite map_app; simpl; rewrite <- app_assoc; [reflexivity|].
    exact D.
Qed.

(** What is read back from the text of an object with distinct keys has
    the keys of its members that have a value, in their order. *)
Lemma norm_members_keys_defined fs :
  NoDup (keys fs) -> keys (norm_members norm fs []) = keys (defined fs).
Proof.
  intros D. rewrite norm_members_defined. rewrite fold_set_member_keys; [reflexivity|].
  simpl. unfold defined, keys. induction fs as [|[k x] fs IH]; simpl; [constructor|].
  apply NoDup_cons in D as [D1 D2]. specialize (IH D2).
  destruct (negb (is_undefined x)); simpl; [|exact IH].
  apply NoDup_cons. split; [|exact IH].
  intros H. apply D1. apply list_elem_of_fmap in H as ([k' y] & -> & H).
  apply list_elem_of_In, filter_In in H as [H _]. apply list_elem_of_In in H.
  apply list_elem_of_fmap. now exists (k', y).
Qed.

(** The list that ends with a new record, written and read again: as many
    values before the record as there were, and a record with the keys of
    the members that have a value. *)
Lemma appended_record_read l fs :
  NoDup (keys fs) ->
  exists l' fs',
    decode_list (stringify_array (l ++ [VObj fs])) = inr (l' ++ [VObj fs'])%list
    /\ length l' = length l
    /\ keys fs' = keys (defined fs).
Proof.
  intros D. exists (map norm l), (norm_members norm fs []).
  rewrite decode_stringify_array, map_app. repeat split.
  - apply length_map.
  - now apply norm_members_keys_defined.
Qed.

(** C3. A [draw-end] event of the draw toolbar, on a view with a loaded
    map and a toolbar whose list of drawn graphics reads as [l]: the view
    adds a graphic with the drawn geometry and a simple fill symbol to the
    map, deactivates the toolbar, sets [mode] to [navigate], syncs and
    sends [draw-end] with the geometry, and writes to
    [_js_interactive_drawn_graphic] the text of a list that has one record
    of geometry and symbol after the values of [l], which are [alike] to
    what they were; read again, it is a list one longer that ends with an
    object with the keys [geometry] and [symbol] ([symbol] alone if the
    event had no geometry). *)
Theorem draw_end_event e v evtObj geometry l :
  get_prop evtObj "geometry" = inr geometry ->
  has_map v = true -> map_graphics e = true -> has_toolbar v = true ->
  decode_list (_js_interactive_drawn_graphic (model v)) = inr l ->
  let record :=
    VObj [("geometry", geometry); ("symbol", VObj (SimpleFillSymbol_props e))] in
  let again := if String.eqb (mode (model v)) "navigate" then 0 else model_on v in
  let v' := after (onDrawEnd evtObj) e v in
  result (onDrawEnd evtObj) e v = inr tt
  /\ trace v'
     = (trace v
        ++ [Graphics_add (Graphic_new geometry SimpleFillSymbol_new); Toolbar_deactivate]
        ++ repeat Toolbar_deactivate again
        ++ [Touch (set_mode "navigate" (model v));
            Send (Msg "draw-end" geometry);
            Touch (model v')])%list
  /\ mode (model v') = "navigate"
  /\ (exists l2,
        Forall2 alike l l2
        /\ _js_interactive_drawn_graphic (model v') = stringify_array (l2 ++ [record]))
  /\ (exists l' fs,
        decode_list (_js_interactive_drawn_graphic (model v')) = inr (l' ++ [VObj fs])%list
        /\ length l' = length l
        /\ keys fs = if is_undefined geometry then ["symbol"] else ["geometry"; "symbol"])
  /\ (listening The_toolbar "draw-end" v = [OnDrawEnd] ->
      step e (In_event The_toolbar "draw-end" (Arg_value evtObj)) v = v').
Proof.
  intros G Hm Hg Ht D record again v'.
  assert (E : onDrawEnd evtObj e v
              = (inr tt,
                 let m2 := set_js_interactive_drawn_graphic
                             (stringify_array (l ++ [record]))
                             (set_mode "navigate" (model v)) in
                 with_trace
                   (trace v
                    ++ [Graphics_add (Graphic_new geometry SimpleFillSymbol_new);
                        Toolbar_deactivate]
                    ++ repeat Toolbar_deactivate again
                    ++ [Touch (set_mode "navigate" (model v));
                        Send (Msg "draw-end" geometry); Touch m2])
                   (with_model m2 v))).
  { unfold onDrawEnd, draw_end, read_list. unfold_M. rewrite G. simpl.
    rewrite Hm, Hg. simpl. rewrite Ht. simpl.
    subst again. destruct (String.eqb (mode (model v)) "navigate"); simpl.
    - rewrite D. simpl. rewrite <- !app_assoc. reflexivity.
    - rewrite mode_changed_navigate by (simpl; auto). simpl.
      rewrite D. simpl. rewrite <- !app_assoc. reflexivity. }
  subst v'. unfold result, after. rewrite E. cbn [fst snd].
  repeat apply conj; try reflexivity.
  - exists l. split; [apply alike_all | reflexivity].
  - destruct (appended_record_read l
                [("geometry", geometry); ("symbol", VObj (SimpleFillSymbol_props e))])
      as (l' & fs & H1 & H2 & H3).
    { apply NoDup_cons. split; [|apply NoDup_singleton].
      intros H. apply list_elem_of_singleton in H. discriminate. }
    exists l', fs. repeat split; [exact H1 | exact H2 |].
    rewrite H3. destruct geometry; reflexivity.
  - intros L. unfold step. cbn [react]. unfold_M. rewrite L.
    cbn [for_each run_callback arg_value]. unfold_M. now rewrite E.
Qed.

Lemma draw_end_event_witness :
  _js_interactive_drawn_graphic
    (model (after (onDrawEnd (VObj [("geometry", sample_point)])) sample_env sample_view))
  = stringify_array
      [VObj [("geometry", sample_point);
             ("symbol", VObj [("type", VStr "esriSFS"); ("style", VStr "esriSFSSolid")])]].
Proof.
  destruct (draw_end_event sample_env sample_view (VObj [("geometry", sample_point)])
              sample_point [] eq_refl eq_refl eq_refl eq_refl eq_refl)
    as (_ & _ & _ & (l2 & L & H) & _).
  apply Forall2_length in L. destruct l2; [exact H | discriminate L].
Defined.

#[local] Instance same_listeners_refl : Reflexive same_listeners.
Proof. intros v. reflexivity. Qed.

#[local] Instance same_listeners_trans : Transitive same_listeners.
Proof. intros a b c H1 H2. unfold same_listeners in *. congruence. Qed.

Ltac listeners_side := idtac; reflexivity.

(** A callback that returns has gone through each of its steps. *)
Lemma bind_returns {A B} (m : M A) (k : A -> M B) e v b v' :
  (m ≫= k) e v = (inr b, v') ->
  exists a v1, m e v = (inr a, v1) /\ k a e v1 = (inr b, v').
Proof.
  unfold mbind, M_bind, bind. destruct (m e v) as [[x|a] v1]; [discriminate|].
  intros H. now exists a, v1.
Qed.

Lemma bind_returns_keeping R {A B} (m : M A) (k : A -> M B) e v b v' :
  keeps R m -> (m ≫= k) e v = (inr b, v') ->
  exists a v1, R v v1 /\ k a e v1 = (inr b, v').
Proof.
  intros K (a & v1 & H1 & H2)%bind_returns. exists a, v1. split; [|exact H2].
  specialize (K e v). unfold after in K. now rewrite H1 in K.
Qed.

(** Goes past the first step of a callback that returns, if the step
    leaves the listeners alone. *)
Ltac past_step H :=
  let a := fresh "a" in
  let v1 := fresh "v" in
  let L := fresh "L" in
  apply (bind_returns_keeping same_listeners) in H;
  [destruct H as (a & v1 & L & H); unfold same_listeners in L
  | solve [keeps_all listeners_side]].

(** A feature layer added by [layer_changed]: when [add_feature_layer]
    returns, the two [load] callbacks of the layer and its
    [renderer-change] callback are its listeners, in this order. *)
Lemma add_feature_layer_listens curbasemap newlayer e v v' :
  add_feature_layer curbasemap newlayer e v = (inr tt, v') ->
  let layer := fresh v in
  listening (A_layer layer) "load" v'
  = (listening (A_layer layer) "load" v
     ++ [On_feature_load_sync layer;
         On_feature_load_template layer curbasemap newlayer])%list
  /\ exists lyr_options,
       listening (A_layer layer) "renderer-change" v'
       = (listening (A_layer layer) "renderer-change" v
          ++ [On_renderer_change layer lyr_options])%list.
Proof.
  unfold add_feature_layer. intros H.
  apply bind_returns in H as (url & v1 & E1 & H).
  assert (v1 = v) as -> by (unfold eval in E1; now inversion E1).
  apply bind_returns in H as (layer & v2 & E2 & H).
  assert (layer = fresh v /\ listeners v2 = listeners v) as [-> L2].
  { unfold new_number in E2. unfold_M. now inversion E2. }
  repeat past_step H.
  assert (exists lyr_options h1 h2 h3, listeners v' = (listeners v ++
            [{| handle := h1; target := A_layer (fresh v); event_name := "load";
                callback := On_feature_load_sync (fresh v) |};
             {| handle := h2; target := A_layer (fresh v);
                event_name := "renderer-change";
                callback := On_renderer_change (fresh v) lyr_options |};
             {| handle := h3; target := A_layer (fresh v);
                event_name := "load";
                callback := On_feature_load_template (fresh v) curbasemap newlayer |}])%list)
    as (lyr_options & h1 & h2 & h3 & Lv).
  { unfold on, new_number in H. unfold_M. simpl in H. inversion H; subst. simpl.
    do 4 eexists. rewrite <- !app_assoc. simpl.
    repeat match goal with
           | E : listeners _ = listeners _ |- _ => rewrite E; clear E
           end.
    reflexivity. }
  unfold listening. rewrite Lv. rewrite !filter_app, !map_app.
  split; [|exists lyr_options]; f_equal.
  - rewrite !filter_cons, filter_nil. simpl.
    repeat case_decide; try reflexivity; exfalso; intuition congruence.
  - rewrite !filter_cons, filter_nil. simpl.
    repeat case_decide; try reflexivity; exfalso; intuition congruence.
Qed.

Lemma feature_layer_dict_keys b state :
  NoDup (keys (feature_layer_dict b state)).
Proof.
  unfold feature_layer_dict. destruct (renderer state); simpl;
    apply (bool_decide_unpack _); vm_compute; exact I.
Qed.

(** C4, as the code has it. The [load] callback of a feature layer that
    [layer_changed] has added, on a view whose layer list reads as [l]: the
    descriptor that the callback builds has the keys [id], [normalization],
    [refreshInterval] and [url], in this order, followed by [renderer] and
    [rendererType] if and only if the layer has a renderer at that time,
    with the values of the layer, [renderer] being [renderer.toJson()] and
    [rendererType] the declared class. The callback writes to
    [_js_layer_list] the text of a list that has the descriptor after the
    values of [l], which are [alike] to what they were, and syncs. In that
    text a member whose value is
    [undefined] is left out: read again, the list is one longer and ends
    with an object whose keys are those of the members of the descriptor
    that have a value.  That [layer_changed] registers this callback for
    the [load] event of the layer is [add_feature_layer_listens]. *)
Theorem feature_layer_load_appends_descriptor e v layer l :
  decode_list (_js_layer_list (model v)) = inr l ->
  let state := layer_state e layer in
  let _layerDict := feature_layer_dict true state in
  let v' := after (on_feature_load_sync layer) e v in
  keys _layerDict
  = (["id"; "normalization"; "refreshInterval"; "url"]
     ++ match renderer state with
        | Some _ => ["renderer"; "rendererType"]
        | None => []
        end)%list
  /\ (In "renderer" (keys _layerDict) <-> is_Some (renderer state))
  /\ (In "rendererType" (keys _layerDict) <-> is_Some (renderer state))
  /\ assoc "id" _layerDict = Some (layer_id state)
  /\ assoc "normalization" _layerDict = Some (normalization state)
  /\ assoc "refreshInterval" _layerDict = Some (refreshInterval state)
  /\ assoc "url" _layerDict = Some (layer_url state)
  /\ (forall r, renderer state = Some r ->
        assoc "renderer" _layerDict = Some (toJson r)
        /\ assoc "rendererType" _layerDict = Some (declaredClass r))
  /\ result (on_feature_load_sync layer) e v = inr tt
  /\ (exists l2,
        Forall2 alike l l2
        /\ _js_layer_list (model v') = stringify_array (l2 ++ [VObj _layerDict]))
  /\ trace v' = (trace v ++ [Touch (model v')])%list
  /\ exists l' fs,
       decode_list (_js_layer_list (model v')) = inr (l' ++ [VObj fs])%list
       /\ length l' = length l
       /\ keys fs = keys (defined _layerDict).
Proof.
  intros D state _layerDict v'.
  assert (E : on_feature_load_sync layer e v
              = (inr tt,
                 let m := set_js_layer_list
                            (stringify_array (l ++ [VObj _layerDict])) (model v) in
                 with_trace (trace v ++ [Touch m]) (with_model m v))).
  { unfold on_feature_load_sync, sync_layer, read_list. unfold_M.
    rewrite D. reflexivity. }
  subst v'. unfold result, after. rewrite E. cbn [fst snd].
  assert (R := appended_record_read l _layerDict (feature_layer_dict_keys true state)).
  subst _layerDict. unfold feature_layer_dict in *.
  repeat apply conj; try reflexivity.
  - destruct (renderer state); reflexivity.
  - destruct (renderer state); simpl; [eauto|]. intros H. intuition discriminate.
  - intros [r H]. rewrite H. simpl. auto 10.
  - destruct (renderer state); simpl; [eauto|]. intros H. intuition discriminate.
  - intros [r H]. rewrite H. simpl. auto 10.
  - intros r ->. split; reflexivity.
  - exists l. split; [apply alike_all | reflexivity].
  - exact R.
Qed.

Lemma feature_layer_load_appends_descriptor_witness :
  _js_layer_list (model (after (on_feature_load_sync 1) sample_env sample_view))
  = js_text ("[{'id':'graphicsLayer1','refreshInterval':0," ++
             "'url':'https://services.example/FeatureServer/0'," ++
             "'renderer':{'type':'simple'}," ++
             "'rendererType':'esri.renderer.SimpleRenderer'}]").
Proof.
  destruct (feature_layer_load_appends_descriptor sample_env sample_view 1 [] eq_refl)
    as (_ & _ & _ & _ & _ & _ & _ & _ & _ & (l2 & L & H) & _).
  apply Forall2_length in L. destruct l2; [|discriminate L]. rewrite H. reflexivity.
Defined.

(** A feature layer that has no [normalization], on a view with an empty
    layer list: the descriptor has the key, with the value [undefined], and
    the record in the text of [_js_layer_list] has no such key. *)
Lemma descriptor_is_stored_without_undefined :
  let state := layer_state sample_env 1 in
  let v' := after (on_feature_load_sync 1) sample_env sample_view in
  assoc "normalization" (feature_layer_dict true state) = Some VUndefined
  /\ (exists fs,
        decode_list (_js_layer_list (model v')) = inr [VObj fs]
        /\ keys fs = ["id"; "refreshInterval"; "url"; "renderer"; "rendererType"])
  /\ _js_layer_list (model v')
     = js_text ("[{'id':'graphicsLayer1','refreshInterval':0," ++
                "'url':'https://services.example/FeatureServer/0'," ++
                "'renderer':{'type':'simple'}," ++
                "'rendererType':'esri.renderer.SimpleRenderer'}]").
Proof.
  repeat split.
  eexists. split; vm_compute; reflexivity.
Qed.

(** ** The list attributes hold list texts *)

#[local] Instance writes_lists_refl : Reflexive writes_lists.
Proof.
  intros v H. split; [exact H|]. exists []. now rewrite app_nil_r.
Qed.

#[local] Instance writes_lists_trans : Transitive writes_lists.
Proof.
  intros a b c H1 H2 Ha. destruct (H1 Ha) as (Hb & l1 & E1 & F1).
  destruct (H2 Hb) as (Hc & l2 & E2 & F2). split; [exact Hc|].
  exists (l1 ++ l2)%list. rewrite E2, E1, <- app_assoc.
  split; [reflexivity | now apply Forall_app].
Qed.

Lemma synced_app v l :
  synced (with_trace (trace v ++ l) v)
  = (synced v ++ omap (fun x => match x with Touch m => Some m | _ => None end) l)%list.
Proof. unfold synced. simpl. apply omap_app. Qed.

(** Proves that a change of the view leaves list texts in the list
    attributes. *)
Ltac lists_side :=
  idtac;
  let H := fresh "H" in
  intros H;
  lazymatch goal with
  | |- _ /\ exists _, synced (with_trace (trace ?v ++ [_]) ?v) = _ /\ _ =>
      split; [exact H|]; exists []; split; [rewrite synced_app; reflexivity | constructor]
  | |- _ =>
      split;
      [destruct H; split; simpl;
       first [assumption | left; reflexivity | right; eexists; reflexivity]
      | exists []; split; [rewrite app_nil_r; reflexivity | constructor]]
  end.

Lemma update_last_renderer_list e j c l text :
  update_last_renderer e j c (VArr l) = inr text -> list_text text.
Proof.
  simpl. destruct (last l) as [x|]; [|discriminate].
  destruct (put_renderer j c x) as [?|x']; simpl; [discriminate|].
  intros [= <-]. right. eexists. reflexivity.
Qed.

(** What follows the reading of an attribute may be looked at with the
    value that the view holds. *)
Lemma keeps_attr_bind R {A B} (f : Model -> A) (k : A -> M B) :
  (forall e v, R v (after (k (f (model v))) e v)) ->
  keeps R (x ← attr f; k x).
Proof. intros H e v. exact (H e v). Qed.

Lemma on_renderer_change_lists layer lyr_options :
  keeps writes_lists (on_renderer_change layer lyr_options).
Proof.
  unfold on_renderer_change.
  destruct lyr_options;
    repeat first [apply keeps_attr_bind; intros e v | keeps_step lists_side].
  all: intros Hok; pose proof Hok as [[E|[l E]] H2]; rewrite E.
  all: try (split; [exact Hok|]; exists []; now rewrite app_nil_r).
  all: unfold when; simpl negb; cbv iota.
  all: unfold after, JSON_parse; cbn [to_string]; unfold_M.
  all: rewrite parse_stringify_array.
  all: destruct (renderer (layer_state e layer)) as [rr|];
    [|split; [exact Hok|]; exists []; now rewrite app_nil_r].
  all: destruct (update_last_renderer e (toJson rr) (declaredClass rr) (VArr (map norm l)))
      as [x|text] eqn:U;
    [split; [exact Hok|]; exists []; now rewrite app_nil_r|].
  all: apply update_last_renderer_list in U.
  all: assert (W : lists_written (set_js_layer_list text (model v))) by (split; assumption).
  all: cbn [snd]; split; [exact W|]; exists [set_js_layer_list text (model v)].
  all: split; [unfold synced; simpl; now rewrite omap_app | constructor; [exact W | constructor]].
Qed.

#[local] Hint Resolve on_renderer_change_lists : keeps.

Lemma touch_lists : keeps writes_lists touch.
Proof.
  intros e v H. split; [exact H|]. exists [model v]. split.
  - unfold synced. simpl. now rewrite omap_app.
  - constructor; [exact H | constructor].
Qed.

#[local] Hint Resolve touch_lists : keeps.

Lemma basemap_records_lists ids : keeps writes_lists (basemap_records ids).
Proof. induction ids; simpl; keeps_all lists_side. Qed.

#[local] Hint Resolve basemap_records_lists : keeps.

Lemma run_callback_lists c a : keeps writes_lists (run_callback c a).
Proof. destruct c; simpl; keeps_all lists_side. Qed.

#[local] Hint Resolve run_callback_lists : keeps.

Lemma run_chain_lists chain a : keeps writes_lists (run_chain chain a).
Proof. revert a. induction chain; intros; simpl; keeps_all lists_side. Qed.

#[local] Hint Resolve run_chain_lists : keeps.

Lemma react_lists i : kernel_keeps_lists i -> keeps writes_lists (react i).
Proof.
  intros K. destruct i; simpl.
  2: { apply keeps_modify. intros v _. split; [exact K|]. exists [].
       split; [now rewrite app_nil_r | constructor]. }
  all: keeps_all lists_side.
Qed.

Lemma run_lists inputs :
  forall v, Forall (fun ei => kernel_keeps_lists (snd ei)) inputs ->
            writes_lists v (run inputs v).
Proof.
  induction inputs as [|[e i] r IH]; intros v F; simpl; [reflexivity|].
  inversion F; subst.
  etransitivity; [apply (react_lists i); assumption | now apply IH].
Qed.

#[local] Instance writes_list_text_refl g : Reflexive (writes_list_text g).
Proof. intros v. now left. Qed.

#[local] Instance writes_list_text_trans g : Transitive (writes_list_text g).
Proof.
  intros a b c [H1|H1] [H2|H2]; unfold writes_list_text.
  - left. congruence.
  - now right.
  - right. now rewrite H2.
  - now right.
Qed.

(** Proves that a change of the view leaves the attribute as it is or writes
    a list text. *)
Ltac list_text_side :=
  idtac;
  first [left; reflexivity
        | right; left; reflexivity
        | right; right; eexists; reflexivity].

Lemma mode_changed_list_text :
  keeps (writes_list_text _js_interactive_drawn_graphic) mode_changed.
Proof. unfold mode_changed. keeps_all list_text_side. Qed.

#[local] Hint Resolve mode_changed_list_text : keeps.

Lemma onDrawEnd_list_text evtObj :
  keeps (writes_list_text _js_interactive_drawn_graphic) (onDrawEnd evtObj).
Proof. unfold onDrawEnd, draw_end, read_list. keeps_all list_text_side. Qed.

Lemma on_feature_load_sync_list_text layer :
  keeps (writes_list_text _js_layer_list) (on_feature_load_sync layer).
Proof. unfold on_feature_load_sync, sync_layer, read_list. keeps_all list_text_side. Qed.

(** The [renderer-change] callback leaves a view alone whose layer list is
    the empty string. *)
Lemma on_renderer_change_empty layer lyr_options e v :
  _js_layer_list (model v) = "" ->
  after (on_renderer_change layer lyr_options) e v = v.
Proof.
  intros E. unfold on_renderer_change.
  destruct lyr_options; unfold_M; try reflexivity.
  all: simpl; rewrite ?E; simpl.
  all: repeat match goal with
         | |- context [match ?x with _ => _ end] =>
             destruct x; simpl; rewrite ?E; simpl; try reflexivity
         end.
Qed.

(** And one whose layer list is the empty array. *)
Lemma on_renderer_change_empty_array layer lyr_options e v :
  after (on_renderer_change layer lyr_options) e (with_empty_layer_list v)
  = with_empty_layer_list v.
Proof.
  unfold on_renderer_change.
  destruct lyr_options; unfold_M; try reflexivity.
  all: simpl.
  all: repeat match goal with
         | |- context [match ?x with _ => _ end] => destruct x; simpl; try reflexivity
         end.
Qed.

(** C1. The attributes [_js_layer_list] and [_js_interactive_drawn_graphic]
    hold the empty string or the JSON text of an array: from a model where
    they do, and with a kernel that sets nothing else in them, they do
    after whatever happens to the view, and so do they in every model that
    the view syncs.  What [onDrawEnd] and the [load] callback of a layer
    write is the JSON text of an array whatever the attribute held, and so
    is what [mode_changed] leaves.  Read, the empty string is the empty
    list; the [renderer-change] callback leaves the view alone on the empty
    string as it does on the empty array.  In mode [###clear_graphics] on a
    map with graphics, [mode_changed] resets
    [_js_interactive_drawn_graphic] to the empty string. *)
Theorem list_attributes_hold_list_texts :
  (forall inputs m,
      lists_written m ->
      Forall (fun ei => kernel_keeps_lists (snd ei)) inputs ->
      lists_written (model (run inputs (new_view m)))
      /\ Forall lists_written (synced (run inputs (new_view m))))
  /\ (forall evtObj,
        keeps (writes_list_text _js_interactive_drawn_graphic) (onDrawEnd evtObj))
  /\ (forall layer,
        keeps (writes_list_text _js_layer_list) (on_feature_load_sync layer))
  /\ keeps (writes_list_text _js_interactive_drawn_graphic) mode_changed
  /\ decode_list "" = inr []
  /\ (forall layer lyr_options e v,
        _js_layer_list (model v) = "" ->
        after (on_renderer_change layer lyr_options) e v = v
        /\ after (on_renderer_change layer lyr_options) e (with_empty_layer_list v)
           = with_empty_layer_list v)
  /\ (forall e v,
        mode (model v) = "###clear_graphics" ->
        has_map v = true -> map_graphics e = true ->
        result mode_changed e v = inr tt
        /\ model (after mode_changed e v)
           = set_js_interactive_drawn_graphic "" (model v)
        /\ _js_interactive_drawn_graphic (model (after mode_changed e v)) = "").
Proof.
  repeat apply conj.
  - intros inputs m Hm F.
    destruct (run_lists inputs (new_view m) F Hm) as (H & l & E & Fl).
    split; [exact H|]. rewrite E. exact Fl.
  - apply onDrawEnd_list_text.
  - apply on_feature_load_sync_list_text.
  - apply mode_changed_list_text.
  - reflexivity.
  - intros layer lyr_options e v E. split.
    + now apply on_renderer_change_empty.
    + apply on_renderer_change_empty_array.
  - intros e v Hm Hv Hg. unfold mode_changed. unfold_M. rewrite Hm. simpl.
    rewrite Hv, Hg. simpl. auto.
Qed.


Lemma list_attributes_hold_list_texts_witness :
  (lists_written (model (run drawing_inputs (new_view sample_model)))
   /\ Forall lists_written (synced (run drawing_inputs (new_view sample_model))))
  /\ _js_interactive_drawn_graphic (model (after mode_changed sample_env clearing_view))
     = "".
Proof.
  destruct list_attributes_hold_list_texts as (H1 & _ & _ & _ & _ & _ & H7).
  split.
  - apply (H1 drawing_inputs sample_model).
    + split; left; reflexivity.
    + repeat constructor.
  - apply (H7 sample_env clearing_view); vm_compute; reflexivity.
Defined.

(** * Further properties of the view *)

(** ** What the view leaves to the kernel *)

#[local] Instance same_kernel_owned_refl : Reflexive same_kernel_owned.
Proof. intros v. reflexivity. Qed.

#[local] Instance same_kernel_owned_trans : Transitive same_kernel_owned.
Proof. intros a b c H1 H2. unfold same_kernel_owned in *. congruence. Qed.

Ltac owned_side := idtac; reflexivity.

Lemma basemap_records_owned ids : keeps same_kernel_owned (basemap_records ids).
Proof. induction ids; simpl; keeps_all owned_side. Qed.

#[local] Hint Resolve basemap_records_owned : keeps.

Lemma run_callback_owned c a : keeps same_kernel_owned (run_callback c a).
Proof. destruct c; simpl; keeps_all owned_side. Qed.

#[local] Hint Resolve run_callback_owned : keeps.

Lemma run_chain_owned chain a : keeps same_kernel_owned (run_chain chain a).
Proof. revert a. induction chain; intros; simpl; keeps_all owned_side. Qed.

#[local] Hint Resolve run_chain_owned : keeps.

Lemma react_owned i : from_kernel i = false -> keeps same_kernel_owned (react i).
Proof. intros K. destruct i; try discriminate; simpl; keeps_all owned_side. Qed.

(** X1. Whatever happens to the view apart from state updates of the
    kernel, the attributes [_token_info], [_gallerybasemaps],
    [_gbasemaps_def], [id], [_arcgis_url], [_extent], [_basemap], [zoom],
    [_addlayer], [start_time], [end_time], [_layerId_to_remove] and
    [_swipe_div] of the model stay as they are: the view writes none of
    them. *)
Theorem view_writes_no_kernel_attribute inputs v :
  Forall (fun ei => from_kernel (snd ei) = false) inputs ->
  kernel_owned (model (run inputs v)) = kernel_owned (model v).
Proof.
  revert v. induction inputs as [|[e i] r IH]; intros v F; simpl; [reflexivity|].
  inversion F; subst. rewrite IH by assumption.
  now apply (react_owned i).
Qed.

Lemma view_writes_no_kernel_attribute_witness :
  kernel_owned (model (run drawing_inputs (new_view sample_model)))
  = kernel_owned (model (new_view sample_model)).
Proof.
  apply (view_writes_no_kernel_attribute drawing_inputs (new_view sample_model)).
  repeat constructor.
Defined.

(** ** Which callbacks send *)

Ltac silent_side :=
  idtac;
  lazymatch goal with
  | |- sends_more _ ?v (with_trace (trace ?v ++ [_]) ?v) =>
      exists []; split; [rewrite sent_app; reflexivity | constructor]
  | |- _ => exists []; split; [rewrite app_nil_r; reflexivity | constructor]
  end.

Lemma basemap_records_silent ids :
  keeps (sends_more (fun _ => False)) (basemap_records ids).
Proof. induction ids; simpl; keeps_all silent_side. Qed.

#[local] Hint Resolve basemap_records_silent : keeps.

Lemma refresh_all_silent : keeps (sends_more (fun _ => False)) refresh_all.
Proof. unfold refresh_all. keeps_all silent_side. Qed.

#[local] Hint Resolve refresh_all_silent : keeps.

Lemma load_map_silent : keeps (sends_more (fun _ => False)) load_map.
Proof. unfold load_map. keeps_all silent_side. Qed.

#[local] Hint Resolve load_map_silent : keeps.

(** X2. The view sends a message to the kernel in three callbacks only,
    [onDrawEnd], [onMouseClick] and the click on its element: [render],
    the ten handlers of model changes, and every other callback that the
    view gives to the map, a layer, a promise or a timer send nothing,
    however they end. *)
Theorem only_draw_end_and_clicks_send e v :
  sent (after render e v) = sent v
  /\ (forall c, sent (after (change_handler c) e v) = sent v)
  /\ (forall c a, c <> OnDrawEnd -> c <> OnMouseClick ->
        sent (after (run_callback c a) e v) = sent v).
Proof.
  repeat apply conj.
  - apply silent_sent. unfold render. keeps_all silent_side.
  - intros c. apply silent_sent. destruct c; simpl; keeps_all silent_side.
  - intros c a H1 H2. apply silent_sent.
    destruct c; try congruence; simpl; keeps_all silent_side.
Qed.

Lemma only_draw_end_and_clicks_send_witness :
  sent (after (run_callback On_load Arg_map) sample_env
          (step sample_env In_render (new_view sample_model)))
  = sent (step sample_env In_render (new_view sample_model)).
Proof.
  destruct (only_draw_end_and_clicks_send sample_env
              (step sample_env In_render (new_view sample_model))) as (_ & _ & H).
  apply H; discriminate.
Defined.

(** ** Changes of the model before the map is there *)

(** X3. While the view has neither map nor toolbar, a handler of a model
    change throws and leaves the view as it is, so the change is not
    applied and nothing is kept for later. The exceptions are
    [gallerybasemaps_changed], which needs no map, and the two time
    handlers when their attribute is blank, which return without doing
    anything. *)
Theorem change_handlers_need_the_map c e v :
  has_map v = false -> has_toolbar v = false ->
  c <> Change_gallerybasemaps ->
  (c = Change_start_time -> nonblank (start_time (model v)) = true) ->
  (c = Change_end_time -> nonblank (end_time (model v)) = true) ->
  after (change_handler c) e v = v
  /\ exists x, result (change_handler c) e v = inl x.
Proof.
  intros Hm Ht Hg Hs He.
  destruct c; try congruence; simpl.
  all: unfold zoom_changed, mode_changed, extent_changed, extent_of, center_changed,
         basemap_changed, layer_changed, start_time_changed, end_time_changed,
         set_time_extent, remove_layer.
  all: unfold_M; rewrite ?Hm, ?Ht, ?Hs, ?He by reflexivity; simpl.
  all: repeat (simpl; rewrite ?Hm, ?Ht; simpl;
               match goal with
               | |- context [String.eqb ?a ?b] => destruct (String.eqb a b)
               | |- context [has_brace ?a] => destruct (has_brace a)
               | |- context [JSON_parse ?a] => destruct (JSON_parse a)
               | |- context [graphic_symbol_null ?a ?b] =>
                   destruct (graphic_symbol_null a b)
               | |- context [graphic_geometry_type ?a ?b] =>
                   destruct (graphic_geometry_type a b)
               | |- context [get_prop ?a ?b] => destruct (get_prop a b)
               end).
  all: simpl; rewrite ?Hm, ?Ht; simpl; eauto.
Qed.

Lemma change_handlers_need_the_map_witness :
  after (change_handler Change_mode) sample_env (new_view sample_model)
  = new_view sample_model
  /\ exists x, result (change_handler Change_mode) sample_env (new_view sample_model)
               = inl x.
Proof.
  apply (change_handlers_need_the_map Change_mode sample_env (new_view sample_model));
    try reflexivity; discriminate.
Defined.

(** ** The wiring of the map *)

#[local] Instance same_objects_refl : Reflexive same_objects.
Proof. intros v. split; reflexivity. Qed.

#[local] Instance same_objects_trans : Transitive same_objects.
Proof. intros a b c [H1 H2] [H3 H4]. unfold same_objects. split; congruence. Qed.

Ltac objects_side := idtac; split; reflexivity.

Lemma basemap_records_objects ids : keeps same_objects (basemap_records ids).
Proof. induction ids; simpl; keeps_all objects_side. Qed.

#[local] Hint Resolve basemap_records_objects : keeps.

Lemma refresh_all_objects : keeps same_objects refresh_all.
Proof. unfold refresh_all. keeps_all objects_side. Qed.

Lemma refresh_all_calls : keeps (calls_more (fun _ => True)) refresh_all.
Proof.
  unfold refresh_all, mode_changed, basemap_changed, layer_changed,
    start_time_changed, end_time_changed, set_time_extent, upgrade_url,
    add_plain_layer, add_feature_layer, add_imagery_layer, add_feature_collection,
    feature_layer_options, imagery_options, collection_layer_options,
    image_service_parameters, heatmap_with_field, createTemplate, sync_layer, read_list.
  keeps_all calls_side.
Qed.

Section Wiring.
Context (t : Target) (name : string).
Hypothesis not_basemap_change : name <> "basemap-change".
Hypothesis no_layer : forall l, t <> A_layer l.

(** Proves that a change of the view adds no listener for [name] on
    [t]. *)
Ltac wiring_side :=
  idtac;
  lazymatch goal with
  | |- same_listening _ _ ?v (with_listeners (listeners ?v ++ [_]) ?v) =>
      unfold same_listening; rewrite listening_app;
      rewrite filter_cons_False
        by (simpl; intros [E1 E2]; subst;
            solve [congruence | exact (no_layer _ eq_refl)]);
      apply app_nil_r
  | |- _ => reflexivity
  end.

(** The five calls that end [on_load] add listeners for the change of the
    basemap and for events of layers, and no other. *)
Lemma refresh_all_wiring : keeps (same_listening t name) refresh_all.
Proof using not_basemap_change no_layer.
  unfold refresh_all, mode_changed, basemap_changed, layer_changed,
    start_time_changed, end_time_changed, set_time_extent, upgrade_url,
    add_plain_layer, add_feature_layer, add_imagery_layer, add_feature_collection,
    feature_layer_options, imagery_options, collection_layer_options,
    image_service_parameters, heatmap_with_field, createTemplate, sync_layer, read_list.
  keeps_all wiring_side.
Qed.

End Wiring.

Lemma listening_wired t name v :
  listening t name (on_load_wired v)
  = (listening t name v
     ++ map callback
          (filter (fun x => target x = t /\ event_name x = name)
             [{| handle := fresh v; target := The_map; event_name := "mouse-drag-start";
                 callback := On_mouse_drag_start |};
              {| handle := S (fresh v); target := The_map; event_name := "mouse-out";
                 callback := On_mouse_out |};
              {| handle := S (S (fresh v)); target := The_toolbar;
                 event_name := "draw-end"; callback := OnDrawEnd |};
              {| handle := S (S (S (fresh v))); target := The_map;
                 event_name := "extent-change"; callback := OnExtentChange |};
              {| handle := S (S (S (S (fresh v)))); target := The_map;
                 event_name := "click"; callback := OnMouseClick |}]))%list.
Proof.
  unfold on_load_wired, listening. cbn [listeners with_listeners].
  now rewrite filter_app, map_app.
Qed.

(** X4. The [load] callback of the map, whatever the model holds and
    however the five calls at its end go: the keyboard manager is enabled
    again, keyboard and map navigation are disabled and the draw toolbar is
    made before anything else is called; the view has a toolbar after it;
    and one listener each is added for [mouse-drag-start], [mouse-out] and
    [click] on the map and for [draw-end] on the toolbar, after those that
    were there. *)
Theorem on_load_wires_the_map e v :
  let v' := after on_load e v in
  has_toolbar v' = true /\ has_map v' = has_map v
  /\ (exists l,
        trace v' = (trace v ++
                    [Keyboard_enable; DisableKeyboardNavigation; DisableMapNavigation;
                     New_Draw] ++ l)%list)
  /\ listening The_map "mouse-drag-start" v'
     = (listening The_map "mouse-drag-start" v ++ [On_mouse_drag_start])%list
  /\ listening The_map "mouse-out" v'
     = (listening The_map "mouse-out" v ++ [On_mouse_out])%list
  /\ listening The_toolbar "draw-end" v'
     = (listening The_toolbar "draw-end" v ++ [OnDrawEnd])%list
  /\ listening The_map "click" v'
     = (listening The_map "click" v ++ [OnMouseClick])%list.
Proof.
  intros v'. subst v'. unfold after. rewrite on_load_eq.
  change (snd (refresh_all e (on_load_wired v)))
    with (after refresh_all e (on_load_wired v)).
  destruct (refresh_all_objects e (on_load_wired v)) as [Om Ot].
  destruct (refresh_all_calls e (on_load_wired v)) as (l & Tl & _).
  assert (W : forall t name, name <> "basemap-change" -> (forall l, t <> A_layer l) ->
                listening t name (after refresh_all e (on_load_wired v))
                = listening t name (on_load_wired v)).
  { intros t name H1 H2. apply (refresh_all_wiring t name H1 H2). }
  repeat apply conj.
  - rewrite Ot. reflexivity.
  - rewrite Om. reflexivity.
  - exists l. rewrite Tl. unfold on_load_wired. simpl. now rewrite <- app_assoc.
  - rewrite W by (intros; discriminate). rewrite listening_wired. reflexivity.
  - rewrite W by (intros; discriminate). rewrite listening_wired. reflexivity.
  - rewrite W by (intros; discriminate). rewrite listening_wired. reflexivity.
  - rewrite W by (intros; discriminate). rewrite listening_wired. reflexivity.
Qed.

Lemma on_webmap_created_eq e v :
  on_webmap_created e v = refresh_all e (on_webmap_wired v).
Proof.
  unfold on_webmap_created. unfold_M. simpl. unfold on_webmap_wired.
  rewrite <- !app_assoc. simpl. reflexivity.
Qed.

(** X5. [load_map] for a model that names a web map: the keyboard manager
    is disabled, [arcgisUrl] is set if [_arcgis_url] is not blank, and the
    map is asked for by its id; no map is constructed and no listener
    added. When the request is fulfilled, the callback enables the keyboard
    manager, takes the map, makes the toolbar and adds one listener for
    [draw-end] on the toolbar and one for [click] on the map, and none for
    what the mouse does on the map, before the five calls at its end; when
    the request fails the view is left without a map. *)
Theorem load_map_of_a_web_map e v :
  nonblank (id (model v)) = true -> promises_numbered v ->
  load_map e v = (inr tt, web_map_requested v)
  /\ has_map (web_map_requested v) = has_map v
  /\ listeners (web_map_requested v) = listeners v
  /\ (forall e' a,
        react (In_settled (fresh v) (Fulfilled a)) e' (web_map_requested v)
        = refresh_all e'
            (on_webmap_wired (with_promises (promises v) (web_map_requested v))))
  /\ (forall e',
        react (In_settled (fresh v) Rejected) e' (web_map_requested v)
        = (inr tt, with_promises (promises v) (web_map_requested v)))
  /\ (forall e' w,
        let w' := after on_webmap_created e' w in
        has_map w' = true /\ has_toolbar w' = true
        /\ listening The_toolbar "draw-end" w'
           = (listening The_toolbar "draw-end" w ++ [OnDrawEnd])%list
        /\ listening The_map "click" w'
           = (listening The_map "click" w ++ [OnMouseClick])%list
        /\ listening The_map "mouse-drag-start" w'
           = listening The_map "mouse-drag-start" w
        /\ listening The_map "mouse-out" w' = listening The_map "mouse-out" w).
Proof.
  intros Hid Hp.
  destruct (pending_last (promises v) (fresh v) [On_webmap_created] Hp) as [L R].
  repeat apply conj; try reflexivity.
  - unfold load_map, push_gallery_basemaps, web_map_requested. unfold_M. simpl.
    rewrite Hid. simpl.
    destruct (nonblank (_arcgis_url (model v))); simpl;
      rewrite <- !app_assoc; reflexivity.
  - intros e' a. cbn [react]. unfold_M.
    cbn [promises web_map_requested with_promises]. rewrite L.
    cbn [promises web_map_requested with_promises]. rewrite R.
    cbn [run_chain run_callback].
    etransitivity; [apply (bind_unit on_webmap_created)|].
    apply on_webmap_created_eq.
  - intros e'. cbn [react]. unfold_M.
    cbn [promises web_map_requested with_promises]. rewrite L.
    cbn [promises web_map_requested with_promises]. rewrite R. reflexivity.
  - intros e' w w'. subst w'. unfold after. rewrite on_webmap_created_eq.
    change (snd (refresh_all e' (on_webmap_wired w)))
      with (after refresh_all e' (on_webmap_wired w)).
    destruct (refresh_all_objects e' (on_webmap_wired w)) as [Om Ot].
    assert (W : forall t name, name <> "basemap-change" -> (forall l, t <> A_layer l) ->
                  listening t name (after refresh_all e' (on_webmap_wired w))
                  = listening t name (on_webmap_wired w)).
    { intros t name H1 H2. apply (refresh_all_wiring t name H1 H2). }
    assert (Lw : forall t name,
               listening t name (on_webmap_wired w)
               = (listening t name w
                  ++ map callback
                       (filter (fun x => target x = t /\ event_name x = name)
                          [{| handle := fresh w; target := The_toolbar;
                              event_name := "draw-end"; callback := OnDrawEnd |};
                           {| handle := S (fresh w); target := The_map;
                              event_name := "click"; callback := OnMouseClick |}]))%list).
    { intros t name. unfold on_webmap_wired, listening.
      cbn [listeners with_listeners]. now rewrite filter_app, map_app. }
    repeat apply conj.
    + rewrite Om. reflexivity.
    + rewrite Ot. reflexivity.
    + rewrite W by (intros; discriminate). rewrite Lw. reflexivity.
    + rewrite W by (intros; discriminate). rewrite Lw. reflexivity.
    + rewrite W by (intros; discriminate). rewrite Lw. apply app_nil_r.
    + rewrite W by (intros; discriminate). rewrite Lw. apply app_nil_r.
Qed.

Lemma load_map_of_a_web_map_witness :
  trace (after load_map sample_env (new_view webmap_model))
  = [Keyboard_disable; CreateMap "4778fee6371d4e83a22786029f30c7e1"].
Proof.
  destruct (load_map_of_a_web_map sample_env (new_view webmap_model) eq_refl
              (List.Forall_nil _)) as (H & _).
  unfold after. rewrite H. reflexivity.
Defined.

(** ** The listener for the change of the basemap *)

Lemma basemap_records_listeners ids : keeps same_listeners (basemap_records ids).
Proof. induction ids; simpl; keeps_all listeners_side. Qed.

#[local] Hint Resolve basemap_records_listeners : keeps.

Lemma after_modify {A} (f : View -> View) (k : M A) e v :
  after (modify f ;; k) e v = after k e (f v).
Proof. reflexivity. Qed.

Lemma filter_numbered n (l : list Listener) :
  Forall (fun x => handle x < n) l -> filter (fun x => handle x <> n) l = l.
Proof.
  induction 1 as [|x l Hx Hl IH]; [reflexivity|].
  rewrite filter_cons_True by lia. now rewrite IH.
Qed.

Lemma basemap_changed_listens_once e v :
  has_map v = true -> listeners_numbered v ->
  let v1 := after basemap_changed e v in
  result basemap_changed e v = inr tt
  /\ trace v1 = (trace v ++ [SetBasemap (_basemap (model v))])%list
  /\ model v1 = model v
  /\ listening The_map "basemap-change" v1
     = (listening The_map "basemap-change" v ++ [On_basemap_change (fresh v)])%list
  /\ (forall t name, (t, name) <> (The_map, "basemap-change") ->
        listening t name v1 = listening t name v)
  /\ (forall e', listeners (after (on_basemap_change (fresh v)) e' v1) = listeners v).
Proof.
  intros Hm Hn v1.
  assert (E : basemap_changed e v
              = (inr tt,
                 with_listeners
                   (listeners v ++
                    [{| handle := fresh v; target := The_map;
                        event_name := "basemap-change";
                        callback := On_basemap_change (fresh v) |}])
                   (with_fresh (S (fresh v))
                      (with_trace (trace v ++ [SetBasemap (_basemap (model v))]) v)))).
  { unfold basemap_changed. unfold_M. rewrite Hm. reflexivity. }
  subst v1. unfold result. unfold after at 1 2 3 4. rewrite E. cbn [fst snd].
  repeat apply conj; try reflexivity.
  - unfold listening. cbn [listeners with_listeners]. now rewrite filter_app, map_app.
  - intros t name H. unfold listening. cbn [listeners with_listeners].
    rewrite filter_app, map_app, filter_cons_False, filter_nil.
    + apply app_nil_r.
    + simpl. intros [<- <-]. now apply H.
  - intros e'. unfold on_basemap_change, remove_listener. rewrite after_modify.
    match goal with
    | |- listeners (after ?k e' ?w) = _ =>
        assert (K : keeps same_listeners k) by keeps_all listeners_side;
        rewrite (K e' w)
    end.
    unfold after. rewrite E. cbn [snd listeners with_listeners].
    rewrite filter_app, (filter_numbered _ _ Hn), filter_cons_False, filter_nil.
    + apply app_nil_r.
    + simpl. intros H. now apply H.
Qed.


#[local] Instance numbered_more_refl : Reflexive numbered_more.
Proof. intros v. unfold numbered_more. auto. Qed.

#[local] Instance numbered_more_trans : Transitive numbered_more.
Proof.
  intros a b c (H1 & H2 & H3) (H4 & H5 & H6). unfold numbered_more.
  repeat apply conj; [lia | auto | auto].
Qed.

Lemma Forall_numbered_le {A} (f : A -> nat) n n' (l : list A) :
  n <= n' -> Forall (fun x => f x < n) l -> Forall (fun x => f x < n') l.
Proof. intros H F. eapply Forall_impl; [exact F|]. intros x. simpl. lia. Qed.

Lemma new_number_numbered : keeps numbered_more new_number.
Proof.
  intros e v. unfold after, new_number. unfold_M. simpl.
  unfold numbered_more, listeners_numbered, promises_numbered; simpl;
  repeat apply conj; [lia | |]; apply Forall_numbered_le; lia.
Qed.

Lemma on_numbered t name c : keeps numbered_more (on t name c).
Proof.
  intros e v. unfold after, on, new_number. unfold_M. simpl.
  unfold numbered_more, listeners_numbered, promises_numbered; simpl;
  repeat apply conj; [lia | |].
  - intros H. apply Forall_app. split.
    + revert H. apply Forall_numbered_le. simpl. lia.
    + repeat constructor.
  - apply Forall_numbered_le. lia.
Qed.

Lemma then_numbered chain : keeps numbered_more (then_ chain).
Proof.
  intros e v. unfold after, then_, new_number. unfold_M. simpl.
  unfold numbered_more, listeners_numbered, promises_numbered; simpl;
  repeat apply conj; [lia | |].
  - apply Forall_numbered_le. lia.
  - intros H. apply Forall_app. split.
    + revert H. apply Forall_numbered_le. simpl. lia.
    + repeat constructor.
Qed.

Lemma setTimeout_numbered c : keeps numbered_more (setTimeout c).
Proof.
  intros e v. unfold after, setTimeout, new_number. unfold_M. simpl.
  unfold numbered_more, listeners_numbered, promises_numbered; simpl;
  repeat apply conj; [lia | |]; apply Forall_numbered_le; lia.
Qed.

#[local] Hint Resolve new_number_numbered on_numbered then_numbered setTimeout_numbered
  : keeps.

Lemma Forall_kept_by_filter {A} (P : A -> Prop) (Q : A -> Prop)
    `{forall x, Decision (Q x)} (l : list A) :
  Forall P l -> Forall P (filter Q l).
Proof.
  induction 1 as [|x l Hx Hl IH]; [constructor|].
  rewrite filter_cons. destruct (decide (Q x)); [constructor|]; assumption.
Qed.

(** Proves that a change of the view that takes no new number keeps the
    numbering. *)
Ltac numbered_side :=
  idtac;
  unfold numbered_more, listeners_numbered, promises_numbered; simpl;
  repeat apply conj; [lia | |]; intros H;
  first [exact H | apply Forall_kept_by_filter; exact H].

Lemma basemap_records_numbered ids : keeps numbered_more (basemap_records ids).
Proof. induction ids; simpl; keeps_all numbered_side. Qed.

#[local] Hint Resolve basemap_records_numbered : keeps.

Lemma run_callback_numbered c a : keeps numbered_more (run_callback c a).
Proof. destruct c; simpl; keeps_all numbered_side. Qed.

#[local] Hint Resolve run_callback_numbered : keeps.

Lemma run_chain_numbered chain a : keeps numbered_more (run_chain chain a).
Proof. revert a. induction chain; intros; simpl; keeps_all numbered_side. Qed.

#[local] Hint Resolve run_chain_numbered : keeps.

Lemma react_numbered i : keeps numbered_more (react i).
Proof. destruct i; simpl; keeps_all numbered_side. Qed.

(** Every view that comes from a new one has its listeners and promises
    numbered below the next number. *)
Lemma run_numbered inputs m :
  listeners_numbered (run inputs (new_view m))
  /\ promises_numbered (run inputs (new_view m)).
Proof.
  assert (G : forall v, numbered_more v (run inputs v)).
  { induction inputs as [|[e i] r IH]; intros v; simpl; [reflexivity|].
    etransitivity; [apply (react_numbered i e v) | apply IH]. }
  destruct (G (new_view m)) as (_ & H1 & H2).
  split; [apply H1 | apply H2]; constructor.
Qed.

(** X6. [basemap_changed] on a map, at any time in the life of a view:
    the basemap is set to [_basemap] and one listener for [basemap-change]
    is added, the model and the other listeners staying as they are. The
    listener takes itself off the map when it runs: after its callback,
    however that ends, the listeners of the view are those from before
    [basemap_changed], so a later change of the basemap that the view did
    not ask for is not recorded in [_js_basemap]. *)
Theorem basemap_listener_runs_once inputs m e :
  let v := run inputs (new_view m) in
  has_map v = true ->
  let v1 := after basemap_changed e v in
  result basemap_changed e v = inr tt
  /\ trace v1 = (trace v ++ [SetBasemap (_basemap (model v))])%list
  /\ model v1 = model v
  /\ listening The_map "basemap-change" v1
     = (listening The_map "basemap-change" v ++ [On_basemap_change (fresh v)])%list
  /\ (forall t name, (t, name) <> (The_map, "basemap-change") ->
        listening t name v1 = listening t name v)
  /\ (forall e', listeners (after (on_basemap_change (fresh v)) e' v1) = listeners v).
Proof.
  intros v Hm. apply (basemap_changed_listens_once e v Hm).
  apply run_numbered.
Qed.

Lemma basemap_listener_runs_once_witness :
  listeners (after (on_basemap_change (fresh sample_view)) sample_env
               (after basemap_changed sample_env sample_view))
  = listeners sample_view.
Proof.
  destruct (basemap_listener_runs_once
              [(sample_env, In_render); (sample_env, In_event The_map "load" Arg_map)]
              sample_model sample_env eq_refl) as (_ & _ & _ & _ & _ & H).
  apply H.
Defined.

(** ** A change of the extent *)

(** X7. [extent_changed] parses [_extent] without looking for a brace
    first, as [load_map] does: on the empty string, and on any text with
    [narrow] escapes that is no JSON, it ends in a [SyntaxError] before the
    map is touched, and on [null] in a [TypeError]. On text that parses to
    anything else it sets
    the extent of the map to the four bounds read from it, a bound that is
    not there being [undefined], with the spatial reference of wkid 4326,
    the extent [load_map] constructs the map with. *)
Theorem extent_changed_reads_unguarded e v :
  (_extent (model v) = "" -> extent_changed e v = (inl SyntaxError, v))
  /\ (narrow (_extent (model v)) = true -> parse (_extent (model v)) = None ->
      extent_changed e v = (inl SyntaxError, v))
  /\ (parse (_extent (model v)) = Some VNull -> extent_changed e v = (inl TypeError, v))
  /\ (forall ext,
        parse (_extent (model v)) = Some ext -> nullish ext = false ->
        extent_of (_extent (model v)) e v
        = (inr {| xmin := prop ext "xmin"; xmax := prop ext "xmax";
                  ymin := prop ext "ymin"; ymax := prop ext "ymax"; wkid := 4326 |}, v)
        /\ extent_changed e v
           = if has_map v
             then (inr tt,
                   with_trace
                     (trace v ++
                      [SetExtent {| xmin := prop ext "xmin"; xmax := prop ext "xmax";
                                    ymin := prop ext "ymin"; ymax := prop ext "ymax";
                                    wkid := 4326 |}]) v)
             else (inl TypeError, v)).
Proof.
  assert (N : parse (_extent (model v)) = None ->
              extent_changed e v = (inl SyntaxError, v)).
  { intros P. unfold extent_changed, extent_of, JSON_parse. unfold_M.
    cbn [to_string]. rewrite P. reflexivity. }
  repeat apply conj.
  - intros E. apply N. rewrite E. reflexivity.
  - intros _. exact N.
  - intros P. unfold extent_changed, extent_of, JSON_parse. unfold_M.
    cbn [to_string]. rewrite P. reflexivity.
  - intros ext P Hn. split; [now apply extent_of_parsed|].
    unfold extent_changed. unfold_M.
    rewrite (extent_of_parsed _ ext) by assumption.
    destruct (has_map v); reflexivity.
Qed.

Lemma extent_changed_reads_unguarded_witness :
  extent_changed sample_env sample_view = (inl SyntaxError, sample_view)
  /\ extent_changed sample_env (with_model extent_model sample_view)
     = (inr tt,
        with_trace
          (trace sample_view ++
           [SetExtent {| xmin := number "-118.5"; xmax := number "-117.6";
                         ymin := number "33.7"; ymax := number "34.3"; wkid := 4326 |}])
          (with_model extent_model sample_view)).
Proof.
  split.
  - destruct (extent_changed_reads_unguarded sample_env sample_view) as (H & _).
    apply H. vm_compute. reflexivity.
  - destruct (extent_changed_reads_unguarded sample_env
                (with_model extent_model sample_view)) as (_ & _ & _ & H).
    destruct (H (VObj [("xmin", number "-118.5"); ("ymin", number "33.7");
                       ("xmax", number "-117.6"); ("ymax", number "34.3")]))
      as [_ H']; [vm_compute; reflexivity | reflexivity |].
    rewrite H'. vm_compute. reflexivity.
Defined.

(** ** The basemaps of a gallery *)

Lemma gallery_entries_cons n r bmdefs b :
  gallery_entries (n :: r) bmdefs b
  = gallery_entries r (tail bmdefs) (<[n := (default VUndefined (head bmdefs), n)]> b).
Proof. reflexivity. Qed.

Lemma gallery_entries_other bms : forall bmdefs b name,
  name ∉ bms -> gallery_entries bms bmdefs b !! name = b !! name.
Proof.
  induction bms as [|n r IH]; intros bmdefs b name H; [reflexivity|].
  rewrite gallery_entries_cons. rewrite IH by set_solver.
  apply lookup_insert_ne. set_solver.
Qed.

Lemma gallery_entries_title bms : forall bmdefs b name,
  (name ∈ bms \/ exists d, b !! name = Some (d, name)) ->
  exists d, gallery_entries bms bmdefs b !! name = Some (d, name).
Proof.
  induction bms as [|n r IH]; intros bmdefs b name H.
  - destruct H as [H|H]; [set_solver | exact H].
  - rewrite gallery_entries_cons. apply IH.
    destruct (decide (name = n)) as [->|Hn].
    + right. rewrite lookup_insert_eq. eauto.
    + destruct H as [H|[d H]];
        [left; apply elem_of_cons in H as [?|?]; [congruence | assumption]|].
      right. exists d. now rewrite lookup_insert_ne by congruence.
Qed.

Lemma gallery_entries_at bms : forall bmdefs b i name,
  bms !! i = Some name -> (forall j, i < j -> bms !! j <> Some name) ->
  gallery_entries bms bmdefs b !! name
  = Some (default VUndefined (bmdefs !! i), name).
Proof.
  induction bms as [|n r IH]; intros bmdefs b i name H L; [discriminate|].
  rewrite gallery_entries_cons.
  destruct i as [|i]; simpl in H.
  - injection H as ->. rewrite gallery_entries_other.
    + rewrite lookup_insert_eq. now destruct bmdefs.
    + intros (j & Hj)%list_elem_of_lookup. apply (L (S j)); [lia | exact Hj].
  - rewrite (IH _ _ i) by (try assumption; intros j Hj; apply (L (S j)); lia).
    now destruct bmdefs.
Qed.


#[local] Instance same_basemaps_refl : Reflexive same_basemaps.
Proof. intros v. reflexivity. Qed.

#[local] Instance same_basemaps_trans : Transitive same_basemaps.
Proof. intros a b c H1 H2. unfold same_basemaps in *. congruence. Qed.

Ltac basemaps_side := idtac; reflexivity.

Lemma after_seq {A} (m : M unit) (k : M A) e v :
  result m e v = inr tt -> after (m ;; k) e v = after k e (after m e v).
Proof.
  unfold result, after, mbind, M_bind, bind.
  destruct (m e v) as [[x|[]] v']; simpl; [discriminate | reflexivity].
Qed.

(** X8. [gallerybasemaps_changed], and the same loop at the start of
    [load_map], enter every name in [_gallerybasemaps] into the table of
    basemaps with the name as title; the other entries of the table stay,
    and nothing else of the view changes. A name gets the definition at
    the index in [_gbasemaps_def] at which it stands in the list, the last
    such index if it stands there more than once, and [undefined] for its
    layers when that list is too short. *)
Theorem gallery_basemaps_are_entered e v :
  let bms := _gallerybasemaps (model v) in
  let bmdefs := _gbasemaps_def (model v) in
  let v' := after gallerybasemaps_changed e v in
  gallerybasemaps_changed e v
  = (inr tt, with_esriBasemaps (gallery_entries bms bmdefs (esriBasemaps v)) v)
  /\ (forall name, name ∈ bms -> exists d, esriBasemaps v' !! name = Some (d, name))
  /\ (forall name, name ∉ bms -> esriBasemaps v' !! name = esriBasemaps v !! name)
  /\ (forall i name,
        bms !! i = Some name -> (forall j, i < j -> bms !! j <> Some name) ->
        esriBasemaps v' !! name = Some (default VUndefined (bmdefs !! i), name))
  /\ esriBasemaps (after load_map e v) = esriBasemaps v'.
Proof.
  intros bms bmdefs v'.
  assert (E : esriBasemaps v' = gallery_entries bms bmdefs (esriBasemaps v))
    by reflexivity.
  repeat apply conj.
  - reflexivity.
  - intros name H. rewrite E. apply gallery_entries_title. now left.
  - intros name H. rewrite E. now apply gallery_entries_other.
  - intros i name H L. rewrite E. now apply gallery_entries_at.
  - unfold load_map. rewrite !after_seq by reflexivity.
    match goal with
    | |- esriBasemaps (after ?k e ?w) = _ =>
        assert (K : keeps same_basemaps k) by keeps_all basemaps_side;
        rewrite (K e w)
    end.
    rewrite E. reflexivity.
Qed.

Lemma gallery_basemaps_are_entered_witness :
  esriBasemaps (after gallerybasemaps_changed sample_env (new_view gallery_model))
    !! "dark"
  = Some (VUndefined, "dark").
Proof.
  destruct (gallery_basemaps_are_entered sample_env (new_view gallery_model))
    as (_ & _ & _ & H & _).
  apply (H 1 "dark"); [reflexivity|].
  intros j Hj. destruct j as [|[|j]]; [lia | lia | discriminate].
Defined.

(** ** The popup template of a layer *)

Lemma field_infos_all fs e v :
  Forall (fun f => nullish f = false) fs ->
  field_infos fs e v = (inr (map (fun f => (prop f "name", prop f "alias")) fs), v).
Proof.
  induction 1 as [|f fs Hf Hfs IH]; [reflexivity|].
  cbn [field_infos map]. unfold field_info, prop. unfold_M.
  destruct f; try discriminate; simpl; rewrite IH; reflexivity.
Qed.

Lemma field_infos_null fs e v :
  Exists (fun f => nullish f = true) fs ->
  field_infos fs e v = (inl TypeError, v).
Proof.
  induction 1 as [f fs Hf|f fs Hfs IH].
  - cbn [field_infos]. unfold field_info. unfold_M.
    destruct f; try discriminate; reflexivity.
  - cbn [field_infos]. unfold field_info. unfold_M.
    destruct f; simpl; rewrite ?IH; reflexivity.
Qed.

(** X9. [createTemplate] gives the popup template of a layer the name of
    the layer as title and one field description for every field of the
    layer, in the order of the fields, with the name and the alias of the
    field, [undefined] where the field has none. It changes nothing of the
    view. A field that is [null] or [undefined] makes it end in a
    [TypeError]. *)
Theorem createTemplate_describes_every_field layer e v :
  let fs := fields (layer_state e layer) in
  (Forall (fun f => nullish f = false) fs ->
   createTemplate layer e v
   = (inr {| template_title := layer_name (layer_state e layer);
             fieldInfos := map (fun f => (prop f "name", prop f "alias")) fs |}, v))
  /\ (Exists (fun f => nullish f = true) fs ->
      createTemplate layer e v = (inl TypeError, v)).
Proof.
  intros fs. split; intros H; unfold createTemplate;
    cbv beta iota delta [mbind M_bind bind ask].
  - fold fs. rewrite (field_infos_all fs e v H). reflexivity.
  - fold fs. rewrite (field_infos_null fs e v H). reflexivity.
Qed.

Lemma createTemplate_describes_every_field_witness :
  createTemplate 0 fields_env sample_view
  = (inr {| template_title := VStr "Cities";
            fieldInfos := [(VStr "POP2000", VStr "Population");
                           (VStr "FID", VUndefined)] |}, sample_view).
Proof.
  destruct (createTemplate_describes_every_field 0 fields_env sample_view) as [H _].
  apply H. repeat constructor.
Defined.

(** ** The layer list *)

Lemma imagery_layer_dict_keys state :
  NoDup (keys (imagery_layer_dict state)).
Proof.
  unfold imagery_layer_dict. destruct (renderer state); simpl;
    apply (bool_decide_unpack _); vm_compute; exact I.
Qed.



Lemma obj_set_has k x fs k' :
  In k' (keys (obj_set k x fs)) <-> k' = k \/ In k' (keys fs).
Proof.
  induction fs as [|[k0 y] fs IH]; simpl.
  - split; [intros [<-|[]]; now left | intros [->|[]]; now left].
  - destruct (String.eqb_spec k k0) as [->|N]; simpl; [intuition congruence|].
    rewrite IH. intuition congruence.
Qed.

Lemma assoc_obj_set k x fs : assoc k (obj_set k x fs) = Some x.
Proof.
  induction fs as [|[k0 y] fs IH]; simpl.
  - now rewrite String.eqb_refl.
  - destruct (String.eqb_spec k k0) as [->|N]; simpl.
    + now rewrite String.eqb_refl.
    + apply String.eqb_neq in N. now rewrite N.
Qed.

Lemma assoc_obj_set_other k k' x fs :
  k' <> k -> assoc k' (obj_set k x fs) = assoc k' fs.
Proof.
  intros N. induction fs as [|[k0 y] fs IH]; simpl.
  - apply String.eqb_neq in N. now rewrite N.
  - destruct (String.eqb_spec k k0) as [->|N0]; simpl.
    + apply String.eqb_neq in N. now rewrite N.
    + now rewrite IH.
Qed.



(** ** Drawing again and again *)

Lemma onDrawEnd_reads_then_writes e v evtObj :
  nullish evtObj = false ->
  has_map v = true -> map_graphics e = true -> has_toolbar v = true ->
  let geometry := prop evtObj "geometry" in
  let record :=
    VObj [("geometry", geometry); ("symbol", VObj (SimpleFillSymbol_props e))] in
  onDrawEnd evtObj e v
  = match decode_list (_js_interactive_drawn_graphic (model v)) with
    | inr l =>
        let m := set_js_interactive_drawn_graphic (stringify_array (l ++ [record]))
                   (model (drawn e geometry v)) in
        (inr tt,
         with_trace (trace (drawn e geometry v) ++ [Touch m])
           (with_model m (drawn e geometry v)))
    | inl x => (inl x, drawn e geometry v)
    end.
Proof.
  intros Hn Hm Hg Ht geometry record.
  assert (G : get_prop evtObj "geometry" = inr geometry).
  { subst geometry. unfold prop. destruct evtObj; try discriminate; reflexivity. }
  unfold onDrawEnd, draw_end, read_list, drawn. unfold_M. rewrite G. simpl.
  rewrite Hm, Hg. simpl. rewrite Ht. simpl.
  destruct (String.eqb (mode (model v)) "navigate"); simpl.
  - destruct (decode_list _); simpl;
      repeat (rewrite <- !app_assoc; simpl); reflexivity.
  - rewrite mode_changed_navigate by (simpl; auto). simpl.
    destruct (decode_list _); simpl;
      repeat (rewrite <- !app_assoc; simpl); reflexivity.
Qed.

(** X12. Draw-end events one after the other, on a view with a loaded map
    and a toolbar whose list of drawn graphics reads as [l]: every event
    appends its record, each reading what the one before wrote, so that
    after them the list in [_js_interactive_drawn_graphic] reads as a list
    that is longer than [l] by the number of the events. *)
Theorem draws_accumulate e events : forall v l,
  Forall (fun evtObj => nullish evtObj = false) events ->
  has_map v = true -> map_graphics e = true -> has_toolbar v = true ->
  decode_list (_js_interactive_drawn_graphic (model v)) = inr l ->
  let v' := draws e events v in
  has_map v' = true /\ has_toolbar v' = true
  /\ exists l',
       decode_list (_js_interactive_drawn_graphic (model v')) = inr l'
       /\ length l' = length l + length events.
Proof.
  induction events as [|evtObj events IH]; intros v l F Hm Hg Ht D v'; subst v'.
  - simpl. repeat split; try assumption. exists l. split; [assumption | lia].
  - inversion F as [|? ? Hn F']; subst.
    pose proof (onDrawEnd_reads_then_writes e v evtObj Hn Hm Hg Ht) as E.
    simpl in E. rewrite D in E.
    unfold draws. cbn [fold_left].
    fold (draws e events (after (onDrawEnd evtObj) e v)).
    set (record := VObj [("geometry", prop evtObj "geometry");
                         ("symbol", VObj (SimpleFillSymbol_props e))]) in *.
    destruct (IH (after (onDrawEnd evtObj) e v) (map norm (l ++ [record])))
      as (H1 & H2 & l' & H3 & H4);
      try assumption; try (unfold after; rewrite E; assumption).
    + unfold after. rewrite E. simpl. apply decode_stringify_array.
    + repeat split; try assumption. exists l'. split; [assumption|].
      rewrite H4, length_map, length_app. simpl. lia.
Qed.

Lemma draws_accumulate_witness :
  exists l',
    decode_list
      (_js_interactive_drawn_graphic
         (model (draws sample_env
                   [VObj [("geometry", sample_point)]; VObj [("geometry", sample_extent)]]
                   sample_view)))
    = inr l'
    /\ length l' = 0 + 2.
Proof.
  destruct (draws_accumulate sample_env
              [VObj [("geometry", sample_point)]; VObj [("geometry", sample_extent)]]
              sample_view []) as (_ & _ & H).
  - repeat constructor.
  - vm_compute. reflexivity.
  - reflexivity.
  - vm_compute. reflexivity.
  - vm_compute. reflexivity.
  - exact H.
Defined.

(** X13. A draw-end event when the text in
    [_js_interactive_drawn_graphic], with [narrow] escapes, cannot be read
    as a list, being no JSON or the JSON of something else: the graphic
    has been added to the map, the toolbar deactivated, [mode] set to
    [navigate] and synced and the [draw-end] message sent when the reading
    throws, so the callback ends in that exception with the attribute as
    it was, and the drawn graphic is missing from the list. *)
Theorem draw_end_with_unreadable_list e v evtObj x :
  nullish evtObj = false ->
  has_map v = true -> map_graphics e = true -> has_toolbar v = true ->
  narrow (_js_interactive_drawn_graphic (model v)) = true ->
  decode_list (_js_interactive_drawn_graphic (model v)) = inl x ->
  let geometry := prop evtObj "geometry" in
  let v' := after (onDrawEnd evtObj) e v in
  result (onDrawEnd evtObj) e v = inl x
  /\ v' = drawn e geometry v
  /\ sent v' = (sent v ++ [Msg "draw-end" geometry])%list
  /\ mode (model v') = "navigate"
  /\ _js_interactive_drawn_graphic (model v')
     = _js_interactive_drawn_graphic (model v).
Proof.
  intros Hn Hm Hg Ht _ D geometry v'.
  pose proof (onDrawEnd_reads_then_writes e v evtObj Hn Hm Hg Ht) as E.
  simpl in E. rewrite D in E.
  subst v'. unfold result, after. rewrite E. cbn [fst snd].
  repeat apply conj; try reflexivity.
  unfold drawn, sent. cbn [trace with_trace].
  rewrite !omap_app. simpl.
  assert (R : forall n, omap (fun x => match x with Send m => Some m | _ => None end)
                          (repeat Toolbar_deactivate n) = []).
  { induction n; simpl; auto. }
  rewrite R. reflexivity.
Qed.

Lemma draw_end_with_unreadable_list_witness :
  result (onDrawEnd (VObj [("geometry", sample_point)])) sample_env unreadable_view
  = inl SyntaxError.
Proof.
  destruct (draw_end_with_unreadable_list sample_env unreadable_view
              (VObj [("geometry", sample_point)]) SyntaxError) as (H & _).
  - reflexivity.
  - vm_compute. reflexivity.
  - reflexivity.
  - vm_compute. reflexivity.
  - vm_compute. reflexivity.
  - vm_compute. reflexivity.
  - exact H.
Defined.

(** ** Adding a layer *)

Lemma upgrade_url_after newlayer e v : after (upgrade_url newlayer) e v = v.
Proof.
  unfold after, upgrade_url. unfold_M.
  destruct (String.eqb (protocol e) "https:"); [|reflexivity].
  destruct (get_prop newlayer "url") as [x|[]]; try reflexivity;
    destruct newlayer; try reflexivity.
  destruct (starts_with "http:" s); reflexivity.
Qed.

Lemma replace_head pat rep s : replace pat rep (pat ++ s) = rep ++ s.
Proof.
  assert (S : forall p r, starts_with p (p ++ r) = true).
  { induction p as [|c p IH]; intros r; simpl; [reflexivity|].
    rewrite Ascii.eqb_refl. apply IH. }
  assert (D : forall p r, drop_chars (String.length p) (p ++ r) = r).
  { induction p as [|c p IH]; intros r; simpl; [reflexivity | apply IH]. }
  assert (U : forall t, replace pat rep t
                        = if starts_with pat t
                          then rep ++ drop_chars (String.length pat) t
                          else match t with
                               | String c r => String c (replace pat rep r)
                               | EmptyString => ""
                               end).
  { destruct t; reflexivity. }
  rewrite U, S, D. reflexivity.
Qed.

(** X14. The address of a new layer, on a page served over https: an
    address that begins with [http://] is replaced by the same address
    with [https://] before the layer is made, and an address that does not
    begin with [http:] is kept; a descriptor whose [url] is no string
    makes [layer_changed] end in a [TypeError]. On a page served otherwise
    the descriptor is taken as it is. *)
Theorem upgrade_url_to_https newlayer e v :
  (protocol e <> "https:" -> upgrade_url newlayer e v = (inr newlayer, v))
  /\ (forall fs rest,
        protocol e = "https:" -> newlayer = VObj fs ->
        assoc "url" fs = Some (VStr ("http://" ++ rest)) ->
        upgrade_url newlayer e v
        = (inr (VObj (obj_set "url" (VStr ("https://" ++ rest)) fs)), v))
  /\ (forall fs u,
        protocol e = "https:" -> newlayer = VObj fs ->
        assoc "url" fs = Some (VStr u) -> starts_with "http:" u = false ->
        upgrade_url newlayer e v = (inr newlayer, v))
  /\ (forall u,
        protocol e = "https:" -> get_prop newlayer "url" = inr u ->
        (forall s, u <> VStr s) ->
        upgrade_url newlayer e v = (inl TypeError, v)).
Proof.
  repeat apply conj.
  - intros H. unfold upgrade_url. unfold_M.
    destruct (String.eqb_spec (protocol e) "https:"); [contradiction | reflexivity].
  - intros fs rest H -> U.
    assert (St : starts_with "http:" ("http://" ++ rest) = true) by reflexivity.
    unfold upgrade_url, get_prop. unfold_M. rewrite H, U. cbn [String.eqb Ascii.eqb Bool.eqb default].
    cbv beta iota delta [Datatypes.id]. rewrite St, (replace_head "http://" "https://" rest). reflexivity.
  - intros fs u H -> U S.
    unfold upgrade_url, get_prop. unfold_M. rewrite H, U.
    cbn [String.eqb Ascii.eqb Bool.eqb default].
    cbv beta iota delta [Datatypes.id]. rewrite S. reflexivity.
  - intros u H G N. unfold upgrade_url. unfold_M. rewrite H. simpl.
    rewrite G. destruct u; try reflexivity. now elim (N s).
Qed.

Lemma upgrade_url_to_https_witness :
  upgrade_url
    (VObj [("type", VStr "FeatureLayer"); ("url", VStr "http://services.example/fs/0")])
    https_env sample_view
  = (inr (VObj [("type", VStr "FeatureLayer");
                ("url", VStr "https://services.example/fs/0")]), sample_view).
Proof.
  destruct (upgrade_url_to_https
              (VObj [("type", VStr "FeatureLayer");
                     ("url", VStr "http://services.example/fs/0")])
              https_env sample_view) as (_ & H & _).
  apply (H [("type", VStr "FeatureLayer"); ("url", VStr "http://services.example/fs/0")]
           "services.example/fs/0"); reflexivity.
Defined.

Lemma loose_eq_name_other x a b :
  loose_eq_name x a = true -> a <> b -> loose_eq_name x b = false.
Proof.
  unfold loose_eq_name. destruct x; try discriminate;
    intros H%String.eqb_eq N; apply String.eqb_neq; congruence.
Qed.

(** X15. [layer_changed] for a descriptor whose type is [KMLLayer],
    [ArcGISTiledMapServiceLayer], [ArcGISDynamicMapServiceLayer] or
    [VectorTileLayer], on a map: one layer of that class is made from the
    address alone and added to the map, and the model stays as it is, so
    no record of such a layer comes into [_js_layer_list]. A listener is
    added for the KML layer alone, for its [load] event. *)
Theorem plain_layers_are_not_listed e v parsed newlayer name class :
  has_map v = true ->
  has_brace (_addlayer (model v)) = true ->
  parse (_addlayer (model v)) = Some parsed ->
  result (upgrade_url parsed) e v = inr newlayer ->
  loose_eq_name (prop newlayer "type") name = true ->
  plain_class name = Some class ->
  let v' := after layer_changed e v in
  result layer_changed e v = inr tt
  /\ trace v'
     = (trace v ++ [New_Layer (fresh v) class (prop newlayer "url") No_options;
                    AddLayer (fresh v)])%list
  /\ model v' = model v
  /\ listeners v'
     = (listeners v
        ++ if String.eqb name "KMLLayer"
           then [{| handle := S (fresh v); target := A_layer (fresh v);
                    event_name := "load"; callback := On_kml_load |}]
           else [])%list.
Proof.
  intros Hm Hb Hp Hu Ht Hc v'.
  assert (U : upgrade_url parsed e v = (inr newlayer, v)).
  { pose proof (upgrade_url_after parsed e v) as A. unfold result in Hu.
    unfold after in A. destruct (upgrade_url parsed e v) as [r w].
    cbn [fst snd] in Hu, A. now subst. }
  assert (T : get_prop newlayer "type" = inr (prop newlayer "type")
              /\ get_prop newlayer "url" = inr (prop newlayer "url")).
  { unfold prop in *. destruct newlayer; try discriminate; split; reflexivity. }
  destruct T as [T1 T2].
  assert (N : forall b, name <> b -> loose_eq_name (prop newlayer "type") b = false).
  { intros b. now apply loose_eq_name_other. }
  subst v'. unfold result, after, layer_changed, add_plain_layer, JSON_parse.
  unfold_M. cbn [to_string]. rewrite Hm. cbv beta iota. rewrite Hb. cbv beta iota.
  rewrite Hp. cbv beta iota. rewrite U. cbv beta iota. rewrite T1. cbv beta iota.
  unfold plain_class in Hc.
  repeat match type of Hc with
         | (if String.eqb ?a ?b then _ else _) = _ =>
             destruct (String.eqb_spec a b) as [->|]
         end; try discriminate; injection Hc as <-.
  all: rewrite ?Ht, ?N by congruence; cbv beta iota; rewrite T2; cbv beta iota.
  all: cbn [fst snd trace model listeners with_trace with_fresh with_listeners fresh].
  all: rewrite <- ?app_assoc; repeat apply conj; try reflexivity.
  all: now rewrite app_nil_r.
Qed.

Lemma plain_layers_are_not_listed_witness :
  trace (after layer_changed sample_env tiles_view)
  = (trace tiles_view
     ++ [New_Layer (fresh tiles_view) VectorTileLayer (VStr "https://tiles.example/vt")
           No_options;
         AddLayer (fresh tiles_view)])%list.
Proof.
  destruct (plain_layers_are_not_listed sample_env tiles_view
              (VObj [("type", VStr "VectorTileLayer");
                     ("url", VStr "https://tiles.example/vt")])
              (VObj [("type", VStr "VectorTileLayer");
                     ("url", VStr "https://tiles.example/vt")])
              "VectorTileLayer" VectorTileLayer) as (_ & H & _);
    [vm_compute; reflexivity .. | exact H].
Defined.

#[local] Instance quiet_refl : Reflexive quiet.
Proof. intros v. split; reflexivity. Qed.

#[local] Instance quiet_trans : Transitive quiet.
Proof. intros a b c [H1 H2] [H3 H4]. unfold quiet. split; congruence. Qed.

Ltac quiet_side := idtac; split; reflexivity.

Lemma eval_returns {A} (r : res A) e v a v' :
  eval r e v = (inr a, v') -> r = inr a /\ v' = v.
Proof. unfold eval. intros [= -> ->]. auto. Qed.

(** Goes past the first step of a callback that returns, if the step
    keeps [R]. *)
Ltac past_keeping R side H :=
  let a := fresh "a" in
  let w := fresh "w" in
  let K := fresh "K" in
  apply (bind_returns_keeping R) in H;
  [destruct H as (a & w & K & H) | solve [keeps_all side]].

(** Goes past a first step that leaves the view as it is. *)
Ltac past_reading H :=
  let a := fresh "a" in
  let w := fresh "w" in
  let K := fresh "K" in
  apply (bind_returns_keeping (@eq View)) in H;
  [destruct H as (a & w & K & H); subst w
  | solve [keeps_all ltac:(idtac; reflexivity)]].

(** ** The flags for smart mapping *)

(** X16. The flags [bRend] and [bSRend] belong to the page, not to a
    layer. When [layer_changed] has added a feature layer, they tell
    whether the [renderer] of that descriptor is [ClassedColorRenderer]
    and whether it is [ClassedSizeRenderer]. The second [load] callback of
    a feature layer sets the popup template and then asks for a classed
    colour renderer if [bRend] is set and for a classed size renderer if
    [bSRend] is set, as the flags are when the layer loads: those of the
    feature layer added last, which need not be the layer that loads. *)
Theorem smart_mapping_follows_the_last_layer e :
  (forall curbasemap newlayer v v',
      add_feature_layer curbasemap newlayer e v = (inr tt, v') ->
      bRend v' = loose_eq_name (prop newlayer "renderer") "ClassedColorRenderer"
      /\ bSRend v' = loose_eq_name (prop newlayer "renderer") "ClassedSizeRenderer")
  /\ (forall layer curbasemap newlayer w,
        Forall (fun f => nullish f = false) (fields (layer_state e layer)) ->
        nullish newlayer = false ->
        let t := {| template_title := layer_name (layer_state e layer);
                    fieldInfos := map (fun f => (prop f "name", prop f "alias"))
                                    (fields (layer_state e layer)) |} in
        let props := smart_props layer (prop newlayer "field_name") curbasemap None in
        result (on_feature_load_template layer curbasemap newlayer) e w = inr tt
        /\ trace (after (on_feature_load_template layer curbasemap newlayer) e w)
           = (trace w ++ [SetInfoTemplate layer t]
              ++ (if bRend w then [ClassedColorRenderer props] else [])
              ++ (if bSRend w then [ClassedSizeRenderer props] else []))%list).
Proof.
  split.
  - intros curbasemap newlayer v v' H. unfold add_feature_layer in H.
    do 9 (apply bind_returns in H as (? & ? & _ & H)).
    apply bind_returns in H as (r & w & Er & H).
    apply eval_returns in Er as [Er _].
    apply bind_returns in H as (? & ? & _ & H).
    assert (R : prop newlayer "renderer" = r) by (unfold prop; now rewrite Er).
    rewrite R. unfold on, new_number in H. unfold_M.
    destruct (loose_eq_name r "ClassedColorRenderer"),
      (loose_eq_name r "ClassedSizeRenderer");
      simpl in H; injection H as <-; split; reflexivity.
  - intros layer curbasemap newlayer w F N t props.
    assert (G : get_prop newlayer "field_name" = inr (prop newlayer "field_name")).
    { unfold prop. destruct newlayer; try discriminate; reflexivity. }
    unfold result, after, on_feature_load_template, createTemplate,
      after_classed_field.
    cbv beta iota delta [mbind M_bind bind ask].
    rewrite (field_infos_all _ e w F). unfold_M. rewrite G. cbv beta iota.
    fold t. fold props.
    cbn. destruct (bRend w); cbn; destruct (bSRend w); cbn;
      rewrite <- ?app_assoc; split; reflexivity.
Qed.

Lemma smart_mapping_follows_the_last_layer_witness :
  bRend (after (add_feature_layer (VStr "topo") classed_layer) sample_env sample_view)
  = true.
Proof.
  destruct (smart_mapping_follows_the_last_layer sample_env) as [H _].
  destruct (H (VStr "topo") classed_layer sample_view
              (after (add_feature_layer (VStr "topo") classed_layer) sample_env
                 sample_view)) as [H' _].
  - vm_compute. reflexivity.
  - rewrite H'. reflexivity.
Defined.

(** ** A feature collection *)



(** ** A graphic from the kernel *)

Lemma brace_is_no_command m :
  has_brace m = true ->
  String.eqb m "navigate" = false /\ String.eqb m "###clear_graphics" = false
  /\ String.eqb m "###remove_layers" = false.
Proof.
  intros H. repeat split; apply String.eqb_neq; intros ->; discriminate.
Qed.

(** X18. [mode_changed] for a mode that contains a brace: the mode is
    parsed as the JSON of a graphic, a [SyntaxError] ending the handler if
    it is text with [narrow] escapes that is no JSON. A graphic that comes with a symbol is added to the map as
    it is; one without gets a symbol by the type of its geometry, the same
    picture marker for [point] and [multipoint], and none for a type the
    view does not know; a graphic with neither symbol nor geometry ends
    the handler in a [TypeError]. The toolbar and the model are left
    alone. *)
Theorem mode_changed_adds_the_graphic e v :
  has_brace (mode (model v)) = true ->
  (narrow (mode (model v)) = true -> parse (mode (model v)) = None ->
   mode_changed e v = (inl SyntaxError, v))
  /\ (forall g,
        parse (mode (model v)) = Some g ->
        has_map v = true -> map_graphics e = true ->
        mode_changed e v
        = if graphic_symbol_null e g then
            match graphic_geometry_type e g with
            | Some type =>
                (inr tt,
                 with_trace
                   (trace v ++ [Graphics_add (Graphic_json g (symbol_for (href e) type))])
                   v)
            | None => (inl TypeError, v)
            end
          else (inr tt, with_trace (trace v ++ [Graphics_add (Graphic_json g None)]) v))
  /\ symbol_for (href e) (VStr "point") = symbol_for (href e) (VStr "multipoint")
  /\ (forall type,
        type <> VStr "polyline" -> type <> VStr "polygon" ->
        type <> VStr "point" -> type <> VStr "multipoint" ->
        symbol_for (href e) type = None).
Proof.
  intros Hb. destruct (brace_is_no_command _ Hb) as (N1 & N2 & N3).
  repeat apply conj.
  - intros _ P. unfold mode_changed, JSON_parse. unfold_M. cbn [to_string].
    rewrite N1, N2, N3, Hb, P. reflexivity.
  - intros g P Hm Hg. unfold mode_changed, JSON_parse. unfold_M. cbn [to_string].
    rewrite N1, N2, N3, Hb, P. cbv beta iota.
    destruct (graphic_symbol_null e g); [destruct (graphic_geometry_type e g)|];
      cbv beta iota; rewrite ?Hm, ?Hg; cbv beta iota; rewrite ?Hg; reflexivity.
  - reflexivity.
  - intros type H1 H2 H3 H4. unfold symbol_for, strict_eq_str.
    destruct type; try reflexivity.
    repeat match goal with
           | |- context [String.eqb ?a ?b] => destruct (String.eqb_spec a b); [congruence|]
           end.
    reflexivity.
Qed.

Lemma mode_changed_adds_the_graphic_witness :
  trace (after mode_changed sample_env graphic_view)
  = (trace graphic_view
     ++ [Graphics_add
           (Graphic_json
              (VObj [("geometry", VObj [("x", number "-118.24"); ("y", number "34.05")])])
              (Some (point_symbol (href sample_env))))])%list.
Proof.
  destruct (mode_changed_adds_the_graphic sample_env graphic_view) as (_ & H & _).
  - vm_compute. reflexivity.
  - unfold after.
    rewrite (H (VObj [("geometry", VObj [("x", number "-118.24"); ("y", number "34.05")])]));
      vm_compute; reflexivity.
Defined.

(** ** What a handler of a model change writes *)

#[local] Instance same_on_refl {A} (f : Model -> A) : Reflexive (same_on f).
Proof. intros v. reflexivity. Qed.

#[local] Instance same_on_trans {A} (f : Model -> A) : Transitive (same_on f).
Proof. intros a b c H1 H2. unfold same_on in *. congruence. Qed.

Ltac same_on_side := idtac; reflexivity.

(** X19. Of the ten handlers of model changes, seven leave the model as
    it is, however they end: [zoom_changed], [extent_changed],
    [basemap_changed], [gallerybasemaps_changed], the two time handlers
    and [remove_layer], which does not take the record of the layer it
    removes out of [_js_layer_list]. [mode_changed] writes nothing but
    [_js_interactive_drawn_graphic], [center_changed] nothing but [center],
    and [layer_changed] nothing but [_js_layer_list]. *)
Theorem handlers_write_one_attribute c e v :
  let v' := after (change_handler c) e v in
  match c with
  | Change_mode => but_drawn_graphics (model v') = but_drawn_graphics (model v)
  | Change_center => but_center (model v') = but_center (model v)
  | Change_addlayer => but_layer_list (model v') = but_layer_list (model v)
  | _ => model v' = model v
  end.
Proof.
  intros v'. subst v'.
  destruct c; cbv beta iota delta [change_handler].
  all: match goal with
       | |- ?f (model (after ?h ?e0 ?v0)) = ?f (model ?v0) =>
           assert (K : keeps (same_on f) h); [|exact (K e0 v0)]
       | |- model (after ?h ?e0 ?v0) = model ?v0 =>
           assert (K : keeps (same_on (fun m => m)) h); [|exact (K e0 v0)]
       end.
  all: keeps_all same_on_side.
Qed.

(** ** From the page to the kernel *)

Lemma on_load_click e v :
  listening The_map "click" (after on_load e v)
  = (listening The_map "click" v ++ [OnMouseClick])%list
  /\ has_map (after on_load e v) = has_map v
  /\ sent (after on_load e v) = sent v.
Proof.
  unfold after. rewrite on_load_eq.
  change (snd (refresh_all e (on_load_wired v)))
    with (after refresh_all e (on_load_wired v)).
  repeat apply conj.
  - rewrite (refresh_all_wiring The_map "click") by (intros; discriminate).
    rewrite listening_wired. reflexivity.
  - destruct (refresh_all_objects e (on_load_wired v)) as [Om _]. now rewrite Om.
  - rewrite (silent_sent refresh_all) by apply refresh_all_silent.
    unfold on_load_wired, sent. cbn [trace with_trace with_listeners with_fresh
                                       with_has_toolbar].
    rewrite omap_app. simpl. apply app_nil_r.
Qed.

Lemma step_event_one e t name a c v :
  listening t name v = [c] ->
  step e (In_event t name a) v = after (run_callback c a) e v.
Proof.
  intros L. unfold step, after. cbn [react]. unfold_M. rewrite L.
  cbn [for_each]. unfold_M. destruct (run_callback c a e v) as [[x|[]] w]; reflexivity.
Qed.

(** X20. A click on the map of a view that was rendered for a model with
    neither token information nor web-map id nor extent, once the map has
    loaded: whatever the surroundings and whatever the rest of the model
    holds, the view has sent nothing before, and for the click it enables
    the navigation of the map and sends one message, [mouseclick] with the
    map point of the event. *)
Theorem map_click_sends_the_point m e1 e2 e3 event :
  nonblank (_token_info m) = false -> nonblank (id m) = false ->
  has_brace (_extent m) = false -> nullish event = false ->
  let v := run [(e1, In_render); (e2, In_event The_map "load" Arg_map)] (new_view m) in
  let v' := step e3 (In_event The_map "click" (Arg_value event)) v in
  sent v = []
  /\ trace v'
     = (trace v ++ [EnableMapNavigation; Send (Msg "mouseclick" (prop event "mapPoint"))])%list
  /\ sent v' = [Msg "mouseclick" (prop event "mapPoint")]
  /\ model v' = model v.
Proof.
  intros Ht Hi Hx Hn v v'.
  set (v1 := step e1 In_render (new_view m)).
  assert (R : listening The_map "load" v1 = [On_load]
              /\ listening The_map "click" v1 = []
              /\ has_map v1 = true /\ sent v1 = []).
  { subst v1. unfold step. cbn [react]. unfold render, load_map, push_gallery_basemaps.
    unfold_M. simpl. rewrite Ht. simpl. rewrite Hi. simpl. rewrite Hx. simpl.
    repeat split. }
  destruct R as (Rl & Rc & Rm & Rs).
  assert (V : v = after on_load e2 v1).
  { subst v. cbn [run]. fold v1. now rewrite (step_event_one _ _ _ _ On_load). }
  destruct (on_load_click e2 v1) as (Lc & Lm & Ls).
  rewrite <- V in Lc, Lm, Ls. rewrite Rc in Lc. rewrite Rm in Lm. rewrite Rs in Ls.
  assert (G : get_prop event "mapPoint" = inr (prop event "mapPoint")).
  { unfold prop. destruct event; try discriminate; reflexivity. }
  assert (E : v' = with_trace
                     (trace v ++ [EnableMapNavigation;
                                  Send (Msg "mouseclick" (prop event "mapPoint"))]) v).
  { subst v'. rewrite (step_event_one _ _ _ _ OnMouseClick) by exact Lc.
    unfold after. cbn [run_callback arg_value]. unfold onMouseClick, mouse_clicked.
    unfold_M. rewrite Lm. cbv beta iota. rewrite G. cbv beta iota.
    cbn [snd trace with_trace]. now rewrite <- app_assoc. }
  repeat apply conj.
  - exact Ls.
  - now rewrite E.
  - rewrite E. unfold sent in *. cbn [trace with_trace]. rewrite omap_app, Ls.
    reflexivity.
  - now rewrite E.
Qed.

Lemma map_click_sends_the_point_witness :
  sent (step sample_env
          (In_event The_map "click" (Arg_value (VObj [("mapPoint", sample_point)])))
          (run [(sample_env, In_render); (sample_env, In_event The_map "load" Arg_map)]
             (new_view sample_model)))
  = [Msg "mouseclick" sample_point].
Proof.
  destruct (map_click_sends_the_point sample_model sample_env sample_env sample_env
              (VObj [("mapPoint", sample_point)]) eq_refl eq_refl eq_refl eq_refl)
    as (_ & _ & H & _).
  exact H.
Defined.

(** ** An imagery layer *)

(** X21. [layer_changed] for an imagery layer whose options parse and ask
    for neither a swipe nor parameters of the image service: the layer is
    made from the address and added to the map, one listener for its
    [load] event is added, and the model stays as it is. The opacity of
    the options is set on the layer only if it is truthy and not [-1]: an
    opacity that is [0] as a number, also one that is written with other
    digits and rounds to it, is taken as none and is not applied. *)
Theorem imagery_layer_opacity newlayer text o e v :
  get_prop newlayer "options" = inr (VStr text) ->
  parse text = Some o -> nullish o = false ->
  truthy (prop o "swipelayer") = false ->
  truthy (prop o "imageServiceParameters") = false ->
  let opacity := prop o "opacity" in
  let layer := fresh v in
  let applied := truthy opacity && negb (loose_eq_minus_one opacity) in
  let v' := after (add_imagery_layer newlayer) e v in
  result (add_imagery_layer newlayer) e v = inr tt
  /\ trace v'
     = (trace v
        ++ [New_Layer layer ArcGISImageServiceLayer (prop newlayer "url")
              (Imagery_options None)]
        ++ (if applied then [SetOpacity layer opacity] else [])
        ++ [AddLayer layer])%list
  /\ listening (A_layer layer) "load" v'
     = (listening (A_layer layer) "load" v ++ [On_imagery_load_sync layer])%list
  /\ model v' = model v
  /\ (forall n, opacity = VNum n -> numeral_is_zero (digits n) = true -> applied = false)
  /\ (forall n, opacity = VNum n -> numeral_is_minus_one (digits n) = true ->
        applied = false).
Proof.
  intros Ho Hp Hn Hs Hi opacity layer applied v'.
  assert (U : get_prop newlayer "url" = inr (prop newlayer "url")).
  { unfold prop. destruct newlayer; try discriminate; reflexivity. }
  assert (G : forall k, get_prop o k = inr (prop o k)).
  { intros k. unfold prop. destruct o; try discriminate; reflexivity. }
  assert (E : add_imagery_layer newlayer e v
              = (inr tt,
                 with_listeners
                   (listeners v ++
                    [{| handle := S (fresh v); target := A_layer (fresh v);
                        event_name := "load";
                        callback := On_imagery_load_sync (fresh v) |}])
                   (with_fresh (S (S (fresh v)))
                      (with_trace
                         (trace v
                          ++ [New_Layer layer ArcGISImageServiceLayer (prop newlayer "url")
                                (Imagery_options None)]
                          ++ (if applied then [SetOpacity layer opacity] else [])
                          ++ [AddLayer layer]) v)))).
  { unfold add_imagery_layer, imagery_options, JSON_parse. unfold_M.
    rewrite Ho. cbn [nullish to_string]. cbv beta iota. rewrite Hp. cbv beta iota.
    rewrite !G. cbv beta iota. rewrite Hi, Hs. cbv beta iota. rewrite U.
    cbv beta iota. subst applied opacity layer.
    destruct (truthy (prop o "opacity")) eqn:T; cbn.
    - destruct (loose_eq_minus_one (prop o "opacity")); cbn;
        rewrite <- ?app_assoc; reflexivity.
    - change (numeral_is_minus_one "-1") with true. cbn.
      rewrite <- ?app_assoc; reflexivity. }
  subst v'. unfold result, after. rewrite E. cbn [fst snd].
  repeat apply conj; try reflexivity.
  - unfold listening. cbn [listeners with_listeners].
    rewrite filter_app, map_app. f_equal.
    rewrite filter_cons_True, filter_nil by (simpl; auto). reflexivity.
  - intros n En Z. subst applied. rewrite En. cbn [truthy]. now rewrite Z.
  - intros n En Z. subst applied. rewrite En. cbn [loose_eq_minus_one].
    rewrite Z. apply andb_false_r.
Qed.

Lemma imagery_layer_opacity_witness :
  trace (after (add_imagery_layer clear_imagery) sample_env sample_view)
  = (trace sample_view
     ++ [New_Layer (fresh sample_view) ArcGISImageServiceLayer
           (VStr "https://img.example/ImageServer") (Imagery_options None);
         AddLayer (fresh sample_view)])%list.
Proof.
  destruct (imagery_layer_opacity clear_imagery (js_text "{'opacity':0}")
              (VObj [("opacity", number "0")]) sample_env sample_view)
    as (_ & H & _); [vm_compute; reflexivity .. |].
  rewrite H. vm_compute. reflexivity.
Defined.

(** ** Smart mapping *)

(** X22. The request for a classed renderer that the view makes for a
    feature layer whose options name one: the smart-mapping function for
    colour or size is called with the layer, the field, the basemap and
    the options. When the request is fulfilled with a renderer, the
    renderer is set on the layer and the layer is redrawn, in this order;
    when the request fails, nothing is done and the layer keeps the
    renderer it had. *)
Theorem smart_mapping_sets_the_renderer size layer curbasemap lyr_options e v :
  nullish lyr_options = false -> promises_numbered v ->
  let props :=
    smart_props layer (prop lyr_options "field_name") curbasemap (Some lyr_options) in
  let request := if size : bool then ClassedSizeRenderer props
                 else ClassedColorRenderer props in
  let v1 :=
    with_promises (promises v ++ [(fresh v, [On_smart_renderer layer])])
      (with_fresh (S (fresh v)) (with_trace (trace v ++ [request]) v)) in
  after_classed size layer curbasemap lyr_options e v = (inr tt, v1)
  /\ (forall e' r,
        react (In_settled (fresh v) (Fulfilled (Arg_renderer r))) e' v1
        = (inr tt,
           with_trace
             (trace v ++ [request; SetRenderer layer (Renderer_given r); Redraw layer])
             (with_promises (promises v) v1)))
  /\ (forall e',
        react (In_settled (fresh v) Rejected) e' v1
        = (inr tt, with_promises (promises v) v1)).
Proof.
  intros Hn Hp props request v1.
  assert (G : get_prop lyr_options "field_name" = inr (prop lyr_options "field_name")).
  { unfold prop. destruct lyr_options; try discriminate; reflexivity. }
  destruct (pending_last (promises v) (fresh v) [On_smart_renderer layer] Hp) as [L R].
  repeat apply conj.
  - unfold after_classed. unfold_M. rewrite G. reflexivity.
  - intros e' r. cbn [react]. unfold_M. subst v1.
    cbn [promises with_promises]. rewrite L. cbn [promises with_promises]. rewrite R.
    cbn [run_chain run_callback arg_renderer]. unfold on_smart_renderer. unfold_M.
    cbn [trace with_trace with_promises with_fresh]. rewrite <- !app_assoc. reflexivity.
  - intros e'. cbn [react]. unfold_M. subst v1.
    cbn [promises with_promises]. rewrite L. cbn [promises with_promises]. rewrite R.
    reflexivity.
Qed.

Lemma smart_mapping_sets_the_renderer_witness :
  trace (after (after_classed false 1 (VStr "topo")
                  (VObj [("renderer", VStr "ClassedColorRenderer");
                         ("field_name", VStr "POP2000")]))
           sample_env sample_view)
  = (trace sample_view
     ++ [ClassedColorRenderer
           (smart_props 1 (VStr "POP2000") (VStr "topo")
              (Some (VObj [("renderer", VStr "ClassedColorRenderer");
                           ("field_name", VStr "POP2000")])))])%list.
Proof.
  destruct (smart_mapping_sets_the_renderer false 1 (VStr "topo")
              (VObj [("renderer", VStr "ClassedColorRenderer");
                     ("field_name", VStr "POP2000")])
              sample_env sample_view) as (H & _).
  - reflexivity.
  - vm_compute. constructor.
  - unfold after. rewrite H. reflexivity.
Defined.

(** ** The path of the extension *)

Lemma starts_with_append pat s :
  starts_with pat s = true <-> exists r, s = (pat ++ r)%string.
Proof.
  revert s. induction pat as [|c pat IH]; intros s; simpl.
  - split; [exists s; reflexivity | reflexivity].
  - destruct s as [|d s]; simpl.
    + split; [discriminate | intros [r H]; discriminate].
    + destruct (Ascii.eqb_spec c d) as [->|N]; simpl.
      * rewrite IH. split; intros [r H]; exists r; [now rewrite H | now injection H].
      * split; [discriminate | intros [r H]; injection H; congruence].
Qed.

Lemma substring_prefix p r : String.substring 0 (String.length p) (p ++ r) = p.
Proof. induction p as [|c p IH]; simpl; [now destruct r | now rewrite IH]. Qed.

Lemma last_index_from_spec c pat s : forall i found,
  (last_index_from i found (String c pat) s = found
   /\ forall p r, s <> (p ++ String c pat ++ r)%string)
  \/ exists p r,
       s = (p ++ String c pat ++ r)%string
       /\ last_index_from i found (String c pat) s = Z.of_nat (i + String.length p)
       /\ forall p' r', s = (p' ++ String c pat ++ r')%string ->
                        String.length p' <= String.length p.
Proof.
  induction s as [|a s IH]; intros i found.
  - left. split; [reflexivity|]. intros [|b p] r; discriminate.
  - cbn [last_index_from].
    set (found' := if starts_with (String c pat) (String a s) then Z.of_nat i else found).
    destruct (IH (S i) found') as [[E N]|(p & r & E & L & M)].
    + rewrite E. subst found'.
      destruct (starts_with (String c pat) (String a s)) eqn:S.
      * right. apply starts_with_append in S as [r S]. exists "", r.
        split; [exact S|]. split; [f_equal; simpl; lia|].
        intros [|b p'] r' H; simpl; [lia|].
        injection H as _ H. now elim (N p' r').
      * left. split; [reflexivity|]. intros [|b p'] r' H.
        -- assert (S' : starts_with (String c pat) (String a s) = true)
             by (apply starts_with_append; exists r'; exact H).
           congruence.
        -- injection H as _ H. now elim (N p' r').
    + right. exists (String a p), r. split; [simpl; now rewrite E|].
      split; [rewrite L; f_equal; simpl; lia|].
      intros [|b p'] r' H; simpl; [lia|].
      injection H as _ H. apply M in H. lia.
Qed.

(** X23. The path under which the page finds the files of the extension
    is [/nbextensions/arcgis] after the part of the address of the page
    that stands before the last [/notebooks] in it, and
    [/nbextensions/arcgis] alone for an address without [/notebooks]. *)
Theorem nbextensionPath_before_last_notebooks href :
  (nbextensionPath href = "/nbextensions/arcgis"
   /\ forall p r, href <> (p ++ "/notebooks" ++ r)%string)
  \/ exists p r,
       href = (p ++ "/notebooks" ++ r)%string
       /\ nbextensionPath href = (p ++ "/nbextensions/arcgis")%string
       /\ forall p' r', href = (p' ++ "/notebooks" ++ r')%string ->
                        String.length p' <= String.length p.
Proof.
  unfold nbextensionPath, lastIndexOf.
  destruct (last_index_from_spec "/" "notebooks" href 0 (-1)%Z)
    as [[E N]|(p & r & E & L & M)].
  - left. change "/notebooks" with (String "/" "notebooks"). rewrite E.
    split; [reflexivity | exact N].
  - right. exists p, r. change "/notebooks" with (String "/" "notebooks").
    split; [exact E|]. split; [|exact M].
    rewrite L. simpl Nat.add.
    destruct (Z.ltb_spec (Z.of_nat (String.length p)) 0); [lia|].
    rewrite Nat2Z.id. rewrite E at 1. now rewrite substring_prefix.
Qed.

(** ** The opacity of a feature layer *)

Lemma opacity_left_app layer a b :
  opacity_left layer (a ++ b)
  = match opacity_left layer b with
    | Some o => Some o
    | None => opacity_left layer a
    end.
Proof.
  induction a as [|x a IH]; simpl.
  - now destruct (opacity_left layer b).
  - rewrite IH. now destruct (opacity_left layer b).
Qed.

Lemma opacity_left_none layer l : Forall no_opacity l -> opacity_left layer l = None.
Proof.
  induction 1 as [|x l Hx Hl IH]; [reflexivity|]. simpl. rewrite IH.
  now destruct x.
Qed.

(** Proves that a change of the view sets no opacity. *)
Ltac no_opacity_side :=
  idtac;
  lazymatch goal with
  | |- calls_more _ ?v (with_trace (trace ?v ++ [_]) ?v) =>
      eexists; split; [reflexivity|]; repeat constructor
  | |- _ => exists []; split; [rewrite app_nil_r; reflexivity | constructor]
  end.

Lemma set_opacity_returns layer o e v b v' :
  when (negb (nullish o)) (call (SetOpacity layer o)) e v = (inr b, v') ->
  trace v' = (trace v ++ if nullish o then [] else [SetOpacity layer o])%list.
Proof.
  unfold_M. destruct (nullish o); simpl; intros [= _ <-]; simpl;
    [now rewrite app_nil_r | reflexivity].
Qed.

(** Goes past a first step that sets no opacity. *)
Ltac past_quietly H :=
  let a := fresh "a" in
  let w := fresh "w" in
  let K := fresh "K" in
  apply (bind_returns_keeping (calls_more no_opacity)) in H;
  [destruct H as (a & w & K & H) | solve [keeps_all no_opacity_side]].

(** X24. The opacity of a feature layer that [layer_changed] has added
    with options that parse: the opacity of the descriptor itself if it is
    not [null], for it is set after that of the options; if not, the
    opacity of the options if that is not [null], an opacity of [0]
    counting; and none if both are [null] or missing. *)
Theorem feature_layer_opacity curbasemap newlayer text o e v v' :
  add_feature_layer curbasemap newlayer e v = (inr tt, v') ->
  get_prop newlayer "options" = inr (VStr text) ->
  parse text = Some o ->
  exists added,
    trace v' = (trace v ++ added)%list
    /\ opacity_left (fresh v) added
       = if nullish (prop newlayer "opacity")
         then if nullish (prop o "opacity") then None else Some (prop o "opacity")
         else Some (prop newlayer "opacity").
Proof.
  intros H Ho Hp. unfold add_feature_layer in H.
  past_reading H.
  apply bind_returns in H as (layer & w1 & E & H).
  assert (layer = fresh v /\ trace w1 = trace v) as [-> T1].
  { unfold new_number in E. unfold_M. injection E as <- <-. split; reflexivity. }
  past_quietly H. destruct K as (l1 & T2 & F1).
  apply bind_returns in H as (options & w3 & E4 & H).
  apply eval_returns in E4 as [E4 ->]. rewrite Ho in E4. injection E4 as <-.
  cbn [nullish] in H. apply bind_returns in H as (lo & w5 & E5 & H).
  unfold feature_layer_options in E5.
  apply bind_returns in E5 as (o' & w4 & Ea & E5). apply eval_returns in Ea as [Ea ->].
  unfold JSON_parse in Ea. cbn [to_string] in Ea. rewrite Hp in Ea. injection Ea as <-.
  apply bind_returns in E5 as (op & w4 & Eb & E5). apply eval_returns in Eb as [Eb ->].
  assert (op = prop o "opacity") as -> by (unfold prop; now rewrite Eb).
  apply bind_returns in E5 as (? & w6 & T3 & E5). apply set_opacity_returns in T3.
  match type of E5 with
  | ?m _ _ = _ =>
      assert (K5 : keeps (calls_more no_opacity) m) by keeps_all no_opacity_side;
      specialize (K5 e w6); unfold after in K5; rewrite E5 in K5;
      destruct K5 as (l2 & T4 & F2)
  end.
  apply bind_returns in H as (op & w8 & Eb' & H). apply eval_returns in Eb' as [Eb' ->].
  assert (op = prop newlayer "opacity") as -> by (unfold prop; now rewrite Eb').
  apply bind_returns in H as (? & w7 & T5 & H). apply set_opacity_returns in T5.
  match type of H with
  | ?m _ _ = _ =>
      assert (K6 : keeps (calls_more no_opacity) m) by keeps_all no_opacity_side;
      specialize (K6 e w7); unfold after in K6; rewrite H in K6;
      destruct K6 as (l3 & T6 & F3)
  end.
  cbn [snd] in T4, T6.
  eexists. split.
  - rewrite T6, T5, T4, T3, T2, T1. rewrite <- !app_assoc. reflexivity.
  - rewrite !opacity_left_app, (opacity_left_none _ l3 F3),
      (opacity_left_none _ l2 F2), (opacity_left_none _ l1 F1).
    destruct (nullish (prop newlayer "opacity")), (nullish (prop o "opacity"));
      simpl; rewrite ?Nat.eqb_refl; reflexivity.
Qed.

Lemma feature_layer_opacity_witness :
  exists added,
    trace (after (add_feature_layer (VStr "topo") clear_features) sample_env sample_view)
    = (trace sample_view ++ added)%list
    /\ opacity_left (fresh sample_view) added = Some (number "0").
Proof.
  apply (feature_layer_opacity (VStr "topo") clear_features (js_text "{'opacity':0}")
           (VObj [("opacity", number "0")]) sample_env sample_view
           (after (add_feature_layer (VStr "topo") clear_features) sample_env
              sample_view));
    vm_compute; reflexivity.
Defined.
